(** * 3D-Bone-Segmentation: ROI synchronisation and surface pipeline

    A shallow embedding of the cross-view ROI engine
    ([main_window_functions.py]), the isosurface guards and density
    filter ([mayavi_widget.py]) and the trilinear sampler
    ([enhanced_mayavi_widget.py]).

    Numeric conventions.  Python [int] values are [Z].  Python [float]
    values (QRectF coordinates, voxel intensities, scales) are modelled
    as exact rationals [Q]: comparisons, [min]/[max], clipping, [floor],
    [ceil] and [int()] are then the same functions as on doubles, and
    products and quotients are the exact values that the doubles
    round.  A statement that depends on the value of a sum, product or
    quotient allows for that rounding explicitly ([Axes.rounding],
    [Axes.display_rounding], [Enhanced.band_rounding],
    [Resampler.blend_rounding], [Viewer.resize_rounding]).  Equality
    of rationals is [Qeq] ([==]). *)

From Stdlib Require Import String ZArith QArith Qround Qminmax Qabs.
From Stdlib Require Import List Bool Lia Lqa.
Import ListNotations.

Local Open Scope Z_scope.

(** ** Python numerics *)

Module Py.

(** [int(q)]: truncation toward zero. *)
Definition int (q : Q) : Z := Z.quot (Qnum q) (Z.pos (Qden q)).

(** [a // b] on integers, for the positive divisors the source uses. *)
Definition floordiv (a b : Z) : Z := a / b.

(** [np.floor], [np.ceil] followed by [int(...)]. *)
Definition floor (q : Q) : Z := Qfloor q.
Definition ceil (q : Q) : Z := Qceiling q.

(** [np.clip(v, lo, hi)] = [minimum(maximum(v, lo), hi)]. *)
Definition clip (v lo hi : Q) : Q := Qmin (Qmax v lo) hi.

(** Normalisation of a slice bound [i] against an axis of length [len]
    (what [slice.indices] does for a positive step): a negative bound
    counts from the end, and the result is clamped to [0, len]. *)
Definition slice_bound (len i : Z) : Z :=
  if i <? 0 then Z.max 0 (i + len) else Z.min i len.

(** [range(n)] as a list of integers. *)
Definition range (n : Z) : list Z := map Z.of_nat (seq 0 (Z.to_nat n)).

(** [a[i]] for a non-negative index; [None] stands for [IndexError]. *)
Definition index {A} (a : list A) (i : Z) : option A :=
  if i <? 0 then None else nth_error a (Z.to_nat i).

End Py.

(** ** Three-dimensional arrays (numpy [ndarray] of rank 3, C order) *)

Module NdArray.

Definition t (A : Type) : Type := list (list (list A)).

(** [a[i0, i1, i2]] with non-negative indices. *)
Definition get {A} (a : t A) (i0 i1 i2 : Z) : option A :=
  match Py.index a i0 with
  | None => None
  | Some plane =>
      match Py.index plane i1 with
      | None => None
      | Some row => Py.index row i2
      end
  end.

(** An array of shape [(s0, s1, s2)] given pointwise. *)
Definition init {A} (s0 s1 s2 : Z) (f : Z -> Z -> Z -> A) : t A :=
  map (fun i0 => map (fun i1 => map (fun i2 => f i0 i1 i2) (Py.range s2))
                     (Py.range s1))
      (Py.range s0).

(** [a.ravel()] *)
Definition ravel {A} (a : t A) : list A := concat (concat a).

(** [a.shape] of a rectangular array. *)
Definition shape0 {A} (a : t A) : Z := Z.of_nat (length a).
Definition shape1 {A} (a : t A) : Z :=
  match a with [] => 0 | p :: _ => Z.of_nat (length p) end.
Definition shape2 {A} (a : t A) : Z :=
  match a with
  | (r :: _) :: _ => Z.of_nat (length r)
  | _ => 0
  end.

(** Every plane has [s1] rows and every row [s2] entries. *)
Definition rectangular {A} (a : t A) (s0 s1 s2 : Z) : Prop :=
  Z.of_nat (length a) = s0 /\
  Forall (fun p => Z.of_nat (length p) = s1 /\
                   Forall (fun r => Z.of_nat (length r) = s2) p) a.

End NdArray.

(** ** The ROI coordinate mapper *)

Module ROI.

(** The orientation string of a view.  The three [ImageViewer]s are
    built with ['coronal'], ['sagittal'] and ['axial'] and pass their own
    string with every signal, so no other value reaches the handlers. *)
Inductive orientation : Type := axial | coronal | sagittal.

(** [QRectF(x, y, width, height)] *)
Record QRectF : Type := mkRect { x : Q; y : Q; width : Q; height : Q }.

(** [rect.isEmpty()]: [width <= 0 or height <= 0]. *)
Definition isEmpty (r : QRectF) : bool :=
  Qle_bool (width r) 0 || Qle_bool (height r) 0.

(** [image.GetSize()] = (width, height, depth). *)
Record image_size : Type := mkSize { size0 : Z; size1 : Z; size2 : Z }.

(** The dictionary built at the end of
    [convert_roi_to_3d_preserving_dimensions]; all seven keys are always
    present, so it is a record. *)
Record roi3d : Type := mkRoi {
  x_min : Z; x_max : Z;
  y_min : Z; y_max : Z;
  z_min : Z; z_max : Z;
  source_orientation : orientation
}.

(** The three scrollbar values read at the top of the conversion. *)
Record slice_indices : Type := mkIdx {
  axial_index : Z; coronal_index : Z; sagittal_index : Z
}.

Definition display_width : Z := 400.
Definition display_height : Z := 400.

(** [size / display] as a float. *)
Definition scale (size display : Z) : Q := inject_Z size / inject_Z display.

(** [max(0, int(c * scale))] and [min(size, int((c + w) * scale))]. *)
Definition lower_bound (c : Q) (s : Q) : Z := Z.max 0 (Py.int (c * s)).
Definition upper_bound (size : Z) (c w : Q) (s : Q) : Z :=
  Z.min size (Py.int ((c + w) * s)).

(** The band given to the hidden axis when no ROI exists yet. *)
Definition thickness (size : Z) : Z := Z.max 1 (Py.floordiv size 10).
Definition band_min (size center : Z) : Z :=
  Z.max 0 (center - Py.floordiv (thickness size) 2).
Definition band_max (size center : Z) : Z :=
  Z.min size (center + Py.floordiv (thickness size) 2).

(** [convert_roi_to_3d_preserving_dimensions(rect, orientation)].
    [image] is [self.main_window.image] ([None] when nothing is loaded)
    and [prior] is [self.roi_rect_3d]. *)
Definition convert_roi_to_3d_preserving_dimensions
    (image : option image_size) (prior : option roi3d) (idx : slice_indices)
    (rect : QRectF) (o : orientation) : option roi3d :=
  match image with
  | None => None
  | Some size =>
      (* start from the existing box, or from the full volume *)
      let '(x0, x1, y0, y1, z0, z1) :=
        match prior with
        | Some r => (x_min r, x_max r, y_min r, y_max r, z_min r, z_max r)
        | None => (0, size0 size, 0, size1 size, 0, size2 size)
        end in
      let fresh := match prior with Some _ => false | None => true end in
      match o with
      | axial =>
          let scale_x := scale (size0 size) display_width in
          let scale_y := scale (size1 size) display_height in
          let x0 := lower_bound (x rect) scale_x in
          let x1 := upper_bound (size0 size) (x rect) (width rect) scale_x in
          let y0 := lower_bound (y rect) scale_y in
          let y1 := upper_bound (size1 size) (y rect) (height rect) scale_y in
          let '(z0, z1) :=
            if fresh
            then (band_min (size2 size) (axial_index idx),
                  band_max (size2 size) (axial_index idx))
            else (z0, z1) in
          Some (mkRoi x0 x1 y0 y1 z0 z1 axial)
      | coronal =>
          let scale_x := scale (size0 size) display_width in
          let scale_z := scale (size2 size) display_height in
          let x0 := lower_bound (x rect) scale_x in
          let x1 := upper_bound (size0 size) (x rect) (width rect) scale_x in
          let z0 := lower_bound (y rect) scale_z in
          let z1 := upper_bound (size2 size) (y rect) (height rect) scale_z in
          let '(y0, y1) :=
            if fresh
            then (band_min (size1 size) (coronal_index idx),
                  band_max (size1 size) (coronal_index idx))
            else (y0, y1) in
          Some (mkRoi x0 x1 y0 y1 z0 z1 coronal)
      | sagittal =>
          let scale_y := scale (size1 size) display_width in
          let scale_z := scale (size2 size) display_height in
          let y0 := lower_bound (x rect) scale_y in
          let y1 := upper_bound (size1 size) (x rect) (width rect) scale_y in
          let z0 := lower_bound (y rect) scale_z in
          let z1 := upper_bound (size2 size) (y rect) (height rect) scale_z in
          let '(x0, x1) :=
            if fresh
            then (band_min (size0 size) (sagittal_index idx),
                  band_max (size0 size) (sagittal_index idx))
            else (x0, x1) in
          Some (mkRoi x0 x1 y0 y1 z0 z1 sagittal)
      end
  end.

(** [display / size] as a float; the source computes it before building
    the rectangle, so a zero size raises [ZeroDivisionError]. *)
Definition inv_scale (display size : Z) : Q := inject_Z display / inject_Z size.

(** The [QRectF] that the three propagation functions build for a pair
    of axes [a] (horizontal) and [b] (vertical); [None] stands for the
    [ZeroDivisionError] swallowed by the enclosing [except]. *)
Definition project_axes (a_min a_max b_min b_max size_a size_b : Z)
  : option QRectF :=
  if (size_a =? 0) || (size_b =? 0) then None
  else
    let scale_a := inv_scale display_width size_a in
    let scale_b := inv_scale display_height size_b in
    Some (mkRect (inject_Z a_min * scale_a) (inject_Z b_min * scale_b)
                 (inject_Z (a_max - a_min) * scale_a)
                 (inject_Z (b_max - b_min) * scale_b)).

Definition project (size : image_size) (r : roi3d) (o : orientation)
  : option QRectF :=
  match o with
  | axial =>
      project_axes (x_min r) (x_max r) (y_min r) (y_max r)
                   (size0 size) (size1 size)
  | coronal =>
      project_axes (x_min r) (x_max r) (z_min r) (z_max r)
                   (size0 size) (size2 size)
  | sagittal =>
      project_axes (y_min r) (y_max r) (z_min r) (z_max r)
                   (size1 size) (size2 size)
  end.

(** [rect.width() > 1 and rect.height() > 1] *)
Definition wide_enough (r : QRectF) : bool :=
  negb (Qle_bool (width r) 1) && negb (Qle_bool (height r) 1).

(** [propagate_roi_to_single_view(target_orientation)]: the rectangle
    handed to [set_roi_from_external] of the target view, if any. *)
Definition propagate_roi_to_single_view
    (image : option image_size) (roi : option roi3d) (target : orientation)
  : option QRectF :=
  match roi, image with
  | Some r, Some size =>
      match project size r target with
      | Some rect => if wide_enough rect then Some rect else None
      | None => None
      end
  | _, _ => None
  end.

Definition orientation_eqb (a b : orientation) : bool :=
  match a, b with
  | axial, axial | coronal, coronal | sagittal, sagittal => true
  | _, _ => false
  end.

(** [propagate_roi_to_views(source_orientation)] and
    [propagate_roi_immediate(source_orientation)]: the updates applied,
    in the order axial, coronal, sagittal, the source view left out. *)
Definition propagate_roi_to_views
    (image : option image_size) (roi : option roi3d) (source : orientation)
  : list (orientation * QRectF) :=
  flat_map
    (fun target =>
       if orientation_eqb source target then []
       else match propagate_roi_to_single_view image roi target with
            | Some rect => [(target, rect)]
            | None => []
            end)
    [axial; coronal; sagittal].

(** [roi_intersects_axial_slice], [..._coronal_slice],
    [..._sagittal_slice]: [min <= slice_index <= max]. *)
Definition roi_intersects_axial_slice (roi : option roi3d) (i : Z) : bool :=
  match roi with
  | None => false
  | Some r => (z_min r <=? i) && (i <=? z_max r)
  end.
Definition roi_intersects_coronal_slice (roi : option roi3d) (i : Z) : bool :=
  match roi with
  | None => false
  | Some r => (y_min r <=? i) && (i <=? y_max r)
  end.
Definition roi_intersects_sagittal_slice (roi : option roi3d) (i : Z) : bool :=
  match roi with
  | None => false
  | Some r => (x_min r <=? i) && (i <=? x_max r)
  end.

(** [lo <= i < hi] for a normalised slice [lo:hi]. *)
Definition in_slice (len lo hi i : Z) : bool :=
  (Py.slice_bound len lo <=? i) && (i <? Py.slice_bound len hi).

(** [get_roi_mask(image_array)] for an array of shape [(s0, s1, s2)]
    = (depth, height, width): a boolean array of zeros in which
    [mask[z_min:z_max, y_min:y_max, x_min:x_max]] is set. *)
Definition get_roi_mask (roi : option roi3d) (s0 s1 s2 : Z)
  : option (NdArray.t bool) :=
  match roi with
  | None => None
  | Some r =>
      let xm := Z.max 0 (x_min r) in
      let xM := Z.min s2 (x_max r) in
      let ym := Z.max 0 (y_min r) in
      let yM := Z.min s1 (y_max r) in
      let zm := Z.max 0 (z_min r) in
      let zM := Z.min s0 (z_max r) in
      Some (NdArray.init s0 s1 s2
              (fun z y x => in_slice s0 zm zM z &&
                            in_slice s1 ym yM y &&
                            in_slice s2 xm xM x))
  end.

End ROI.

(** ** The ROI synchronisation controller *)

Module Sync.

Import ROI.

(** The part of [MainWindowFunctions] and of the main window that the
    ROI handlers read and write.  A view is represented by its
    [_roi_rect]; a scroll bar by its value. *)
Record state : Type := mkState {
  image : option image_size;
  roi_rect_3d : option roi3d;
  roi_update_in_progress : bool;
  scrollbars : slice_indices;
  axial_view : option QRectF;
  coronal_view : option QRectF;
  sagittal_view : option QRectF
}.

(** The two states of the controller, read off the flag. *)
Inductive controller : Type := Idle | Propagating.

Definition controller_of (s : state) : controller :=
  if roi_update_in_progress s then Propagating else Idle.

Definition set_in_progress (b : bool) (s : state) : state :=
  mkState (image s) (roi_rect_3d s) b (scrollbars s)
          (axial_view s) (coronal_view s) (sagittal_view s).

Definition set_roi_rect_3d (r : option roi3d) (s : state) : state :=
  mkState (image s) r (roi_update_in_progress s) (scrollbars s)
          (axial_view s) (coronal_view s) (sagittal_view s).

Definition set_scrollbars (i : slice_indices) (s : state) : state :=
  mkState (image s) (roi_rect_3d s) (roi_update_in_progress s) i
          (axial_view s) (coronal_view s) (sagittal_view s).

(** [view.set_roi_from_external(rect)] for the view of orientation [o]. *)
Definition set_roi_from_external (o : orientation) (rect : option QRectF)
    (s : state) : state :=
  match o with
  | axial =>
      mkState (image s) (roi_rect_3d s) (roi_update_in_progress s)
              (scrollbars s) rect (coronal_view s) (sagittal_view s)
  | coronal =>
      mkState (image s) (roi_rect_3d s) (roi_update_in_progress s)
              (scrollbars s) (axial_view s) rect (sagittal_view s)
  | sagittal =>
      mkState (image s) (roi_rect_3d s) (roi_update_in_progress s)
              (scrollbars s) (axial_view s) (coronal_view s) rect
  end.

(** *** Exceptions

    A handler runs in a state monad in which an exception keeps the
    mutations made so far. *)
Inductive outcome (A : Type) : Type :=
| Return (a : A) (s : state)
| Raise (s : state).
Arguments Return {A} a s.
Arguments Raise {A} s.

Definition M (A : Type) : Type := state -> outcome A.

Definition ret {A} (a : A) : M A := fun s => Return a s.

Definition bind {A B} (c : M A) (k : A -> M B) : M B :=
  fun s => match c s with
           | Return a s' => k a s'
           | Raise s' => Raise s'
           end.

Definition modify (f : state -> state) : M unit := fun s => Return tt (f s).

Definition gets {A} (f : state -> A) : M A := fun s => Return (f s) s.

Notation "x <- c ;; k" := (bind c (fun x => k))
  (at level 61, c at next level, right associativity).
Notation "c ;;; k" := (bind c (fun _ => k))
  (at level 61, right associativity).

(** [try: body except Exception: handler] *)
Definition try_except (body : M unit) (handler : state -> state)
  : state -> state :=
  fun s => match body s with
           | Return _ s' => s'
           | Raise s' => handler s'
           end.

(** Places in a handler at which a call into Qt can raise. *)
Inductive stage : Type :=
| AfterGuard | AtClear | AtConvert | AtNavigate | AtPropagate.

Definition checkpoint (fault : stage -> bool) (p : stage) : M unit :=
  fun s => if fault p then Raise s else Return tt s.

(** *** Slice navigation *)

(** The upper end of a scroll bar's range, [update_scrollbars]. *)
Definition scrollbar_maximum (s : state) (o : orientation) : Z :=
  match image s with
  | None => 99
  | Some size =>
      match o with
      | axial => size2 size - 1
      | coronal => size1 size - 1
      | sagittal => size0 size - 1
      end
  end.

Definition scrollbar_value (s : state) (o : orientation) : Z :=
  match o with
  | axial => axial_index (scrollbars s)
  | coronal => coronal_index (scrollbars s)
  | sagittal => sagittal_index (scrollbars s)
  end.

Definition with_scrollbar (o : orientation) (v : Z) (i : slice_indices)
  : slice_indices :=
  match o with
  | axial => mkIdx v (coronal_index i) (sagittal_index i)
  | coronal => mkIdx (axial_index i) v (sagittal_index i)
  | sagittal => mkIdx (axial_index i) (coronal_index i) v
  end.

Definition roi_intersects_slice (o : orientation) (roi : option roi3d)
    (i : Z) : bool :=
  match o with
  | axial => roi_intersects_axial_slice roi i
  | coronal => roi_intersects_coronal_slice roi i
  | sagittal => roi_intersects_sagittal_slice roi i
  end.

(** [update_axial_view] and its two siblings, as far as the ROI overlay
    goes: the overlay is re-projected when the new slice meets the ROI. *)
Definition update_view (o : orientation) (s : state) : state :=
  if roi_intersects_slice o (roi_rect_3d s) (scrollbar_value s o) then
    match propagate_roi_to_single_view (image s) (roi_rect_3d s) o with
    | Some rect => set_roi_from_external o (Some rect) s
    | None => s
    end
  else s.

(** [scrollbar.setValue(v)]: Qt bounds the value to the range and fires
    [valueChanged], connected to [update_view], only on a change. *)
Definition setValue (o : orientation) (v : Z) (s : state) : state :=
  let v' := Z.max 0 (Z.min (scrollbar_maximum s o) v) in
  if v' =? scrollbar_value s o then s
  else update_view o (set_scrollbars (with_scrollbar o v' (scrollbars s)) s).

(** [navigate_views_to_show_roi()] *)
Definition navigate_views_to_show_roi (s : state) : state :=
  match roi_rect_3d s with
  | None => s
  | Some r =>
      let x_center := Py.floordiv (x_min r + x_max r) 2 in
      let y_center := Py.floordiv (y_min r + y_max r) 2 in
      let z_center := Py.floordiv (z_min r + z_max r) 2 in
      let s := if z_center =? scrollbar_value s axial then s
               else setValue axial z_center s in
      let s := if y_center =? scrollbar_value s coronal then s
               else setValue coronal y_center s in
      if x_center =? scrollbar_value s sagittal then s
      else setValue sagittal x_center s
  end.

(** Applying the list of updates built by [propagate_roi_to_views]. *)
Definition push_updates (ups : list (orientation * QRectF)) (s : state)
  : state :=
  fold_left (fun acc u => set_roi_from_external (fst u) (Some (snd u)) acc)
            ups s.

Definition propagate (source : orientation) (s : state) : state :=
  push_updates (propagate_roi_to_views (image s) (roi_rect_3d s) source) s.

(** Clearing the two other views, in the order coronal, sagittal, axial. *)
Definition clear_other_views (source : orientation) (s : state) : state :=
  fold_left
    (fun acc o => if orientation_eqb o source then acc
                  else set_roi_from_external o None acc)
    [coronal; sagittal; axial] s.

(** *** The handlers

    [reenter] stands for the ROI signals that Qt delivers synchronously
    while the other views are being updated; [fault] says where a call
    raises. *)

Definition convert (rect : QRectF) (source : orientation) : M (option roi3d) :=
  gets (fun s => convert_roi_to_3d_preserving_dimensions
                   (image s) (roi_rect_3d s) (scrollbars s) rect source).

(** [on_roi_changed(rect, source_orientation)] *)
Definition on_roi_changed (reenter : state -> state) (fault : stage -> bool)
    (rect : option QRectF) (source : orientation) : state -> state :=
  try_except
    (busy <- gets roi_update_in_progress ;;
     if busy then ret tt
     else
       modify (set_in_progress true) ;;;
       checkpoint fault AfterGuard ;;;
       (match rect with
        | Some r =>
            if isEmpty r then
              modify (set_roi_rect_3d None) ;;;
              checkpoint fault AtClear ;;;
              modify (clear_other_views source) ;;;
              modify reenter
            else
              checkpoint fault AtConvert ;;;
              roi <- convert r source ;;
              modify (set_roi_rect_3d roi) ;;;
              match roi with
              | Some _ =>
                  checkpoint fault AtNavigate ;;;
                  modify navigate_views_to_show_roi ;;;
                  modify reenter ;;;
                  checkpoint fault AtPropagate ;;;
                  modify (propagate source) ;;;
                  modify reenter
              | None => ret tt
              end
        | None =>
            modify (set_roi_rect_3d None) ;;;
            checkpoint fault AtClear ;;;
            modify (clear_other_views source) ;;;
            modify reenter
        end) ;;;
       modify (set_in_progress false))
    (set_in_progress false).

(** [on_roi_changed_immediate(rect, source_orientation)] *)
Definition on_roi_changed_immediate (reenter : state -> state)
    (fault : stage -> bool) (rect : QRectF) (source : orientation)
  : state -> state :=
  try_except
    (busy <- gets roi_update_in_progress ;;
     if busy then ret tt
     else
       modify (set_in_progress true) ;;;
       checkpoint fault AfterGuard ;;;
       checkpoint fault AtConvert ;;;
       roi <- convert rect source ;;
       modify (set_roi_rect_3d roi) ;;;
       (match roi with
        | Some _ =>
            checkpoint fault AtNavigate ;;;
            modify navigate_views_to_show_roi ;;;
            modify reenter ;;;
            checkpoint fault AtPropagate ;;;
            modify (propagate source) ;;;
            modify reenter
        | None => ret tt
        end) ;;;
       modify (set_in_progress false))
    (set_in_progress false).

(** A 2D ROI edit event: which signal, its arguments, where handling
    fails, and the events that arrive while it is being handled. *)
#[warnings="-register-all"] Inductive event : Type :=
| RoiChanged (rect : option QRectF) (source : orientation)
             (fault : stage -> bool) (reentrant : list event)
| RoiChangedImmediate (rect : QRectF) (source : orientation)
                      (fault : stage -> bool) (reentrant : list event).

Fixpoint handle (e : event) (s : state) : state :=
  match e with
  | RoiChanged rect source fault reentrant =>
      on_roi_changed
        (fun s' => fold_left (fun acc e' => handle e' acc) reentrant s')
        fault rect source s
  | RoiChangedImmediate rect source fault reentrant =>
      on_roi_changed_immediate
        (fun s' => fold_left (fun acc e' => handle e' acc) reentrant s')
        fault rect source s
  end.

(** The event loop: events handled one after the other. *)
Definition run (es : list event) (s : state) : state :=
  fold_left (fun acc e => handle e acc) es s.

(** The states the loop passes through, one after each event. *)
Fixpoint states_after (es : list event) (s : state) : list state :=
  match es with
  | [] => []
  | e :: rest => handle e s :: states_after rest (handle e s)
  end.

End Sync.

(** ** Array statistics (numpy reductions on the flattened array) *)

Module Np.

Definition ltb (a b : Q) : bool := negb (Qle_bool b a).

(** [a.min()], [a.max()]; [None] stands for the [ValueError] raised on
    an empty array. *)
Definition min (l : list Q) : option Q :=
  match l with
  | [] => None
  | v :: t => Some (fold_left Qmin t v)
  end.

Definition max (l : list Q) : option Q :=
  match l with
  | [] => None
  | v :: t => Some (fold_left Qmax t v)
  end.

Definition sum (l : list Q) : Q := fold_left Qplus l 0%Q.

Definition size {A} (l : list A) : Z := Z.of_nat (length l).

(** [np.mean(a)] *)
Definition mean (l : list Q) : Q := (sum l / inject_Z (size l))%Q.

(** [np.count_nonzero(a)] *)
Definition count_nonzero (l : list Q) : Z :=
  size (filter (fun v => negb (Qeq_bool v 0)) l).

(** [np.sum(mask)] for [mask = p(a)]. *)
Definition count (p : Q -> bool) (l : list Q) : Z := size (filter p l).

(** [np.linspace(a, b, n)] *)
Definition linspace (a b : Q) (n : Z) : list Q :=
  if n =? 1 then [a]
  else map (fun i => (a + inject_Z i * ((b - a) / inject_Z (n - 1)))%Q)
           (Py.range n).

End Np.

(** ** Trilinear resampling ([enhanced_mayavi_widget.py]) *)

Module Resampler.

Definition vertex : Type := (Q * Q * Q)%type.

(** [max(0, min(i, dim - 1))] *)
Definition bound_index (i dim : Z) : Z := Z.max 0 (Z.min i (dim - 1)).

(** [(c - lo) / (hi - lo)] if [hi != lo], else [0.0]. *)
Definition weight (c : Q) (lo hi : Z) : Q :=
  if hi =? lo then 0%Q
  else ((c - inject_Z lo) / (inject_Z hi - inject_Z lo))%Q.

(** [a * (1 - w) + b * w] *)
Definition lerp (a b w : Q) : Q := (a * (1 - w) + b * w)%Q.

(** What the single or double precision arithmetic of the blends may
    lose: a relative error of [1e-5] of the magnitudes of the two ends
    of the range. *)
Definition blend_rounding (lo hi : Q) : Q :=
  ((Qabs lo + Qabs hi) / inject_Z (10 ^ 5))%Q.

(** A value inside [[lo, hi]] up to [blend_rounding]. *)
Definition in_range (lo hi d : Q) : Prop :=
  (lo - blend_rounding lo hi <= d /\ d <= hi + blend_rounding lo hi)%Q.

(** The coordinate after [np.clip(c, 0, dim - 1)]. *)
Definition clip_coord (c : Q) (dim : Z) : Q :=
  Py.clip c 0%Q (inject_Z (dim - 1)).

(** The body of the loop of [interpolate_density_at_vertices] for one
    vertex; [None] stands for an [IndexError]. *)
Definition sample (data : NdArray.t Q) (v : vertex) : option Q :=
  let '(z, y, x) := v in
  let s0 := NdArray.shape0 data in
  let s1 := NdArray.shape1 data in
  let s2 := NdArray.shape2 data in
  let z := clip_coord z s0 in
  let y := clip_coord y s1 in
  let x := clip_coord x s2 in
  let z0 := bound_index (Py.floor z) s0 in
  let z1 := bound_index (Py.ceil z) s0 in
  let y0 := bound_index (Py.floor y) s1 in
  let y1 := bound_index (Py.ceil y) s1 in
  let x0 := bound_index (Py.floor x) s2 in
  let x1 := bound_index (Py.ceil x) s2 in
  let wz := weight z z0 z1 in
  let wy := weight y y0 y1 in
  let wx := weight x x0 x1 in
  match NdArray.get data z0 y0 x0, NdArray.get data z0 y0 x1,
        NdArray.get data z0 y1 x0, NdArray.get data z0 y1 x1,
        NdArray.get data z1 y0 x0, NdArray.get data z1 y0 x1,
        NdArray.get data z1 y1 x0, NdArray.get data z1 y1 x1 with
  | Some c000, Some c001, Some c010, Some c011,
    Some c100, Some c101, Some c110, Some c111 =>
      let c00 := lerp c000 c001 wx in
      let c01 := lerp c010 c011 wx in
      let c10 := lerp c100 c101 wx in
      let c11 := lerp c110 c111 wx in
      let c0 := lerp c00 c01 wy in
      let c1 := lerp c10 c11 wy in
      Some (lerp c0 c1 wz)
  | _, _, _, _, _, _, _, _ => None
  end.

Fixpoint sample_many (data : NdArray.t Q) (vs : list vertex)
  : option (list Q) :=
  match vs with
  | [] => Some []
  | v :: rest =>
      match sample data v, sample_many data rest with
      | Some d, Some ds => Some (d :: ds)
      | _, _ => None
      end
  end.

(** [interpolate_density_at_vertices()]: on an exception every vertex
    gets the mean density. *)
Definition interpolate_density_at_vertices (data : NdArray.t Q)
    (vertices : list vertex) : list Q :=
  match sample_many data vertices with
  | Some ds => ds
  | None => repeat (Np.mean (NdArray.ravel data)) (length vertices)
  end.

End Resampler.

(** ** Density-coloured surface ([enhanced_mayavi_widget.py]) *)

Module Enhanced.

Import Resampler.

(** Lines 68-78 of [create_density_colored_surface]: the level handed
    to marching cubes, from the statistics of the data and the optional
    [iso_level] argument. *)
Definition choose_iso_level (data_min data_max data_mean data_std : Q)
    (iso_level : option Q) : Q :=
  match iso_level with
  | None =>
      let iso_level :=
        if Np.ltb 1000 data_max then 200%Q
        else (data_mean + (1 # 2) * data_std)%Q in
      Qmax (data_min + (data_max - data_min) * (1 # 10))
           (Qmin iso_level (data_max - (data_max - data_min) * (1 # 10)))
  | Some level => level
  end.

(** The middle 80% of the value range,
    [[min + 0.1 * range, max - 0.1 * range]]. *)
Definition middle_band (data_min data_max level : Q) : Prop :=
  (data_min + (data_max - data_min) * (1 # 10) <= level /\
   level <= data_max - (data_max - data_min) * (1 # 10))%Q.

(** What the double arithmetic of the clamp may lose: a relative
    error of [1e-12] of the magnitudes of the two ends of the range. *)
Definition band_rounding (data_min data_max : Q) : Q :=
  ((Qabs data_min + Qabs data_max) / inject_Z (10 ^ 12))%Q.

(** A level inside the value range, and inside its middle 80% up to
    [band_rounding]. *)
Definition in_middle_band (data_min data_max level : Q) : Prop :=
  (data_min <= level /\ level <= data_max /\
   data_min + (data_max - data_min) * (1 # 10)
     - band_rounding data_min data_max <= level /\
   level <= data_max - (data_max - data_min) * (1 # 10)
              + band_rounding data_min data_max)%Q.

Inductive surface : Type :=
| Failed
| Built (iso_level : Q) (vertices : list vertex) (vertex_densities : list Q).

Section WithLibraries.

(** [np.std] and [skimage.measure.marching_cubes] (its vertices;
    [None] when it raises). *)
Variable np_std : list Q -> Q.
Variable marching_cubes : NdArray.t Q -> Q -> option (list vertex).

(** [create_density_colored_surface(colormap, iso_level)] *)
Definition create_density_colored_surface (data : NdArray.t Q)
    (iso_level : option Q) : surface :=
  let flat := NdArray.ravel data in
  match Np.min flat, Np.max flat with
  | Some data_min, Some data_max =>
      let level :=
        choose_iso_level data_min data_max (Np.mean flat) (np_std flat)
                         iso_level in
      match marching_cubes data level with
      | Some vertices =>
          Built level vertices
                (interpolate_density_at_vertices data vertices)
      | None => Failed
      end
  | _, _ => Failed
  end.

(** [update_iso_level(new_iso_level)] *)
Definition update_iso_level (data : NdArray.t Q) (new_iso_level : Q)
  : surface :=
  create_density_colored_surface data (Some new_iso_level).

End WithLibraries.

End Enhanced.

(** ** Surface build ([mayavi_widget.py] and [build_3d_view]) *)

Module Mayavi.

Import Resampler.

(** [raw_density_values > 150], the minimum bone HU. *)
Definition bone_mask (v : Q) : bool := Np.ltb 150 v.

(** [(raw_density_values >= -100) & (raw_density_values <= 300)] *)
Definition soft_tissue_mask (v : Q) : bool :=
  Qle_bool (-100) v && Qle_bool v 300.

Section WithLibraries.

(** [scipy.ndimage.map_coordinates(data, coords, order=1,
    mode='nearest')], [np.percentile], [np.median] and
    [skimage.measure.marching_cubes]; [None] when the call raises. *)
Variable map_coordinates : NdArray.t Q -> list vertex -> option (list Q).
Variable np_percentile : list Q -> Q -> option Q.
Variable np_median : list Q -> Q.
Variable marching_cubes : NdArray.t Q -> Q -> option (list vertex).

(** The tissue band filter of [sample_density_at_vertices_for_surface]
    applied to the sampled values.  The outer [option] is the
    exception path ([None]: something raised); the inner one is the
    value returned, [None] when control falls off the end of the
    function. *)
Definition band_filter (has_original : bool) (iso_level : Q)
    (raw : list Q) : option (option (list Q)) :=
  if has_original && Np.ltb 100 iso_level then
    if Np.ltb (inject_Z (Np.size raw) * (3 # 10))
              (inject_Z (Np.count bone_mask raw)) then
      match Np.min (filter bone_mask raw) with
      | Some min_bone =>
          Some (Some (map (fun v => if bone_mask v then v else min_bone)
                          raw))
      | None => None
      end
    else Some None
  else if has_original && Np.ltb 0 iso_level && Qle_bool iso_level 100 then
    if Np.ltb (inject_Z (Np.size raw) * (1 # 2))
              (inject_Z (Np.count soft_tissue_mask raw)) then
      Some (Some (map (fun v => Py.clip v (-100) 300) raw))
    else Some None
  else if has_original && Qle_bool iso_level 0 then
    Some (Some (map (fun v => Py.clip v (-1000) 100) raw))
  else
    match np_percentile raw 10, np_percentile raw 90 with
    | Some q10, Some q90 =>
        let range_size := (q90 - q10)%Q in
        let '(q10, q90) :=
          if Np.ltb range_size 50 then
            let center := ((q10 + q90) / 2)%Q in
            ((center - 25)%Q, (center + 25)%Q)
          else (q10, q90) in
        Some (Some (map (fun v => Py.clip v q10 q90) raw))
    | _, _ => None
    end.

(** The synthetic gradient of the [except] branch. *)
Definition fallback_values (iso_level : Q) (n : Z) : list Q :=
  let '(fallback_min, fallback_max) :=
    if Np.ltb 100 iso_level then (200%Q, 1000%Q)
    else if Np.ltb 0 iso_level then (0%Q, 200%Q)
    else ((-500)%Q, 0%Q) in
  Np.linspace fallback_min fallback_max n.

(** [sample_density_at_vertices_for_surface(vertices, iso_level)];
    the SciPy path of the sampling is the one modelled. *)
Definition sample_density_at_vertices_for_surface
    (original_data : option (NdArray.t Q)) (data : NdArray.t Q)
    (vertices : list vertex) (iso_level : Q) : option (list Q) :=
  let data_to_sample :=
    match original_data with Some d => d | None => data end in
  let max_z := NdArray.shape0 data_to_sample in
  let max_y := NdArray.shape1 data_to_sample in
  let max_x := NdArray.shape2 data_to_sample in
  let coords :=
    map (fun v : vertex =>
           let '(v0, v1, v2) := v in
           (clip_coord v2 max_z, clip_coord v1 max_y, clip_coord v0 max_x))
        vertices in
  let has_original :=
    match original_data with Some _ => true | None => false end in
  let attempt :=
    match map_coordinates data_to_sample coords with
    | Some raw_density_values =>
        match Np.min raw_density_values with
        | Some _ => band_filter has_original iso_level raw_density_values
        | None => None
        end
    | None => None
    end in
  match attempt with
  | Some result => result
  | None => Some (fallback_values iso_level (Np.size vertices))
  end.

Inductive scene_event : Type :=
| ClearFigure
| MarchingCubes (level : Q)
| VolumeRendering.

Inductive scene : Type :=
| EmptyData
| NoVariation
| Surface (iso_level : Q) (vertices : list vertex)
          (density_values : list Q)
| Volume.

(** Lines 248-267 of [update_scene]: the iso-level for a field that
    has variation. *)
Definition scene_iso_level (flat : list Q) (data_min data_max : Q) : Q :=
  let non_zero_count := Np.count_nonzero flat in
  let total_count := Np.size flat in
  let zero_percentage :=
    (inject_Z (total_count - non_zero_count) / inject_Z total_count
     * 100)%Q in
  let iso_level :=
    if Np.ltb 50 zero_percentage
    then (data_min + (data_max - data_min) * (1 # 100))%Q
    else np_median (filter (fun v => Np.ltb data_min v) flat) in
  Qmax (data_min + (1 # 1000)) (Qmin iso_level (data_max - (1 # 1000))).

(** [update_scene()]: what ends up in the scene, and the trace of the
    rendering calls made on the way. *)
Definition update_scene (original_data : option (NdArray.t Q))
    (data : NdArray.t Q) : list scene_event * scene :=
  let flat := NdArray.ravel data in
  match Np.min flat, Np.max flat with
  | Some data_min, Some data_max =>
      if Qle_bool data_max data_min then ([ClearFigure], NoVariation)
      else
        let iso_level := scene_iso_level flat data_min data_max in
        match marching_cubes data iso_level with
        | Some vertices =>
            match sample_density_at_vertices_for_surface
                    original_data data vertices iso_level with
            | Some (d :: ds) =>
                ([ClearFigure; MarchingCubes iso_level],
                 Surface iso_level vertices (d :: ds))
            | _ =>
                ([ClearFigure; MarchingCubes iso_level; VolumeRendering],
                 Volume)
            end
        | None =>
            ([ClearFigure; MarchingCubes iso_level; VolumeRendering],
             Volume)
        end
  | _, _ => ([ClearFigure], EmptyData)
  end.

(** Lines 831-842 of [build_3d_view]: the validity check made on the
    array handed to the widget; [inl] carries the message of the
    [ValueError]. *)
Definition build_3d_validity (any_processing_applied : bool)
    (downsampled_array : NdArray.t Q) : string + unit :=
  let flat := NdArray.ravel downsampled_array in
  if any_processing_applied then
    if Np.count_nonzero flat =? 0 then
      inl "All data was removed by processing - try adjusting threshold/windowing values"%string
    else inr tt
  else
    match Np.min flat, Np.max flat with
    | Some lo, Some hi =>
        if Qle_bool hi lo then
          inl "No variation in raw data - cannot create 3D visualization"%string
        else inr tt
    | _, _ =>
        inl "zero-size array to reduction operation maximum which has no identity"%string
    end.

(** How [build_3d_view()] ends.  An exception raised in its [try]
    block reaches the handler at the end of the function (lines
    956-960), which prints [Failed to build 3D view: ] and the message
    and then calls [traceback.print_exc()], before the line that would
    show the message box.  The [import traceback] of line 887, in the
    handler of a failed widget creation, makes [traceback] a local name
    of [build_3d_view] that is bound on that path only; on every other
    path the call raises [UnboundLocalError], and that exception leaves
    [build_3d_view]: nothing is reported in a message box.
    [UnboundLocalError printed] is that ending, [printed] being the
    message of the first exception; [Rendered]: the [try] block ran to
    its end. *)
Inductive build : Type :=
| UnboundLocalError (printed : string)
| Rendered (trace : list scene_event) (result : scene).

(** [build_3d_view()] from the validity check on: a failed check
    raises [ValueError], whose handling ends in [UnboundLocalError];
    otherwise the widget runs [update_scene] on the array. *)
Definition build_3d_view (any_processing_applied : bool)
    (downsampled_original downsampled_array : NdArray.t Q) : build :=
  match build_3d_validity any_processing_applied downsampled_array with
  | inl message => UnboundLocalError message
  | inr _ =>
      let '(trace, result) :=
        update_scene (Some downsampled_original) downsampled_array in
      Rendered trace result
  end.

End WithLibraries.

End Mayavi.

(** ** Vocabulary of the specification

    The table of section 4.5: which volume axes a projection shows and
    which one it hides.  These names are used to state the properties
    below; the code itself spells the three cases out. *)

Module Axes.

Import ROI.

Inductive axis : Type := X | Y | Z_.

(** The (min, max) pair of a box on an axis. *)
Definition pair_of (r : roi3d) (a : axis) : Z * Z :=
  match a with
  | X => (x_min r, x_max r)
  | Y => (y_min r, y_max r)
  | Z_ => (z_min r, z_max r)
  end.

Definition dim (size : image_size) (a : axis) : Z :=
  match a with
  | X => size0 size
  | Y => size1 size
  | Z_ => size2 size
  end.

(** The axis along the horizontal and the vertical side of a view. *)
Definition horizontal (o : orientation) : axis :=
  match o with axial => X | coronal => X | sagittal => Y end.
Definition vertical (o : orientation) : axis :=
  match o with axial => Y | coronal => Z_ | sagittal => Z_ end.
(** The axis a view looks along, paged by its scroll bar. *)
Definition hidden (o : orientation) : axis :=
  match o with axial => Z_ | coronal => Y | sagittal => X end.

(** The scroll bar value on the axis a view hides. *)
Definition slice_index (idx : slice_indices) (o : orientation) : Z :=
  match o with
  | axial => axial_index idx
  | coronal => coronal_index idx
  | sagittal => sagittal_index idx
  end.

(** The documented invariant of a 3D ROI, as the specification words
    it: [min <= max] and every bound in [[0, dimension)]. *)
Definition within_half_open (size : image_size) (r : roi3d) : Prop :=
  forall a, let '(lo, hi) := pair_of r a in
            lo <= hi /\ 0 <= lo < dim size a /\ 0 <= hi < dim size a.

(** The invariant the code maintains: [0 <= min <= max <= dimension]. *)
Definition within_closed (size : image_size) (r : roi3d) : Prop :=
  forall a, let '(lo, hi) := pair_of r a in
            0 <= lo /\ lo <= hi /\ hi <= dim size a.

(** A rectangle of non-negative size lying inside the display. *)
Definition inside_display (rect : QRectF) : Prop :=
  (0 <= x rect /\ 0 <= width rect /\
   x rect + width rect <= inject_Z display_width /\
   0 <= y rect /\ 0 <= height rect /\
   y rect + height rect <= inject_Z display_height)%Q.

(** Scaling a rectangle corner into index space and clamping it to
    [[0, volume_dim]], as section 4.5 words it. *)
Definition clamp_to_extent (size : Z) (v : Z) : Z := Z.max 0 (Z.min size v).
Definition scaled_corner (size : Z) (c : Q) : Z :=
  clamp_to_extent size (Py.int (c * scale size display_width)).

(** The pair that the code writes on a visible axis of extent [size]
    from the rectangle side that starts at [c] and is [w] long: the min
    bound is cut at 0 only, the max bound at [size] only. *)
Definition written (size : Z) (c w : Q) : Z * Z :=
  (Z.max 0 (Py.int (c * (inject_Z size / inject_Z 400))),
   Z.min size (Py.int ((c + w) * (inject_Z size / inject_Z 400)))).



(** The width of one voxel of an axis in display units. *)
Definition voxel (size : image_size) (a : axis) : Q :=
  inv_scale display_width (dim size a).

(** The allowance, in display units, for the double arithmetic of a
    round trip: the rounding of the index-space product seen through
    one voxel, [400 / 10^15], and two roundings of a product of at
    most 400. *)
Definition display_rounding : Q := 1 / inject_Z (10 ^ 12).

(** A recovered coordinate [c'] sits at most [u] below the original
    [c] and not above it, up to rounding. *)
Definition recovered (u c c' : Q) : Prop :=
  (c - u - display_rounding <= c' /\ c' <= c + display_rounding)%Q.

(** A recovered coordinate [c'] sits at or below the original [c] and
    less than [u] away from it: the loss of one [int()]. *)
Definition within_one (u c c' : Q) : Prop := (c' <= c /\ c < c' + u)%Q.

End Axes.

(** ** Clearing the ROI and reading the views *)

Module Clear.

Import ROI Sync.

(** [view._roi_rect] of the view of orientation [o]. *)
Definition view_roi (s : state) (o : orientation) : option QRectF :=
  match o with
  | axial => axial_view s
  | coronal => coronal_view s
  | sagittal => sagittal_view s
  end.

(** [QRectF()], the null rectangle. *)
Definition null_rect : QRectF := mkRect 0 0 0 0.

(** [ImageViewer.clear_roi()]: the view drops its own rectangle and
    emits [roi_changed(QRectF(), orientation)], which is connected to
    [on_roi_changed]. *)
Definition view_clear_roi (o : orientation) (fault : stage -> bool)
    (reentrant : list event) (s : state) : state :=
  handle (RoiChanged (Some null_rect) o fault reentrant)
         (set_roi_from_external o None s).

(** [MainWindowFunctions.clear_roi()] *)
Definition clear_roi (faults : orientation -> stage -> bool)
    (reentrant : orientation -> list event) (s : state) : state :=
  let s := set_roi_rect_3d None s in
  let s := view_clear_roi coronal (faults coronal) (reentrant coronal) s in
  let s := view_clear_roi sagittal (faults sagittal) (reentrant sagittal) s in
  view_clear_roi axial (faults axial) (reentrant axial) s.

(** One of the three steps of [navigate_views_to_show_roi]:
    [if center != scrollbar.value(): scrollbar.setValue(center)]. *)
Definition scroll_to (o : orientation) (center : Z) (s : state) : state :=
  if center =? scrollbar_value s o then s else setValue o center s.

(** The centre of a box on the axis that the view [o] pages through. *)
Definition center_of (r : roi3d) (o : orientation) : Z :=
  match o with
  | axial => Py.floordiv (z_min r + z_max r) 2
  | coronal => Py.floordiv (y_min r + y_max r) 2
  | sagittal => Py.floordiv (x_min r + x_max r) 2
  end.

End Clear.

(** ** Pixel processing ([image_processing.py]) *)

Module Processing.

(** Element type of an array, as far as the arithmetic below depends
    on it: [uint8] wraps modulo 256, [wide] stands for a type in which
    the intermediate results fit (float, or integer data well inside
    its range). *)
Inductive dtype : Type := uint8 | wide.

(** [x.astype(np.uint8)] for a float already clipped to [0, 255]. *)
Definition to_uint8 (x : Q) : Q := inject_Z (Py.int x).

(** The values a [uint8] element can hold. *)
Definition byte (x : Q) : Prop :=
  exists n, x = inject_Z n /\ (0 <= n <= 255)%Z.

(** One element of [apply_windowing(image, min_val, max_val)]. *)
Definition apply_windowing_value (min_val max_val : Z) (v : Q) : Q :=
  let windowed := Py.clip v (inject_Z min_val) (inject_Z max_val) in
  let windowed :=
    if max_val >? min_val
    then ((windowed - inject_Z min_val)
          / (inject_Z max_val - inject_Z min_val) * 255)%Q
    else 127%Q in
  to_uint8 (Py.clip windowed 0 255).

(** One element of [(slice > threshold_value) * slice]. *)
Definition apply_threshold_value (threshold_value : Z) (v : Q) : Q :=
  if Np.ltb (inject_Z threshold_value) v then v else 0%Q.

(** [slice - 128]: modulo 256 on a [uint8] array. *)
Definition minus_128 (dt : dtype) (v : Q) : Q :=
  match dt with
  | uint8 => inject_Z ((Py.int v - 128) mod 256)
  | wide => (v - 128)%Q
  end.

(** [(259 * (contrast_value + 255)) / (255 * (259 - contrast_value))] *)
Definition contrast_factor (contrast_value : Z) : Q :=
  (inject_Z (259 * (contrast_value + 255))
   / inject_Z (255 * (259 - contrast_value)))%Q.

(** One element of [adjust_contrast(slice, contrast_value)] for a
    contrast other than 259. *)
Definition adjust_contrast_value (dt : dtype) (contrast_value : Z) (v : Q)
  : Q :=
  to_uint8 (Py.clip (128 + contrast_factor contrast_value * minus_128 dt v)
                    0 255).

(** The elementwise functions applied to a whole volume. *)
Definition map3 {A B} (f : A -> B) (a : NdArray.t A) : NdArray.t B :=
  map (map (map f)) a.

Definition apply_windowing (a : NdArray.t Q) (min_val max_val : Z)
  : NdArray.t Q := map3 (apply_windowing_value min_val max_val) a.

Definition apply_threshold (a : NdArray.t Q) (threshold_value : Z)
  : NdArray.t Q := map3 (apply_threshold_value threshold_value) a.

Definition adjust_contrast (dt : dtype) (a : NdArray.t Q)
    (contrast_value : Z) : NdArray.t Q :=
  map3 (adjust_contrast_value dt contrast_value) a.

(** Element type of a slice read from an image: an integer type of
    [bits] bits, signed or not, whose arithmetic wraps around, or a
    floating type with its largest finite value. *)
Inductive element : Type :=
| integer (bits : Z) (signed : bool)
| floating (largest : Q).

(** The values that an array of element type [e] can hold. *)
Definition holds (e : element) (v : Q) : Prop :=
  match e with
  | integer bits true =>
      exists n, v == inject_Z n /\ (- 2 ^ (bits - 1) <= n < 2 ^ (bits - 1))%Z
  | integer bits false =>
      exists n, v == inject_Z n /\ (0 <= n < 2 ^ bits)%Z
  | floating largest => (- largest <= v /\ v <= largest)%Q
  end.

(** What an array of element type [e] holds for the result [v] of a
    subtraction of two of its elements: integers wrap around (a
    floating result out of range is not modelled). *)
Definition wrap (e : element) (v : Q) : Q :=
  match e with
  | integer bits true =>
      inject_Z ((Py.int v + 2 ^ (bits - 1)) mod 2 ^ bits - 2 ^ (bits - 1))
  | integer bits false => inject_Z (Py.int v mod 2 ^ bits)
  | floating _ => v
  end.

(** [normalize_slice_safe(slice_data)] on a 2D slice of element type
    [e]: [slice_data - slice_min] and [slice_max - slice_min] are
    computed in that type, the division in floating point. *)
Definition normalize_slice_safe (e : element) (slice_data : list (list Q))
  : list (list Q) :=
  match Np.min (concat slice_data), Np.max (concat slice_data) with
  | Some slice_min, Some slice_max =>
      if Qeq_bool slice_max slice_min
      then map (map (fun _ => 128%Q)) slice_data
      else map (map (fun v => to_uint8 (wrap e (v - slice_min)
                                        / wrap e (slice_max - slice_min)
                                        * 255)))
               slice_data
  | _, _ => map (map (fun v => to_uint8 (Py.clip v 0 255))) slice_data
  end.

(** [WindowingTool.get_values()] *)
Definition get_values (center width : Z) : Z * Z :=
  (center - Py.floordiv width 2, center + Py.floordiv width 2).

(** The flags and slider values that [apply_processing] reads. *)
Record settings : Type := mkSettings {
  windowing_applied : bool;
  window_center : Z;
  window_width : Z;
  threshold_applied : bool;
  threshold_slider : Z;
  contrast_applied : bool;
  contrast_slider : Z
}.

(** [apply_processing(image)] on an array of element type [dt]:
    windowing first, then the threshold, then the contrast. *)
Definition apply_processing (st : settings) (dt : dtype)
    (image_array : NdArray.t Q) : NdArray.t Q :=
  let '(dt, image_array) :=
    if windowing_applied st then
      let '(min_val, max_val) :=
        get_values (window_center st) (window_width st) in
      (uint8, apply_windowing image_array min_val max_val)
    else (dt, image_array) in
  let image_array :=
    if threshold_applied st
    then apply_threshold image_array (threshold_slider st)
    else image_array in
  if contrast_applied st
  then adjust_contrast dt image_array (contrast_slider st)
  else image_array.

End Processing.

(** ** The windowing tool ([windowing_tool.py]) *)

Module Windowing.

Local Open Scope string_scope.

Definition min_hu : Z := -1024.
Definition max_hu : Z := 3071.

(** [window_presets], as (name, (center, width)). *)
Definition window_presets : list (string * (Z * Z)) :=
  [("Bone", (1000, 1800)); ("Soft Tissue", (40, 400));
   ("Lung", (-600, 1600)); ("Brain", (40, 80)); ("Liver", (60, 160));
   ("Mediastinum", (50, 350)); ("Custom", (40, 400))].

Fixpoint lookup (name : string) (l : list (string * (Z * Z)))
  : option (Z * Z) :=
  match l with
  | [] => None
  | (k, v) :: rest => if String.eqb k name then Some v else lookup name rest
  end.

(** The two sliders, the [current_preset] attribute and the text of
    the preset combo box. *)
Record tool : Type := mkTool {
  center : Z;
  width : Z;
  current_preset : string;
  combo_text : string
}.

(** [QSlider.setValue] bounds the value to the slider's range. *)
Definition bounded (lo hi v : Z) : Z := Z.max lo (Z.min hi v).

(** [update_windowing_display()] called as the slot of a slider: a
    manual change switches the preset to Custom. *)
Definition slider_changed (t : tool) : tool :=
  if String.eqb (current_preset t) "Custom" then t
  else mkTool (center t) (width t) "Custom" "Custom".

(** [center_slider.setValue(v)] and [width_slider.setValue(v)] with
    signals enabled: the slot runs only if the value changes. *)
Definition set_center (v : Z) (t : tool) : tool :=
  let v' := bounded min_hu max_hu v in
  if (v' =? center t)%Z then t
  else slider_changed (mkTool v' (width t) (current_preset t) (combo_text t)).

Definition set_width (v : Z) (t : tool) : tool :=
  let v' := bounded 1 4000 v in
  if (v' =? width t)%Z then t
  else slider_changed (mkTool (center t) v' (current_preset t) (combo_text t)).

(** [apply_preset(preset_name)]: the sliders are set with their
    signals blocked. *)
Definition apply_preset (preset_name : string) (t : tool) : tool :=
  match lookup preset_name window_presets with
  | Some (c, w) =>
      mkTool (bounded min_hu max_hu c) (bounded 1 4000 w)
             (current_preset t) (combo_text t)
  | None => t
  end.

(** [on_preset_changed(preset_name)], the slot of the combo box, whose
    text is then [preset_name]. *)
Definition on_preset_changed (preset_name : string) (t : tool) : tool :=
  let t := mkTool (center t) (width t) (current_preset t) preset_name in
  let t := if String.eqb preset_name "Custom" then t
           else apply_preset preset_name t in
  mkTool (center t) (width t) preset_name (combo_text t).

(** What the user can do to the tool. *)
Inductive action : Type :=
| SelectPreset (name : string)
| DragCenter (v : Z)
| DragWidth (v : Z)
| DecreaseCenter
| IncreaseCenter
| DecreaseWidth
| IncreaseWidth.

Definition step (a : action) (t : tool) : tool :=
  match a with
  | SelectPreset name => on_preset_changed name t
  | DragCenter v => set_center v t
  | DragWidth v => set_width v t
  | DecreaseCenter => set_center (center t - 10) t
  | IncreaseCenter => set_center (center t + 10) t
  | DecreaseWidth => set_width (Z.max 1 (width t - 10)) t
  | IncreaseWidth => set_width (width t + 10) t
  end.

(** The tool after [__init__]: the sliders at their initial values,
    then [apply_preset("Bone")]. *)
Definition initial : tool :=
  apply_preset "Bone" (mkTool 1000 1800 "Bone" "Bone").

(** [get_values()] and [get_center_width()] of the tool. *)
Definition get_values (t : tool) : Z * Z :=
  Processing.get_values (center t) (width t).
Definition get_center_width (t : tool) : Z * Z := (center t, width t).

(** The tool after a sequence of user actions. *)
Definition run (actions : list action) : tool :=
  fold_left (fun t a => step a t) actions initial.

End Windowing.

(** ** From the processed volume to the widget ([build_3d_view]) *)

Module Build.

Import ROI.

Definition map2 {A B C} (f : A -> B -> C) (l : list A) (m : list B)
  : list C := map (fun p => f (fst p) (snd p)) (combine l m).

(** [v * True] and [v * False]. *)
Definition times_mask (v : Q) (b : bool) : Q := if b then v else 0%Q.

(** [array * roi_mask] for two arrays of one shape. *)
Definition multiply (a : NdArray.t Q) (m : NdArray.t bool) : NdArray.t Q :=
  map2 (map2 (map2 times_mask)) a m.

(** Lines 802-808: the array is multiplied by the ROI mask when a ROI
    is selected. *)
Definition apply_roi_mask (roi : option roi3d) (a : NdArray.t Q)
  : NdArray.t Q :=
  match get_roi_mask roi (NdArray.shape0 a) (NdArray.shape1 a)
                     (NdArray.shape2 a) with
  | Some mask => multiply a mask
  | None => a
  end.

(** [l[::f]] for a positive step: the entries at 0, f, 2f, ... *)
Fixpoint stride_from {A} (f : nat) (skip : nat) (l : list A) : list A :=
  match l with
  | [] => []
  | x :: rest =>
      match skip with
      | O => x :: stride_from f (f - 1) rest
      | S k => stride_from f k rest
      end
  end.

Definition stride {A} (f : Z) (l : list A) : list A :=
  stride_from (Z.to_nat f) 0 l.

Definition max_dim : Z := 256.

(** [max(1, dim // max_dim)] *)
Definition downsample_factor (d : Z) : Z :=
  Z.max 1 (Py.floordiv d max_dim).

(** [len(range(0, n, f))], the length of [l[::f]] for [len(l) = n]. *)
Definition strided_length (n f : Z) : Z := (n + f - 1) / f.

(** Lines 812-825: when the array of shape [(s0, s1, s2)] has a
    dimension above [max_dim], it and the original are subsampled with
    one integer step per axis, [a[::f0, ::f1, ::f2]]. *)
Definition subsample {A} (s0 s1 s2 : Z) (a : NdArray.t A) : NdArray.t A :=
  if Z.max s0 (Z.max s1 s2) >? max_dim then
    map (fun plane => map (stride (downsample_factor s2))
                          (stride (downsample_factor s1) plane))
        (stride (downsample_factor s0) a)
  else a.

Section WithLibraries.

Variable map_coordinates :
  NdArray.t Q -> list Resampler.vertex -> option (list Q).
Variable np_percentile : list Q -> Q -> option Q.
Variable np_median : list Q -> Q.
Variable marching_cubes :
  NdArray.t Q -> Q -> option (list Resampler.vertex).

(** The message of the [ValueError] that [a.min()] raises on an empty
    array. *)
Definition empty_message : string :=
  "zero-size array to reduction operation minimum which has no identity".

(** [build_3d_view()] from the processed array on: ROI mask,
    subsampling, validity check, widget update.  The range of the
    original array is printed first (line 779), which raises on an
    empty array. *)
Definition build_3d_from (any_processing_applied : bool)
    (roi : option roi3d) (original_image_array processed_array : NdArray.t Q)
  : Mayavi.build :=
  if Np.size (NdArray.ravel original_image_array) =? 0
  then Mayavi.UnboundLocalError empty_message else
  let original_for_density := original_image_array in
  let '(processed_array, original_for_density) :=
    match roi with
    | Some _ =>
        match get_roi_mask roi (NdArray.shape0 processed_array)
                           (NdArray.shape1 processed_array)
                           (NdArray.shape2 processed_array) with
        | Some roi_mask =>
            (multiply processed_array roi_mask,
             multiply original_for_density roi_mask)
        | None => (processed_array, original_for_density)
        end
    | None => (processed_array, original_for_density)
    end in
  let original_shape0 := NdArray.shape0 processed_array in
  let original_shape1 := NdArray.shape1 processed_array in
  let original_shape2 := NdArray.shape2 processed_array in
  let downsampled_array :=
    subsample original_shape0 original_shape1 original_shape2
              processed_array in
  let downsampled_original :=
    subsample original_shape0 original_shape1 original_shape2
              original_for_density in
  Mayavi.build_3d_view map_coordinates np_percentile np_median
    marching_cubes any_processing_applied downsampled_original
    downsampled_array.

(** The message of the [ValueError] raised for processed data without
    a non-zero voxel. *)
Definition removed_message : string :=
  "All data was removed by processing - try adjusting threshold/windowing values".

(** [threshold_applied or windowing_applied or contrast_applied] *)
Definition any_processing_applied (st : Processing.settings) : bool :=
  Processing.threshold_applied st || Processing.windowing_applied st
  || Processing.contrast_applied st.

(** [build_3d_view()] for a loaded image whose array has element type
    [dt]: the processing pipeline when a processing step is applied,
    the raw data otherwise, then the steps of [build_3d_from]. *)
Definition build_3d_view (st : Processing.settings) (dt : Processing.dtype)
    (roi : option roi3d) (original_image_array : NdArray.t Q)
  : Mayavi.build :=
  let processed_array :=
    if any_processing_applied st
    then Processing.apply_processing st dt original_image_array
    else original_image_array in
  build_3d_from (any_processing_applied st) roi original_image_array
                processed_array.

End WithLibraries.

End Build.

(** ** The resizable ROI rectangle ([DirectROI] in [image_viewer.py]) *)

Module Viewer.

Import ROI.
Local Open Scope string_scope.

(** The edges of a [QRectF] and their setters; a setter moves one
    edge and keeps the opposite one. *)
Definition left (r : QRectF) : Q := x r.
Definition top (r : QRectF) : Q := y r.
Definition right (r : QRectF) : Q := (x r + width r)%Q.
Definition bottom (r : QRectF) : Q := (y r + height r)%Q.

Definition setLeft (pos : Q) (r : QRectF) : QRectF :=
  mkRect pos (y r) (width r - (pos - x r))%Q (height r).
Definition setRight (pos : Q) (r : QRectF) : QRectF :=
  mkRect (x r) (y r) (pos - x r)%Q (height r).
Definition setTop (pos : Q) (r : QRectF) : QRectF :=
  mkRect (x r) pos (width r) (height r - (pos - y r))%Q.
Definition setBottom (pos : Q) (r : QRectF) : QRectF :=
  mkRect (x r) (y r) (width r) (pos - y r)%Q.

(** [needle in s] on strings. *)
Fixpoint contains (needle s : string) : bool :=
  if String.prefix needle s then true
  else match s with
       | EmptyString => false
       | String _ rest => contains needle rest
       end.

(** [s.replace(old, new)] for a non-empty [old]: the occurrences are
    found from the left and do not overlap; [skip] counts the
    characters of an occurrence still to be dropped. *)
Fixpoint replace_from (skip : nat) (old new s : string) : string :=
  match s with
  | EmptyString => EmptyString
  | String c rest =>
      match skip with
      | S k => replace_from k old new rest
      | O =>
          if String.prefix old s
          then new ++ replace_from (String.length old - 1) old new rest
          else String c (replace_from 0 old new rest)
      end
  end.

Definition replace (old new s : string) : string := replace_from 0 old new s.

Definition resize_margin : Q := 15.

(** [get_resize_direction(pos)] for an item of rectangle [rect]. *)
Definition get_resize_direction (pos : Q * Q) (rect : QRectF)
  : option string :=
  let margin := resize_margin in
  let left := Qle_bool (fst pos) margin in
  let right := Qle_bool (width rect - margin) (fst pos) in
  let top := Qle_bool (snd pos) margin in
  let bottom := Qle_bool (height rect - margin) (snd pos) in
  if left && top then Some "nw"
  else if right && top then Some "ne"
  else if left && bottom then Some "sw"
  else if right && bottom then Some "se"
  else if top then Some "n"
  else if bottom then Some "s"
  else if left then Some "w"
  else if right then Some "e"
  else None.

(** The two renamings of [perform_resize]. *)
Definition flip_horizontal (resize_direction : string) : string :=
  replace "temp" "e" (replace "e" "w" (replace "w" "temp" resize_direction)).
Definition flip_vertical (resize_direction : string) : string :=
  replace "temp" "s" (replace "s" "n" (replace "n" "temp" resize_direction)).

Definition min_size : Q := 5.

(** A coordinate of a scene of at most a million pixels, a drag all
    of whose coordinates are such, and the size below which the double
    arithmetic of [QRectF] is not followed. *)
Definition pixel (v : Q) : Prop := (- (1000000) <= v /\ v <= 1000000)%Q.
Definition on_scene (mouse_press_pos pos : Q * Q) (r : QRectF) : Prop :=
  pixel (fst mouse_press_pos) /\ pixel (snd mouse_press_pos) /\
  pixel (fst pos) /\ pixel (snd pos) /\
  pixel (x r) /\ pixel (y r) /\ pixel (width r) /\ pixel (height r).
Definition resize_rounding : Q := 1 # 1000000.

(** [perform_resize(pos)]: the rectangle set on the item and the new
    [resize_direction]. *)
Definition perform_resize (resize_direction : string)
    (mouse_press_pos : Q * Q) (mouse_press_rect : QRectF) (pos : Q * Q)
  : QRectF * string :=
  let diff_x := (fst pos - fst mouse_press_pos)%Q in
  let diff_y := (snd pos - snd mouse_press_pos)%Q in
  let new_rect := mouse_press_rect in
  let new_rect :=
    if contains "n" resize_direction
    then setTop (top new_rect + diff_y) new_rect else new_rect in
  let new_rect :=
    if contains "s" resize_direction
    then setBottom (bottom new_rect + diff_y) new_rect else new_rect in
  let new_rect :=
    if contains "w" resize_direction
    then setLeft (left new_rect + diff_x) new_rect else new_rect in
  let new_rect :=
    if contains "e" resize_direction
    then setRight (right new_rect + diff_x) new_rect else new_rect in
  let '(new_rect, resize_direction) :=
    if Np.ltb (width new_rect) 0 then
      let '(l, r) := (left new_rect, right new_rect) in
      (setRight l (setLeft r new_rect), flip_horizontal resize_direction)
    else (new_rect, resize_direction) in
  let '(new_rect, resize_direction) :=
    if Np.ltb (height new_rect) 0 then
      let '(t, b) := (top new_rect, bottom new_rect) in
      (setBottom t (setTop b new_rect), flip_vertical resize_direction)
    else (new_rect, resize_direction) in
  let new_rect :=
    if Np.ltb (width new_rect) min_size then
      if contains "w" resize_direction
      then setLeft (right new_rect - min_size) new_rect
      else setRight (left new_rect + min_size) new_rect
    else new_rect in
  let new_rect :=
    if Np.ltb (height new_rect) min_size then
      if contains "n" resize_direction
      then setTop (bottom new_rect - min_size) new_rect
      else setBottom (top new_rect + min_size) new_rect
    else new_rect in
  (new_rect, resize_direction).

End Viewer.

(** ** Picking and statistics ([mayavi_widget.py]) *)

Module Picking.

(** Python's [round(x)]: the nearest integer, a tie going to the even
    one. *)
Definition round (v : Q) : Z :=
  let f := Qfloor v in
  let r := (v - inject_Z f)%Q in
  if Np.ltb r (1 # 2) then f
  else if Np.ltb (1 # 2) r then f + 1
  else if Z.even f then f else f + 1.

(** [int(np.clip(round(c), 0, dim - 1))] *)
Definition picked_index (c : Q) (dim : Z) : Z :=
  Py.int (Py.clip (inject_Z (round c)) 0 (inject_Z (dim - 1))).

(** [on_pick()] for a pick that hit an actor: the density handed to
    [update_density_info]; [None] when the handler returns early or
    an exception is caught. *)
Definition on_pick (original_data : option (NdArray.t Q))
    (data : NdArray.t Q) (picked_point : Q * Q * Q) : option Q :=
  let '(p0, p1, p2) := picked_point in
  if Np.size (NdArray.ravel data) =? 0 then None
  else
    let max_z := NdArray.shape0 data in
    let max_y := NdArray.shape1 data in
    let max_x := NdArray.shape2 data in
    let x_idx := picked_index p0 max_x in
    let y_idx := picked_index p1 max_y in
    let z_idx := picked_index p2 max_z in
    match original_data with
    | Some original => NdArray.get original z_idx y_idx x_idx
    | None => NdArray.get data z_idx y_idx x_idx
    end.

Record statistics : Type := mkStatistics {
  stat_min : Q;
  stat_max : Q;
  stat_mean : Q;
  stat_std : Q;
  stat_median : Q
}.

Section WithLibraries.

Variable np_std : list Q -> Q.
Variable np_median : list Q -> Q.

(** [get_density_statistics()] *)
Definition get_density_statistics (data : NdArray.t Q)
  : option statistics :=
  let flat := NdArray.ravel data in
  if 0 <? Np.size flat then
    let non_zero_data := filter (fun v => Np.ltb 0 v) flat in
    if 0 <? Np.size non_zero_data then
      match Np.min non_zero_data, Np.max non_zero_data with
      | Some lo, Some hi =>
          Some (mkStatistics lo hi (Np.mean non_zero_data)
                             (np_std non_zero_data)
                             (np_median non_zero_data))
      | _, _ => None
      end
    else None
  else None.

End WithLibraries.

End Picking.

(** * Properties *)

(** ** Arithmetic of the Python primitives *)

Section PyFacts.

Local Open Scope Q_scope.

Lemma div_nonneg (a b : Q) : 0 <= a -> 0 <= b -> 0 <= a / b.
Proof.
  intros Ha Hb. unfold Qdiv. apply Qmult_le_0_compat; [assumption|].
  now apply Qinv_le_0_compat.
Qed.

(** On a non-negative float [int()] is [floor]. *)
Lemma int_floor (q : Q) : 0 <= q -> Py.int q = Qfloor q.
Proof.
  destruct q as [n d]. unfold Qle, Py.int, Qfloor. simpl. intros H.
  apply Z.quot_div_nonneg; lia.
Qed.

Lemma int_nonneg (q : Q) : 0 <= q -> (0 <= Py.int q)%Z.
Proof.
  intros H. rewrite int_floor by assumption.
  change 0%Z with (Qfloor 0). now apply Qfloor_resp_le.
Qed.

Lemma int_mono (p q : Q) : 0 <= p -> p <= q -> (Py.int p <= Py.int q)%Z.
Proof.
  intros Hp Hpq. rewrite !int_floor by lra. now apply Qfloor_resp_le.
Qed.

Lemma int_le_Z (q : Q) (n : Z) :
  0 <= q -> q <= inject_Z n -> (Py.int q <= n)%Z.
Proof.
  intros Hq Hn. rewrite int_floor by assumption.
  rewrite <- (Qfloor_Z n). now apply Qfloor_resp_le.
Qed.

Lemma int_below (q : Q) : 0 <= q -> inject_Z (Py.int q) <= q.
Proof. intros H. rewrite int_floor by assumption. apply Qfloor_le. Qed.

Lemma int_above (q : Q) : 0 <= q -> q < inject_Z (Py.int q) + 1.
Proof.
  intros H. rewrite int_floor by assumption.
  pose proof (Qlt_floor q) as L. rewrite inject_Z_plus in L. exact L.
Qed.

(** Scaling a display coordinate into index space. *)
Lemma scaled_nonneg (c : Q) (size : Z) :
  0 <= c -> (0 <= size)%Z -> 0 <= c * ROI.scale size ROI.display_width.
Proof.
  intros Hc Hs. apply Qmult_le_0_compat; [assumption|].
  apply div_nonneg.
  - change 0 with (inject_Z 0). now rewrite <- Zle_Qle.
  - discriminate.
Qed.

Lemma scaled_le_size (c : Q) (size : Z) :
  0 <= c -> c <= inject_Z ROI.display_width -> (0 <= size)%Z ->
  c * ROI.scale size ROI.display_width <= inject_Z size.
Proof.
  intros Hc Hd Hs. unfold ROI.scale.
  assert (E : inject_Z size ==
              inject_Z ROI.display_width *
              (inject_Z size / inject_Z ROI.display_width))
    by (field; discriminate).
  rewrite E at 2. apply Qmult_le_compat_r; [assumption|].
  apply div_nonneg; [|discriminate].
  change 0 with (inject_Z 0). now rewrite <- Zle_Qle.
Qed.

Lemma scaled_mono (c d : Q) (size : Z) :
  c <= d -> (0 <= size)%Z ->
  c * ROI.scale size ROI.display_width <=
  d * ROI.scale size ROI.display_width.
Proof.
  intros Hcd Hs. apply Qmult_le_compat_r; [assumption|].
  apply div_nonneg; [|discriminate].
  change 0 with (inject_Z 0). now rewrite <- Zle_Qle.
Qed.

End PyFacts.

(** ** The ROI coordinate mapper *)

Section RoiFacts.

Import ROI Axes.

(** The scenario of the specification: an axial rectangle
    (50, 50, 100, 100) in a 512 x 512 x 300 volume, axial slice 150. *)
Example scenario_axial :
  convert_roi_to_3d_preserving_dimensions
    (Some (mkSize 512 512 300)) None (mkIdx 150 256 256)
    (mkRect 50 50 100 100) axial
  = Some (mkRoi 64 192 64 192 135 165 axial).
Proof. reflexivity. Qed.

Example scenario_coronal_edit :
  convert_roi_to_3d_preserving_dimensions
    (Some (mkSize 512 512 300)) (Some (mkRoi 64 192 64 192 135 165 axial))
    (mkIdx 150 128 128) (mkRect 100 200 100 100) coronal
  = Some (mkRoi 128 256 64 192 150 225 coronal).
Proof. reflexivity. Qed.

Lemma thickness_half_nonneg (size : Z) :
  0 <= Py.floordiv (thickness size) 2.
Proof.
  unfold Py.floordiv, thickness. apply Z.div_pos; lia.
Qed.

Lemma band_inside (size c : Z) :
  0 <= c < size ->
  0 <= band_min size c /\ band_min size c <= band_max size c /\
  band_max size c <= size.
Proof.
  intros Hc. unfold band_min, band_max.
  pose proof (thickness_half_nonneg size). lia.
Qed.


Lemma visible_inside (size : Z) (c w : Q) :
  (0 <= c)%Q -> (0 <= w)%Q -> (c + w <= inject_Z display_width)%Q ->
  0 <= size ->
  let s := scale size display_width in
  0 <= lower_bound c s /\ lower_bound c s <= upper_bound size c w s /\
  upper_bound size c w s <= size.
Proof.
  intros Hc Hw Hd Hs s. unfold lower_bound, upper_bound.
  assert (H0 : (0 <= c * s)%Q) by (apply scaled_nonneg; assumption).
  assert (H1 : (c * s <= (c + w) * s)%Q) by (apply scaled_mono; [lra|lia]).
  assert (H2 : (c * s <= inject_Z size)%Q)
    by (apply scaled_le_size; [lra|lra|lia]).
  pose proof (int_nonneg _ H0). pose proof (int_mono _ _ H0 H1).
  pose proof (int_le_Z _ _ H0 H2). lia.
Qed.

(** Inside the display the one-sided clamps of the code are the
    two-sided clamp of the specification. *)
Lemma visible_is_clamped (size : Z) (c w : Q) :
  (0 <= c)%Q -> (0 <= w)%Q -> (c + w <= inject_Z display_width)%Q ->
  0 <= size ->
  let s := scale size display_width in
  (lower_bound c s, upper_bound size c w s) =
  (scaled_corner size c, scaled_corner size (c + w)).
Proof.
  intros Hc Hw Hd Hs s. unfold lower_bound, upper_bound, scaled_corner,
    clamp_to_extent. fold s.
  assert (H0 : (0 <= c * s)%Q) by (apply scaled_nonneg; assumption).
  assert (H1 : (0 <= (c + w) * s)%Q) by (apply scaled_nonneg; [lra|lia]).
  assert (H2 : (c * s <= inject_Z size)%Q)
    by (apply scaled_le_size; [lra|lra|lia]).
  pose proof (int_nonneg _ H0). pose proof (int_nonneg _ H1).
  pose proof (int_le_Z _ _ H0 H2). f_equal; lia.
Qed.

End RoiFacts.

Section RoiUpdate.

Import ROI Axes.

(** C3.  An edit made from orientation [o] while a 3D ROI exists
    always yields a box; its pair on the axis hidden in [o] (Z for
    axial, Y for coronal, X for sagittal) is the pair of the prior
    box, whatever the volume extent; its pairs on the two visible
    axes are the scaled rectangle sides, whatever the prior box held
    there; and the box is tagged with [o]. *)
Theorem edit_preserves_hidden_axis
    (size : image_size) (prior : roi3d) (idx : slice_indices)
    (rect : QRectF) (o : orientation) :
  exists r,
    convert_roi_to_3d_preserving_dimensions
      (Some size) (Some prior) idx rect o = Some r /\
    pair_of r (hidden o) = pair_of prior (hidden o) /\
    pair_of r (horizontal o) =
      written (dim size (horizontal o)) (x rect) (width rect) /\
    pair_of r (vertical o) =
      written (dim size (vertical o)) (y rect) (height rect) /\
    source_orientation r = o.
Proof.
  destruct o; simpl; eexists; (split; [reflexivity|]); simpl;
    repeat split; reflexivity.
Qed.





End RoiUpdate.

Section RoiInvariant.

Import ROI Axes.

(** C8 as worded fails: a rectangle covering the whole display gives
    [x_max = 512] in a volume 512 wide, a bound equal to the
    dimension and so outside [[0, dimension)]. *)
Lemma max_bound_reaches_dimension :
  exists r,
    convert_roi_to_3d_preserving_dimensions
      (Some (mkSize 512 512 300)) None (mkIdx 150 256 256)
      (mkRect 0 0 400 400) axial = Some r /\
    x_max r = 512 /\
    ~ within_half_open (mkSize 512 512 300) r.
Proof.
  exists (mkRoi 0 512 0 512 135 165 axial).
  split; [reflexivity|]. split; [reflexivity|].
  intros H. specialize (H X). simpl in H. lia.
Qed.

(** C8, amended.  For a rectangle of non-negative size inside the
    display, slice indices inside the volume and a prior ROI that is
    absent or itself within the volume, the update yields a box with
    [0 <= min <= max <= dimension] on each of the three axes: the
    upper end is inclusive. *)
Theorem update_keeps_roi_within_volume
    (size : image_size) (prior : option roi3d) (idx : slice_indices)
    (rect : QRectF) (o : orientation)
    (Hrect : inside_display rect)
    (Hidx : forall v, 0 <= slice_index idx v < dim size (hidden v))
    (Hprior : forall p, prior = Some p -> within_closed size p) :
  exists r,
    convert_roi_to_3d_preserving_dimensions
      (Some size) prior idx rect o = Some r /\
    within_closed size r.
Proof.
  destruct Hrect as (Hx & Hw & Hxw & Hy & Hh & Hyh).
  pose proof (Hidx axial) as Ia. pose proof (Hidx coronal) as Ic.
  pose proof (Hidx sagittal) as Is. simpl in Ia, Ic, Is.
  assert (P : forall a, match prior with
                        | Some p => let '(lo, hi) := pair_of p a in
                                    0 <= lo /\ lo <= hi /\ hi <= dim size a
                        | None => True
                        end).
  { intros a. destruct prior as [p|]; [|exact I].
    exact (Hprior p eq_refl a). }
  pose proof (P X) as PX. pose proof (P Y) as PY. pose proof (P Z_) as PZ.
  pose proof (fun d (H : 0 <= d) => visible_inside d _ _ Hx Hw Hxw H) as Vx.
  pose proof (fun d (H : 0 <= d) => visible_inside d _ _ Hy Hh Hyh H) as Vy.
  pose proof (band_inside _ _ Ia) as Ba.
  pose proof (band_inside _ _ Ic) as Bc.
  pose proof (band_inside _ _ Is) as Bs.
  destruct o, prior as [p|]; simpl in *; eexists;
    (split; [reflexivity|]); intros a; destruct a; simpl;
    first [ apply Vx; lia | apply Vy; lia | assumption ].
Qed.

Lemma update_keeps_roi_within_volume_witness :
  exists r,
    convert_roi_to_3d_preserving_dimensions
      (Some (mkSize 512 512 300))
      (Some (mkRoi 64 192 64 192 135 165 axial))
      (mkIdx 150 128 128) (mkRect 100 200 100 100) coronal = Some r /\
    within_closed (mkSize 512 512 300) r.
Proof.
  apply (update_keeps_roi_within_volume
           (mkSize 512 512 300)
           (Some (mkRoi 64 192 64 192 135 165 axial))
           (mkIdx 150 128 128) (mkRect 100 200 100 100) coronal).
  - unfold inside_display, Qle; simpl; lia.
  - intros v; destruct v; simpl; lia.
  - intros p E. injection E as <-. intros a; destruct a; simpl; lia.
Defined.

End RoiInvariant.

Section RoundTrip.

Import ROI Axes.
Local Open Scope Q_scope.

Lemma visible_unclamped (size : Z) (c w : Q) :
  0 <= c -> 0 <= w -> c + w <= inject_Z display_width ->
  (0 <= size)%Z ->
  let s := scale size display_width in
  lower_bound c s = Py.int (c * s) /\
  upper_bound size c w s = Py.int ((c + w) * s).
Proof.
  intros Hc Hw Hd Hs s. unfold lower_bound, upper_bound.
  assert (H0 : 0 <= c * s) by (apply scaled_nonneg; assumption).
  assert (H1 : 0 <= (c + w) * s) by (apply scaled_nonneg; [lra|lia]).
  assert (H2 : (c + w) * s <= inject_Z size)
    by (apply scaled_le_size; [lra|lra|lia]).
  pose proof (int_nonneg _ H0). pose proof (int_le_Z _ _ H1 H2).
  split; lia.
Qed.

(** Scaling back a truncated index loses less than one voxel. *)
Lemma unscale_int (d : Z) (q : Q) :
  (1 <= d)%Z -> 0 <= q ->
  let n := Py.int (q * scale d display_width) in
  let t := inv_scale display_width d in
  inject_Z n * t <= q /\ q < inject_Z n * t + t.
Proof.
  intros Hd Hq n t.
  assert (HD : 0 < inject_Z d)
    by (change 0 with (inject_Z 0); rewrite <- Zlt_Qlt; lia).
  assert (Hs : 0 <= q * scale d display_width)
    by (apply scaled_nonneg; [assumption|lia]).
  pose proof (int_below _ Hs) as Lo. pose proof (int_above _ Hs) as Hi.
  fold n in Lo, Hi.
  assert (Ht : 0 < t).
  { unfold t, inv_scale, Qdiv. apply Qmult_lt_0_compat; [reflexivity|].
    now apply Qinv_lt_0_compat. }
  assert (E : q * scale d display_width * t == q).
  { unfold t, scale, inv_scale. field. split; [lra|discriminate]. }
  split.
  - rewrite <- E. apply Qmult_le_compat_r; [exact Lo|lra].
  - rewrite <- E at 1.
    setoid_replace (inject_Z n * t + t) with ((inject_Z n + 1) * t) by ring.
    apply Qmult_lt_compat_r; assumption.
Qed.

Lemma axis_roundtrip (d : Z) (c w : Q) :
  (1 <= d)%Z -> 0 <= c -> 0 <= w -> c + w <= inject_Z display_width ->
  let s := scale d display_width in
  let t := inv_scale display_width d in
  let lo := lower_bound c s in
  let hi := upper_bound d c w s in
  within_one t c (inject_Z lo * t) /\
  within_one t (c + w) (inject_Z lo * t + inject_Z (hi - lo) * t) /\
  (1 + t <= w -> 1 < inject_Z (hi - lo) * t).
Proof.
  intros Hd Hc Hw Hcw s t lo hi.
  assert (Hd0 : (0 <= d)%Z) by lia.
  destruct (visible_unclamped d c w Hc Hw Hcw Hd0) as [El Eh].
  fold s in El, Eh. fold lo in El. fold hi in Eh.
  assert (Hcw0 : 0 <= c + w) by lra.
  pose proof (unscale_int d c Hd Hc) as [L1 L2].
  pose proof (unscale_int d (c + w) Hd Hcw0) as [U1 U2].
  fold s t in L1, L2, U1, U2. rewrite <- El in L1, L2.
  rewrite <- Eh in U1, U2.
  assert (E : inject_Z (hi - lo) * t == inject_Z hi * t - inject_Z lo * t).
  { unfold Zminus. rewrite inject_Z_plus, inject_Z_opp. ring. }
  unfold within_one. rewrite E.
  set (A := inject_Z lo * t) in *. set (B := inject_Z hi * t) in *.
  repeat split; lra.
Qed.

Lemma project_axes_defined (a0 a1 b0 b1 da db : Z) :
  (1 <= da)%Z -> (1 <= db)%Z ->
  project_axes a0 a1 b0 b1 da db =
  Some (mkRect (inject_Z a0 * inv_scale display_width da)
               (inject_Z b0 * inv_scale display_height db)
               (inject_Z (a1 - a0) * inv_scale display_width da)
               (inject_Z (b1 - b0) * inv_scale display_height db)).
Proof.
  intros Ha Hb. unfold project_axes.
  replace (da =? 0)%Z with false by (symmetry; apply Z.eqb_neq; lia).
  replace (db =? 0)%Z with false by (symmetry; apply Z.eqb_neq; lia).
  reflexivity.
Qed.

Lemma wide_enough_intro (r : QRectF) :
  1 < width r -> 1 < height r -> wide_enough r = true.
Proof.
  intros Hw Hh. unfold wide_enough.
  destruct (Qle_bool (width r) 1) eqn:Ew.
  { apply Qle_bool_iff in Ew. lra. }
  destruct (Qle_bool (height r) 1) eqn:Eh.
  { apply Qle_bool_iff in Eh. lra. }
  reflexivity.
Qed.

(** C7 as worded fails: a 6 x 6 rectangle inside the display of a
    64-voxel-wide volume collapses to an empty index range, and its
    projection is not pushed to the view at all. *)
Lemma small_rectangle_is_not_recovered :
  inside_display (mkRect 50 50 6 6) /\
  exists roi,
    convert_roi_to_3d_preserving_dimensions
      (Some (mkSize 64 64 64)) None (mkIdx 32 32 32)
      (mkRect 50 50 6 6) axial = Some roi /\
    propagate_roi_to_single_view
      (Some (mkSize 64 64 64)) (Some roi) axial = None.
Proof.
  split; [unfold inside_display, Qle; simpl; lia|].
  eexists. split; reflexivity.
Qed.

Lemma within_one_recovered (u c c' : Q) :
  within_one u c c' -> recovered u c c'.
Proof.
  unfold within_one, recovered, display_rounding. intros [L U].
  assert (0 <= 1 / inject_Z (10 ^ 12)) by (unfold Qle; simpl; lia).
  split; lra.
Qed.

Lemma voxel_positive (d : Z) : (1 <= d)%Z -> 0 < inv_scale display_width d.
Proof.
  intros Hd. unfold inv_scale, Qdiv.
  apply Qmult_lt_0_compat; [reflexivity|]. apply Qinv_lt_0_compat.
  change 0 with (inject_Z 0). rewrite <- Zlt_Qlt. lia.
Qed.

(** C7, amended.  For a rectangle inside the display of a non-empty
    volume, the box produced from no prior ROI projects back, in the
    same orientation, to a rectangle each of whose four edges lies no
    more than one voxel (400 / dim display units) below the input
    edge and not above it, up to the rounding of the double
    arithmetic; that rectangle is pushed to the view only when it is
    more than one unit wide and high, which holds whenever the input
    is at least one unit plus two voxels wide and high. *)
Theorem roundtrip_within_one_voxel
    (size : image_size) (idx : slice_indices) (rect : QRectF)
    (o : orientation)
    (Hrect : inside_display rect)
    (Hh : (1 <= dim size (horizontal o))%Z)
    (Hv : (1 <= dim size (vertical o))%Z) :
  exists roi p,
    convert_roi_to_3d_preserving_dimensions
      (Some size) None idx rect o = Some roi /\
    project size roi o = Some p /\
    propagate_roi_to_single_view (Some size) (Some roi) o =
      (if wide_enough p then Some p else None) /\
    recovered (voxel size (horizontal o)) (x rect) (x p) /\
    recovered (voxel size (horizontal o))
              (x rect + width rect) (x p + width p) /\
    recovered (voxel size (vertical o)) (y rect) (y p) /\
    recovered (voxel size (vertical o))
              (y rect + height rect) (y p + height p) /\
    (1 + 2 * voxel size (horizontal o) <= width rect ->
     1 + 2 * voxel size (vertical o) <= height rect ->
     propagate_roi_to_single_view (Some size) (Some roi) o = Some p).
Proof.
  destruct Hrect as (Hx & Hw & Hxw & Hy & Hhh & Hyh).
  pose proof (fun d H => axis_roundtrip d _ _ H Hx Hw Hxw) as Ax.
  pose proof (fun d H => axis_roundtrip d _ _ H Hy Hhh Hyh) as Ay.
  pose proof (voxel_positive _ Hh) as Ph.
  pose proof (voxel_positive _ Hv) as Pv.
  destruct o; simpl in Hh, Hv, Ph, Pv; simpl; eexists; eexists;
    (split; [reflexivity|]); simpl;
    rewrite (project_axes_defined _ _ _ _ _ _ Hh Hv);
    (split; [reflexivity|]); (split; [reflexivity|]);
    destruct (Ax _ Hh) as (X1 & X2 & X3);
    destruct (Ay _ Hv) as (Y1 & Y2 & Y3);
    (split; [exact (within_one_recovered _ _ _ X1)|]);
    (split; [exact (within_one_recovered _ _ _ X2)|]);
    (split; [exact (within_one_recovered _ _ _ Y1)|]);
    (split; [exact (within_one_recovered _ _ _ Y2)|]);
    unfold voxel; cbn [dim horizontal vertical];
    intros Gw Gh; rewrite wide_enough_intro;
    try reflexivity; first [apply X3 | apply Y3]; lra.
Qed.

Lemma roundtrip_within_one_voxel_witness :
  exists roi p,
    convert_roi_to_3d_preserving_dimensions
      (Some (mkSize 512 512 300)) None (mkIdx 150 256 256)
      (mkRect 50 50 100 100) axial = Some roi /\
    propagate_roi_to_single_view
      (Some (mkSize 512 512 300)) (Some roi) axial = Some p /\
    recovered (400 / 512) 50 (x p) /\
    recovered (400 / 512) (50 + 100) (x p + width p).
Proof.
  destruct (roundtrip_within_one_voxel
              (mkSize 512 512 300) (mkIdx 150 256 256)
              (mkRect 50 50 100 100) axial)
    as (roi & p & E1 & _ & _ & W1 & W2 & _ & _ & G).
  - unfold inside_display, Qle; simpl; lia.
  - simpl; lia.
  - simpl; lia.
  - exists roi, p. split; [exact E1|]. split.
    + apply G; unfold voxel, inv_scale, Qle; simpl; lia.
    + split; [exact W1 | exact W2].
Defined.

End RoundTrip.

(** ** Arrays *)

Section ArrayFacts.

Lemma index_map_range {A} (f : Z -> A) (n i : Z) :
  Py.index (map f (Py.range n)) i =
  if (0 <=? i) && (i <? n) then Some (f i) else None.
Proof.
  unfold Py.index, Py.range.
  destruct (Z.ltb_spec i 0) as [Hneg | Hpos].
  - replace (0 <=? i) with false by (symmetry; apply Z.leb_gt; lia).
    reflexivity.
  - replace (0 <=? i) with true by (symmetry; apply Z.leb_le; lia).
    rewrite !nth_error_map, nth_error_seq. simpl.
    destruct (Nat.ltb_spec (Z.to_nat i) (Z.to_nat n)) as [Hlt | Hge].
    + replace (i <? n) with true by (symmetry; apply Z.ltb_lt; lia).
      simpl. now rewrite Z2Nat.id.
    + replace (i <? n) with false by (symmetry; apply Z.ltb_ge; lia).
      reflexivity.
Qed.

Lemma get_init {A} (f : Z -> Z -> Z -> A) (s0 s1 s2 z y x : Z) :
  NdArray.get (NdArray.init s0 s1 s2 f) z y x =
  if ((0 <=? z) && (z <? s0)) && ((0 <=? y) && (y <? s1)) &&
     ((0 <=? x) && (x <? s2))
  then Some (f z y x) else None.
Proof.
  unfold NdArray.get, NdArray.init.
  rewrite (index_map_range _ s0 z).
  destruct ((0 <=? z) && (z <? s0)); [|reflexivity].
  rewrite (index_map_range _ s1 y).
  destruct ((0 <=? y) && (y <? s1)); [|reflexivity].
  rewrite (index_map_range _ s2 x).
  destruct ((0 <=? x) && (x <? s2)); reflexivity.
Qed.

Lemma index_in_range {A} (l : list A) (i : Z) :
  0 <= i < Z.of_nat (length l) -> exists v, Py.index l i = Some v.
Proof.
  intros H. unfold Py.index.
  replace (i <? 0) with false by (symmetry; apply Z.ltb_ge; lia).
  destruct (nth_error l (Z.to_nat i)) eqn:E; [eauto|].
  apply nth_error_None in E. lia.
Qed.

Lemma index_In {A} (l : list A) (i : Z) (v : A) :
  Py.index l i = Some v -> In v l.
Proof.
  unfold Py.index. destruct (i <? 0); [discriminate|].
  apply nth_error_In.
Qed.

(** In a rectangular array every in-range index triple hits a cell. *)
Lemma get_in_range {A} (a : NdArray.t A) (s0 s1 s2 z y x : Z) :
  NdArray.rectangular a s0 s1 s2 ->
  0 <= z < s0 -> 0 <= y < s1 -> 0 <= x < s2 ->
  exists v, NdArray.get a z y x = Some v.
Proof.
  intros [H0 Hall] Hz Hy Hx. unfold NdArray.get.
  destruct (index_in_range a z) as [p Ep]; [lia|]. rewrite Ep.
  rewrite Forall_forall in Hall.
  destruct (Hall p (index_In _ _ _ Ep)) as [H1 Hrows].
  destruct (index_in_range p y) as [r Er]; [lia|]. rewrite Er.
  rewrite Forall_forall in Hrows.
  pose proof (Hrows r (index_In _ _ _ Er)) as H2.
  apply index_in_range. lia.
Qed.

Lemma rectangular_shape {A} (a : NdArray.t A) (s0 s1 s2 : Z) :
  NdArray.rectangular a s0 s1 s2 -> 1 <= s0 -> 1 <= s1 ->
  NdArray.shape0 a = s0 /\ NdArray.shape1 a = s1 /\ NdArray.shape2 a = s2.
Proof.
  intros [H0 Hall] P0 P1. unfold NdArray.shape0, NdArray.shape1,
    NdArray.shape2.
  destruct a as [|p a]; [simpl in H0; lia|].
  inversion Hall as [|? ? [H1 Hrows] _]; subst.
  destruct p as [|r p]; [simpl in P1; lia|].
  inversion Hrows; subst. auto.
Qed.

End ArrayFacts.

(** ** The ROI mask and the slice intersection tests *)

Section RoiMask.

Import ROI.

Example mask_of_small_box :
  get_roi_mask (Some (mkRoi 0 1 1 2 0 1 axial)) 2 2 2
  = Some [[[false; false]; [true; false]];
          [[false; false]; [false; false]]].
Proof. reflexivity. Qed.

Lemma in_slice_half_open (len lo hi i : Z) :
  0 <= i < len -> 0 <= hi ->
  in_slice len (Z.max 0 lo) (Z.min len hi) i = (lo <=? i) && (i <? hi).
Proof.
  intros Hi Hhi. unfold in_slice, Py.slice_bound.
  replace (Z.max 0 lo <? 0) with false by (symmetry; apply Z.ltb_ge; lia).
  replace (Z.min len hi <? 0) with false
    by (symmetry; apply Z.ltb_ge; lia).
  apply Bool.eq_iff_eq_true.
  rewrite !andb_true_iff, !Z.leb_le, !Z.ltb_lt. lia.
Qed.

(** The stop bound of a slice is never inside the slice. *)
Lemma in_slice_excludes_stop (len lo hi : Z) :
  0 <= hi < len -> in_slice len lo (Z.min len hi) hi = false.
Proof.
  intros H. unfold in_slice, Py.slice_bound.
  replace (Z.min len hi <? 0) with false
    by (symmetry; apply Z.ltb_ge; lia).
  apply andb_false_iff. right. apply Z.ltb_ge. lia.
Qed.

(** C10 as worded fails on a box that the conversion itself writes:
    the rectangle dragged past the right edge of the display gets
    [x_min = 640] and [x_max = 512] in a volume 512 wide, and the
    sagittal intersection test at the slice index equal to the max
    bound, 512, answers false. *)
Lemma inverted_box_misses_its_max_slice :
  exists r,
    convert_roi_to_3d_preserving_dimensions
      (Some (mkSize 512 512 300)) None (mkIdx 150 256 256)
      (mkRect 500 50 100 100) axial = Some r /\
    (x_min r, x_max r) = (640, 512) /\
    roi_intersects_sagittal_slice (Some r) (x_max r) = false.
Proof.
  eexists. split; [reflexivity|]. split; reflexivity.
Qed.

(** C10, amended.  For a 3D ROI with [min <= max] and [0 <= max] on
    each axis and an array of any shape, the mask is built, and at
    every voxel of the array it is true exactly when
    [min <= index < max] holds on all three axes; each slice
    intersection test answers true at the slice index equal to its
    max bound; and the mask holds no true voxel in the slice at the
    max bound of any axis. *)
Theorem mask_half_open_intersection_closed
    (r : roi3d) (s0 s1 s2 : Z)
    (Hx : x_min r <= x_max r /\ 0 <= x_max r)
    (Hy : y_min r <= y_max r /\ 0 <= y_max r)
    (Hz : z_min r <= z_max r /\ 0 <= z_max r) :
  exists mask,
    get_roi_mask (Some r) s0 s1 s2 = Some mask /\
    (forall z y x,
        0 <= z < s0 -> 0 <= y < s1 -> 0 <= x < s2 ->
        NdArray.get mask z y x =
        Some (((z_min r <=? z) && (z <? z_max r)) &&
              ((y_min r <=? y) && (y <? y_max r)) &&
              ((x_min r <=? x) && (x <? x_max r)))) /\
    roi_intersects_axial_slice (Some r) (z_max r) = true /\
    roi_intersects_coronal_slice (Some r) (y_max r) = true /\
    roi_intersects_sagittal_slice (Some r) (x_max r) = true /\
    (forall y x, NdArray.get mask (z_max r) y x <> Some true) /\
    (forall z x, NdArray.get mask z (y_max r) x <> Some true) /\
    (forall z y, NdArray.get mask z y (x_max r) <> Some true).
Proof.
  eexists. split; [reflexivity|]. split.
  { intros z y x Iz Iy Ix. rewrite get_init.
    replace ((0 <=? z) && (z <? s0)) with true
      by (symmetry; apply andb_true_iff; rewrite Z.leb_le, Z.ltb_lt; lia).
    replace ((0 <=? y) && (y <? s1)) with true
      by (symmetry; apply andb_true_iff; rewrite Z.leb_le, Z.ltb_lt; lia).
    replace ((0 <=? x) && (x <? s2)) with true
      by (symmetry; apply andb_true_iff; rewrite Z.leb_le, Z.ltb_lt; lia).
    simpl. rewrite !in_slice_half_open by lia. reflexivity. }
  unfold roi_intersects_axial_slice, roi_intersects_coronal_slice,
    roi_intersects_sagittal_slice.
  repeat split;
    try (apply andb_true_iff; rewrite !Z.leb_le; lia);
    intros i j; rewrite get_init;
    match goal with
    | |- (if ?c then _ else _) <> _ =>
        destruct c eqn:E; [|discriminate]
    end;
    rewrite !andb_true_iff, !Z.leb_le, !Z.ltb_lt in E;
    intros F; injection F as F;
    rewrite !andb_true_iff in F; destruct F as [[Fz Fy] Fx].
  - rewrite in_slice_excludes_stop in Fz by lia. discriminate.
  - rewrite in_slice_excludes_stop in Fy by lia. discriminate.
  - rewrite in_slice_excludes_stop in Fx by lia. discriminate.
Qed.

Lemma mask_half_open_intersection_closed_witness :
  exists mask,
    get_roi_mask (Some (mkRoi 0 1 1 2 0 1 axial)) 2 2 2 = Some mask /\
    NdArray.get mask 0 1 0 = Some true /\
    roi_intersects_axial_slice (Some (mkRoi 0 1 1 2 0 1 axial)) 1 = true /\
    (forall y x, NdArray.get mask 1 y x <> Some true).
Proof.
  destruct (mask_half_open_intersection_closed
              (mkRoi 0 1 1 2 0 1 axial) 2 2 2)
    as (mask & E & Hin & Ha & _ & _ & Hz & _ & _);
    [simpl; lia | simpl; lia | simpl; lia |].
  exists mask. split; [exact E|]. split.
  - rewrite (Hin 0 1 0) by lia. reflexivity.
  - split; [exact Ha | exact Hz].
Defined.

End RoiMask.

(** ** The synchronisation controller *)

Section SyncFacts.

Import ROI Sync.

Create Rewrite HintDb sync.

(** None of the view and scroll bar updates touches the guard flag. *)
Lemma flag_set_roi_from_external o rect s :
  roi_update_in_progress (set_roi_from_external o rect s) =
  roi_update_in_progress s.
Proof. destruct o; reflexivity. Qed.

Lemma flag_update_view o s :
  roi_update_in_progress (update_view o s) = roi_update_in_progress s.
Proof.
  unfold update_view.
  destruct (roi_intersects_slice _ _ _); [|reflexivity].
  destruct (propagate_roi_to_single_view _ _ _); [|reflexivity].
  apply flag_set_roi_from_external.
Qed.

Lemma flag_setValue o v s :
  roi_update_in_progress (setValue o v s) = roi_update_in_progress s.
Proof.
  unfold setValue. destruct (_ =? _); [reflexivity|].
  now rewrite flag_update_view.
Qed.

Lemma flag_navigate s :
  roi_update_in_progress (navigate_views_to_show_roi s) =
  roi_update_in_progress s.
Proof.
  unfold navigate_views_to_show_roi.
  destruct (roi_rect_3d s); [|reflexivity].
  repeat match goal with
         | |- context [if ?c then _ else _] => destruct c
         end; rewrite ?flag_setValue; reflexivity.
Qed.

Lemma flag_push_updates ups s :
  roi_update_in_progress (push_updates ups s) = roi_update_in_progress s.
Proof.
  unfold push_updates. revert s.
  induction ups as [|u ups IH]; intros s; simpl; [reflexivity|].
  rewrite IH. apply flag_set_roi_from_external.
Qed.

Lemma flag_propagate o s :
  roi_update_in_progress (propagate o s) = roi_update_in_progress s.
Proof. apply flag_push_updates. Qed.

Lemma flag_clear_other_views o s :
  roi_update_in_progress (clear_other_views o s) =
  roi_update_in_progress s.
Proof. destruct o; reflexivity. Qed.

Lemma flag_set_roi_rect_3d r s :
  roi_update_in_progress (set_roi_rect_3d r s) = roi_update_in_progress s.
Proof. reflexivity. Qed.

Hint Rewrite flag_set_roi_from_external flag_update_view flag_setValue
     flag_navigate flag_propagate flag_clear_other_views
     flag_set_roi_rect_3d : sync.

Ltac run_handler :=
  unfold on_roi_changed, on_roi_changed_immediate, convert, try_except,
    bind, gets, modify, checkpoint, ret; cbn beta iota.

(** An event that finds the flag set changes nothing. *)
Lemma handle_dropped e s :
  roi_update_in_progress s = true -> handle e s = s.
Proof.
  intros H. destruct e; simpl; run_handler; rewrite H; reflexivity.
Qed.

Lemma run_dropped es s :
  roi_update_in_progress s = true -> run es s = s.
Proof.
  intros H. unfold run. induction es as [|e es IH]; simpl; [reflexivity|].
  now rewrite handle_dropped.
Qed.

(** A handler that starts with the flag clear ends with it clear. *)
Lemma handle_resets e s :
  roi_update_in_progress s = false ->
  roi_update_in_progress (handle e s) = false.
Proof.
  intros H. destruct e; simpl; run_handler; rewrite H;
    repeat (match goal with
            | |- context [if ?c then _ else _] => destruct c
            | |- context [match ?c with Some _ => _ | None => _ end] =>
                destruct c
            end; cbn beta iota); reflexivity.
Qed.

(** Signals delivered while a handler runs find the flag set, so
    they leave no trace in what the handler does. *)
Lemma reentry_has_no_effect (reenter : state -> state) :
  (forall s', roi_update_in_progress s' = true -> reenter s' = s') ->
  forall fault source s,
    (forall rect,
        on_roi_changed reenter fault rect source s =
        on_roi_changed (fun s' => s') fault rect source s) /\
    (forall rect,
        on_roi_changed_immediate reenter fault rect source s =
        on_roi_changed_immediate (fun s' => s') fault rect source s).
Proof.
  intros Hre fault source s.
  split; intros rect; run_handler;
    (destruct (roi_update_in_progress s); [reflexivity|]);
    repeat (match goal with
            | |- context [if ?c then _ else _] => destruct c
            | |- context [match ?c with Some _ => _ | None => _ end] =>
                destruct c
            end; cbn beta iota);
    repeat match goal with
           | |- context [reenter ?t] =>
               rewrite (Hre t) by (autorewrite with sync; reflexivity)
           end;
    reflexivity.
Qed.

(** C9.  Whatever the sequence of ROI edit events, their arguments,
    the places where handling raises and the events delivered while
    a handler runs: started in Idle, the controller is in Idle after
    every event of the sequence; an event that arrives in the
    Propagating state leaves the whole state (3D ROI, scroll bars,
    view overlays) as it was; and the events delivered during a
    handler are all dropped, the handler ending in the state it
    reaches without them. *)
Theorem reentrant_events_dropped_and_idle_restored
    (es : list event) (s : state)
    (Hidle : controller_of s = Idle) :
  Forall (fun s' => controller_of s' = Idle) (states_after es s) /\
  controller_of (run es s) = Idle /\
  (forall e s', controller_of s' = Propagating -> handle e s' = s') /\
  (forall rect source fault reentrant s',
      handle (RoiChanged rect source fault reentrant) s' =
      handle (RoiChanged rect source fault []) s') /\
  (forall rect source fault reentrant s',
      handle (RoiChangedImmediate rect source fault reentrant) s' =
      handle (RoiChangedImmediate rect source fault []) s').
Proof.
  assert (Idle_flag : forall t, controller_of t = Idle <->
                                roi_update_in_progress t = false).
  { intros t. unfold controller_of.
    destruct (roi_update_in_progress t); split; congruence. }
  assert (Step : forall e t, controller_of t = Idle ->
                             controller_of (handle e t) = Idle).
  { intros e t Ht. apply Idle_flag, handle_resets, Idle_flag, Ht. }
  split; [|split; [|split; [|split]]].
  - revert s Hidle. induction es as [|e es IH]; intros s Hs; simpl.
    + constructor.
    + constructor; [now apply Step|]. apply IH. now apply Step.
  - revert s Hidle. unfold run.
    induction es as [|e es IH]; intros s Hs; simpl; [exact Hs|].
    apply IH. now apply Step.
  - intros e s' Hp. apply handle_dropped. unfold controller_of in Hp.
    destruct (roi_update_in_progress s'); [reflexivity|discriminate].
  - intros rect source fault reentrant s'. simpl.
    destruct (reentry_has_no_effect
                (fun t => fold_left (fun acc e' => handle e' acc)
                                    reentrant t)
                (run_dropped reentrant) fault source s') as [E _].
    apply E.
  - intros rect source fault reentrant s'. simpl.
    destruct (reentry_has_no_effect
                (fun t => fold_left (fun acc e' => handle e' acc)
                                    reentrant t)
                (run_dropped reentrant) fault source s') as [_ E].
    apply E.
Qed.

Lemma reentrant_events_dropped_and_idle_restored_witness :
  let s0 := mkState (Some (mkSize 512 512 300)) None false
                    (mkIdx 150 256 256) None None None in
  let nested := RoiChanged (Some (mkRect 0 0 10 10)) coronal
                           (fun _ => false) [] in
  let failing := fun p => match p with AtPropagate => true | _ => false end in
  let es := [RoiChanged (Some (mkRect 50 50 100 100)) axial
                        (fun _ => false) [nested];
             RoiChangedImmediate (mkRect 60 60 100 100) axial
                                 failing [nested]] in
  controller_of s0 = Idle /\
  Forall (fun s' => controller_of s' = Idle) (states_after es s0) /\
  controller_of (run es s0) = Idle.
Proof.
  intros s0 nested failing es.
  destruct (reentrant_events_dropped_and_idle_restored es s0 eq_refl)
    as (H1 & H2 & _).
  split; [reflexivity|]. split; [exact H1 | exact H2].
Defined.

End SyncFacts.

(** ** Trilinear resampling *)

Section ResamplerFacts.

Import Resampler.
Local Open Scope Q_scope.

Example sample_midpoint :
  exists d,
    sample [[[0; 10]; [20; 30]]; [[40; 50]; [60; 70]]]
           (1 # 2, 1 # 2, 1 # 2) = Some d /\ d == 35.
Proof. eexists. split; reflexivity. Qed.

Example sample_outside :
  sample [[[0; 10]; [20; 30]]; [[40; 50]; [60; 70]]] (5, -3, 1 # 2)
  = sample [[[0; 10]; [20; 30]]; [[40; 50]; [60; 70]]] (1, 0, 1 # 2).
Proof. reflexivity. Qed.

Lemma clip_between (v lo hi : Q) :
  lo <= hi -> lo <= Py.clip v lo hi /\ Py.clip v lo hi <= hi.
Proof.
  intros H. unfold Py.clip. split.
  - apply Q.min_glb; [apply Q.le_max_r | assumption].
  - apply Q.le_min_r.
Qed.

(** A value already in range is returned as it is, not merely up to
    equality of fractions. *)
Lemma clip_fixes (v lo hi : Q) :
  lo <= v -> v <= hi -> Py.clip v lo hi = v.
Proof.
  intros Hlo Hhi. unfold Py.clip, Qmax, Qmin, GenericMinMax.gmax,
    GenericMinMax.gmin.
  destruct (v ?= lo) eqn:E1.
  - destruct (v ?= hi) eqn:E2; try reflexivity.
    apply Qgt_alt in E2. lra.
  - apply Qlt_alt in E1. lra.
  - destruct (v ?= hi) eqn:E2; try reflexivity.
    apply Qgt_alt in E2. lra.
Qed.

Lemma clip_idempotent (v lo hi : Q) :
  lo <= hi -> Py.clip (Py.clip v lo hi) lo hi = Py.clip v lo hi.
Proof.
  intros H. destruct (clip_between v lo hi H). now apply clip_fixes.
Qed.

Lemma top_index_nonneg (dim : Z) : (1 <= dim)%Z -> 0 <= inject_Z (dim - 1).
Proof.
  intros H. change 0 with (inject_Z 0). rewrite <- Zle_Qle. lia.
Qed.

Lemma bound_index_inside (i dim : Z) :
  (1 <= dim)%Z -> (0 <= bound_index i dim < dim)%Z.
Proof. unfold bound_index. lia. Qed.

Lemma clip_coord_lattice (k dim : Z) :
  (0 <= k < dim)%Z -> clip_coord (inject_Z k) dim = inject_Z k.
Proof.
  intros H. unfold clip_coord. apply clip_fixes.
  - change 0 with (inject_Z 0). rewrite <- Zle_Qle. lia.
  - rewrite <- Zle_Qle. lia.
Qed.

Lemma weight_coincide (c : Q) (k : Z) : weight c k k = 0.
Proof. unfold weight. now rewrite Z.eqb_refl. Qed.

Lemma sample_defined (data : NdArray.t Q) (s0 s1 s2 : Z) (v : vertex) :
  NdArray.rectangular data s0 s1 s2 ->
  (1 <= s0)%Z -> (1 <= s1)%Z -> (1 <= s2)%Z ->
  exists d, sample data v = Some d.
Proof.
  intros R P0 P1 P2. destruct v as [[z y] x]. unfold sample.
  destruct (rectangular_shape data s0 s1 s2 R P0 P1) as (-> & -> & ->).
  repeat match goal with
         | |- context [NdArray.get data ?a ?b ?c] =>
             let E := fresh "E" in
             destruct (get_in_range data s0 s1 s2 a b c R) as [? E];
             [apply bound_index_inside; assumption ..|];
             rewrite E; clear E
         end.
  eauto.
Qed.

Lemma bound_index_fixes (k dim : Z) :
  (0 <= k < dim)%Z -> bound_index k dim = k.
Proof. unfold bound_index. lia. Qed.

(** The integer bounds of a clamped coordinate: both inside the axis,
    at most one apart. *)
Lemma clamped_bounds (c : Q) (dim : Z) :
  (1 <= dim)%Z ->
  let c' := clip_coord c dim in
  (0 <= Py.floor c' /\ Py.floor c' <= Py.ceil c' /\ Py.ceil c' < dim /\
   Py.ceil c' <= Py.floor c' + 1)%Z.
Proof.
  intros Hd c'. pose proof (top_index_nonneg dim Hd) as T.
  destruct (clip_between c 0 (inject_Z (dim - 1)) T) as [L U].
  fold (clip_coord c dim) in L, U. fold c' in L, U.
  unfold Py.floor, Py.ceil.
  pose proof (Qfloor_resp_le _ _ L) as A. change (Qfloor 0) with 0%Z in A.
  pose proof (Qceiling_resp_le _ _ U) as B. rewrite Qceiling_Z in B.
  pose proof (Qfloor_le c') as Fl. pose proof (Qle_ceiling c') as Ce.
  assert (FC : inject_Z (Qfloor c') <= inject_Z (Qceiling c')) by lra.
  rewrite <- Zle_Qle in FC.
  pose proof (Qlt_floor c') as Lt.
  assert (Le : c' <= inject_Z (Qfloor c' + 1)) by lra.
  apply Qceiling_resp_le in Le. rewrite Qceiling_Z in Le.
  lia.
Qed.

(** The weight of a clamped coordinate between its integer bounds is
    its fractional part. *)
Lemma clamped_weight_fraction (c : Q) (dim : Z) :
  (1 <= dim)%Z ->
  let c' := clip_coord c dim in
  let lo := Py.floor c' in
  let hi := Py.ceil c' in
  (lo = hi -> weight c' lo hi = 0) /\
  (lo <> hi -> weight c' lo hi == c' - inject_Z lo) /\
  0 <= weight c' lo hi /\ weight c' lo hi < 1.
Proof.
  intros Hd c' lo hi.
  destruct (clamped_bounds c dim Hd) as (B0 & B1 & B2 & B3).
  fold c' in B0, B1, B2, B3. fold lo in B0, B1, B3. fold hi in B1, B2, B3.
  pose proof (Qfloor_le c') as Fl. pose proof (Qlt_floor c') as Lt.
  fold (Py.floor c') in Fl, Lt. fold lo in Fl, Lt.
  rewrite inject_Z_plus in Lt. change (inject_Z 1) with 1 in Lt.
  assert (Frac : lo <> hi -> weight c' lo hi == c' - inject_Z lo).
  { intros N. unfold weight.
    replace (hi =? lo)%Z with false by (symmetry; apply Z.eqb_neq; lia).
    replace hi with (lo + 1)%Z by lia.
    rewrite inject_Z_plus. change (inject_Z 1) with 1. field. lra. }
  split; [intros <-; apply weight_coincide|]. split; [exact Frac|].
  destruct (Z.eq_dec lo hi) as [E | N].
  - rewrite <- E, weight_coincide. split; [lra | reflexivity].
  - rewrite (Frac N). split; lra.
Qed.

(** C5.  For a non-empty field, at every fractional coordinate each
    clamped coordinate lies in [[0, dim - 1]] and [sample] returns a
    value, the same value that it returns at the clamped coordinate;
    that value is the trilinear blend, along x, then y, then z, of the
    eight voxels at the integer bounds of the clamped coordinates, with
    on each axis the interpolation weight of the clamped coordinate
    between its two bounds; the interpolation weight is 0 when the two
    integer bounds coincide, so that the blend on that axis is the
    value at the low bound alone, and divides by their non-zero
    difference otherwise; between the bounds of a clamped coordinate,
    which are inside the axis and at most one apart, the weight is the
    fractional part of the coordinate; and at every integer lattice
    coordinate of the field, interior or boundary, [sample] returns
    the stored voxel value. *)
Theorem sample_clamps_and_is_exact_on_lattice
    (data : NdArray.t Q) (s0 s1 s2 : Z)
    (R : NdArray.rectangular data s0 s1 s2)
    (P0 : (1 <= s0)%Z) (P1 : (1 <= s1)%Z) (P2 : (1 <= s2)%Z) :
  (forall z y x,
      (0 <= clip_coord z s0 /\ clip_coord z s0 <= inject_Z (s0 - 1)) /\
      (0 <= clip_coord y s1 /\ clip_coord y s1 <= inject_Z (s1 - 1)) /\
      (0 <= clip_coord x s2 /\ clip_coord x s2 <= inject_Z (s2 - 1)) /\
      exists d,
        sample data (z, y, x) = Some d /\
        sample data (clip_coord z s0, clip_coord y s1, clip_coord x s2)
        = Some d) /\
  (forall z y x,
      let z' := clip_coord z s0 in
      let y' := clip_coord y s1 in
      let x' := clip_coord x s2 in
      let wz := weight z' (Py.floor z') (Py.ceil z') in
      let wy := weight y' (Py.floor y') (Py.ceil y') in
      let wx := weight x' (Py.floor x') (Py.ceil x') in
      exists c000 c001 c010 c011 c100 c101 c110 c111,
        NdArray.get data (Py.floor z') (Py.floor y') (Py.floor x')
          = Some c000 /\
        NdArray.get data (Py.floor z') (Py.floor y') (Py.ceil x')
          = Some c001 /\
        NdArray.get data (Py.floor z') (Py.ceil y') (Py.floor x')
          = Some c010 /\
        NdArray.get data (Py.floor z') (Py.ceil y') (Py.ceil x')
          = Some c011 /\
        NdArray.get data (Py.ceil z') (Py.floor y') (Py.floor x')
          = Some c100 /\
        NdArray.get data (Py.ceil z') (Py.floor y') (Py.ceil x')
          = Some c101 /\
        NdArray.get data (Py.ceil z') (Py.ceil y') (Py.floor x')
          = Some c110 /\
        NdArray.get data (Py.ceil z') (Py.ceil y') (Py.ceil x')
          = Some c111 /\
        sample data (z, y, x) =
          Some (lerp (lerp (lerp c000 c001 wx) (lerp c010 c011 wx) wy)
                     (lerp (lerp c100 c101 wx) (lerp c110 c111 wx) wy)
                     wz)) /\
  (forall c lo hi,
      (lo = hi ->
       weight c lo hi = 0 /\
       forall a b, lerp a b (weight c lo hi) == a) /\
      (lo <> hi ->
       weight c lo hi = (c - inject_Z lo) / (inject_Z hi - inject_Z lo) /\
       ~ inject_Z hi - inject_Z lo == 0)) /\
  (forall c dim,
      (1 <= dim)%Z ->
      let c' := clip_coord c dim in
      let lo := Py.floor c' in
      let hi := Py.ceil c' in
      (0 <= lo /\ lo <= hi /\ hi < dim /\ hi <= lo + 1)%Z /\
      (lo = hi -> weight c' lo hi = 0) /\
      (lo <> hi -> weight c' lo hi == c' - inject_Z lo) /\
      0 <= weight c' lo hi /\ weight c' lo hi < 1) /\
  (forall k j i,
      (0 <= k < s0)%Z -> (0 <= j < s1)%Z -> (0 <= i < s2)%Z ->
      exists c d,
        NdArray.get data k j i = Some c /\
        sample data (inject_Z k, inject_Z j, inject_Z i) = Some d /\
        d == c).
Proof.
  pose proof (top_index_nonneg s0 P0) as T0.
  pose proof (top_index_nonneg s1 P1) as T1.
  pose proof (top_index_nonneg s2 P2) as T2.
  split; [|split; [|split; [|split]]].
  - intros z y x.
    split; [apply clip_between; assumption|].
    split; [apply clip_between; assumption|].
    split; [apply clip_between; assumption|].
    destruct (sample_defined data s0 s1 s2 (z, y, x) R P0 P1 P2) as [d E].
    exists d. split; [exact E|]. rewrite <- E. unfold sample.
    destruct (rectangular_shape data s0 s1 s2 R P0 P1) as (-> & -> & ->).
    unfold clip_coord. rewrite !clip_idempotent by assumption.
    reflexivity.
  - intros z y x z' y' x' wz wy wx.
    destruct (clamped_bounds z s0 P0) as (Z0 & Z1 & Z2 & _).
    destruct (clamped_bounds y s1 P1) as (Y0 & Y1 & Y2 & _).
    destruct (clamped_bounds x s2 P2) as (X0 & X1 & X2 & _).
    fold z' in Z0, Z1, Z2. fold y' in Y0, Y1, Y2. fold x' in X0, X1, X2.
    unfold sample.
    destruct (rectangular_shape data s0 s1 s2 R P0 P1) as (-> & -> & ->).
    fold z' y' x'.
    rewrite !bound_index_fixes by lia.
    fold wz wy wx.
    repeat match goal with
           | |- context [match NdArray.get data ?a ?b ?c with _ => _ end] =>
               let E := fresh "E" in
               destruct (get_in_range data s0 s1 s2 a b c R) as [? E];
               [lia | lia | lia |]; rewrite E
           end.
    do 8 eexists. repeat (split; [reflexivity|]). reflexivity.
  - intros c lo hi. split.
    + intros ->. rewrite weight_coincide. split; [reflexivity|].
      intros a b. unfold lerp. ring.
    + intros Hne. unfold weight.
      replace (hi =? lo)%Z with false
        by (symmetry; apply Z.eqb_neq; congruence).
      split; [reflexivity|]. intros E. apply Hne.
      assert (E' : inject_Z hi == inject_Z lo) by lra.
      rewrite inject_Z_injective in E'. lia.
  - intros c dim Hd c' lo hi. split.
    + apply clamped_bounds. exact Hd.
    + apply clamped_weight_fraction. exact Hd.
  - intros k j i Hk Hj Hi.
    destruct (get_in_range data s0 s1 s2 k j i R Hk Hj Hi) as [c Ec].
    exists c. unfold sample.
    destruct (rectangular_shape data s0 s1 s2 R P0 P1) as (-> & -> & ->).
    rewrite !clip_coord_lattice by assumption.
    unfold Py.floor, Py.ceil. rewrite !Qfloor_Z, !Qceiling_Z.
    rewrite !bound_index_fixes by assumption.
    rewrite !weight_coincide, Ec.
    eexists. split; [reflexivity|]. split; [reflexivity|].
    unfold lerp. ring.
Qed.

Lemma sample_clamps_and_is_exact_on_lattice_witness :
  let data := [[[0; 10]; [20; 30]]; [[40; 50]; [60; 70]]] in
  (exists d, sample data (5, -3, 1 # 2) = Some d /\
             sample data (1, 0, 1 # 2) = Some d) /\
  (exists d, sample data (1, 0, 1 # 4) = Some d /\ d == 85 # 2) /\
  (exists d, sample data (1, 0, 1) = Some d /\ d == 50).
Proof.
  intros data.
  assert (R : NdArray.rectangular data 2 2 2).
  { split; [reflexivity|]. repeat constructor. }
  destruct (sample_clamps_and_is_exact_on_lattice data 2 2 2 R)
    as (Hclamp & Hblend & _ & _ & Hlat); [lia | lia | lia |].
  split; [|split].
  - destruct (Hclamp 5 (-3) (1 # 2)) as (_ & _ & _ & d & E1 & E2).
    exists d. split; [exact E1 | exact E2].
  - destruct (Hblend 1 0 (1 # 4))
      as (c000 & c001 & c010 & c011 & c100 & c101 & c110 & c111 &
          E000 & E001 & E010 & E011 & E100 & E101 & E110 & E111 & E).
    eexists. split; [exact E|].
    injection E000 as <-. injection E001 as <-.
    injection E010 as <-. injection E011 as <-.
    injection E100 as <-. injection E101 as <-.
    injection E110 as <-. injection E111 as <-.
    reflexivity.
  - destruct (Hlat 1%Z 0%Z 1%Z) as (c & d & Ec & Ed & Eq);
      [lia | lia | lia |].
    exists d. split; [exact Ed|]. rewrite Eq.
    injection Ec as <-. reflexivity.
Defined.

End ResamplerFacts.

(** ** Array statistics *)

Section NpFacts.

Local Open Scope Q_scope.

Lemma Qmin_choice (a b : Q) : Qmin a b = a \/ Qmin a b = b.
Proof.
  unfold Qmin, GenericMinMax.gmin. destruct (a ?= b); auto.
Qed.

Lemma fold_min_spec (t : list Q) (v : Q) :
  let m := fold_left Qmin t v in
  In m (v :: t) /\ Forall (fun x => m <= x) (v :: t).
Proof.
  revert v. induction t as [|a t IH]; intros v; simpl.
  - split; [auto|]. constructor; [lra|constructor].
  - destruct (IH (Qmin v a)) as [Hin Hall]. simpl in Hin, Hall.
    inversion Hall as [|? ? Hhd Htl]; subst. split.
    + destruct Hin as [Hin | Hin]; [|now right; right].
      rewrite <- Hin.
      destruct (Qmin_choice v a) as [E | E]; rewrite E;
        [now left | now right; left].
    + pose proof (Q.le_min_l v a). pose proof (Q.le_min_r v a).
      constructor; [lra|]. constructor; [lra|]. exact Htl.
Qed.

Lemma fold_max_above (t : list Q) (v : Q) : v <= fold_left Qmax t v.
Proof.
  revert v. induction t as [|a t IH]; intros v; simpl; [lra|].
  pose proof (IH (Qmax v a)). pose proof (Q.le_max_l v a). lra.
Qed.

(** The minimum is an entry of the array and a lower bound of it. *)
Lemma min_spec (l : list Q) (m : Q) :
  Np.min l = Some m -> In m l /\ Forall (fun x => m <= x) l.
Proof.
  destruct l as [|v t]; simpl; [discriminate|].
  intros E. injection E as <-. apply fold_min_spec.
Qed.

Lemma min_defined (l : list Q) : l <> [] -> exists m, Np.min l = Some m.
Proof. destruct l; [congruence|]. simpl. eauto. Qed.

(** A lower bound that occurs in the array is its minimum. *)
Lemma min_unique (l : list Q) (m m' : Q) :
  Np.min l = Some m -> In m' l -> Forall (fun x => m' <= x) l -> m == m'.
Proof.
  intros E Hin Hall. destruct (min_spec l m E) as [Hin' Hall'].
  rewrite Forall_forall in Hall, Hall'.
  pose proof (Hall m Hin'). pose proof (Hall' m' Hin). lra.
Qed.

Lemma min_le_max (l : list Q) (lo hi : Q) :
  Np.min l = Some lo -> Np.max l = Some hi -> lo <= hi.
Proof.
  destruct l as [|v t]; simpl; [discriminate|].
  intros E1 E2. injection E1 as <-. injection E2 as <-.
  destruct (fold_min_spec t v) as [_ Hall].
  inversion Hall; subst. pose proof (fold_max_above t v). lra.
Qed.

End NpFacts.

(** ** The iso-level of the density-coloured surface *)

Section IsoLevel.

Import Resampler Enhanced.
Local Open Scope Q_scope.

Variable np_std : list Q -> Q.
Variable marching_cubes : NdArray.t Q -> Q -> option (list vertex).

Lemma default_level_in_middle_band (lo hi mean std : Q) :
  lo <= hi -> middle_band lo hi (choose_iso_level lo hi mean std None).
Proof.
  intros H. unfold middle_band, choose_iso_level.
  set (x := if Np.ltb 1000 hi then 200 else mean + (1 # 2) * std).
  set (a := lo + (hi - lo) * (1 # 10)).
  set (b := hi - (hi - lo) * (1 # 10)).
  assert (Hab : a <= b) by (unfold a, b; lra).
  split.
  - apply Q.le_max_l.
  - apply Q.max_lub; [exact Hab | apply Q.le_min_r].
Qed.

Lemma band_rounding_nonneg (lo hi : Q) : 0 <= band_rounding lo hi.
Proof.
  unfold band_rounding, Qdiv.
  apply Qmult_le_0_compat.
  - pose proof (Qabs_nonneg lo). pose proof (Qabs_nonneg hi). lra.
  - apply Qlt_le_weak, Qinv_lt_0_compat. reflexivity.
Qed.

Lemma middle_band_in_range (lo hi level : Q) :
  lo <= hi -> middle_band lo hi level -> in_middle_band lo hi level.
Proof.
  unfold middle_band, in_middle_band. intros H [L U].
  pose proof (band_rounding_nonneg lo hi).
  repeat split; lra.
Qed.

(** C6, amended.  Whenever a surface is built, the level handed to
    marching cubes is the supplied iso-level itself when one is
    given, with no clamp applied; when none is given it lies inside
    the value range of the field and, up to the rounding of the
    double arithmetic, in the middle 80% of that range. *)
Theorem explicit_iso_level_is_used_as_given
    (data : NdArray.t Q) (iso_level : option Q)
    (level : Q) (vertices : list vertex) (densities : list Q)
    (Hbuilt : create_density_colored_surface np_std marching_cubes
                data iso_level = Built level vertices densities) :
  marching_cubes data level = Some vertices /\
  match iso_level with
  | Some supplied =>
      level = supplied /\
      update_iso_level np_std marching_cubes data supplied =
      Built supplied vertices densities
  | None =>
      exists lo hi,
        Np.min (NdArray.ravel data) = Some lo /\
        Np.max (NdArray.ravel data) = Some hi /\
        in_middle_band lo hi level
  end.
Proof.
  unfold update_iso_level.
  unfold create_density_colored_surface in *.
  destruct (Np.min (NdArray.ravel data)) as [lo|] eqn:Emin;
    [|discriminate].
  destruct (Np.max (NdArray.ravel data)) as [hi|] eqn:Emax;
    [|discriminate].
  destruct (marching_cubes data _) as [vs|] eqn:Emc; [|discriminate].
  injection Hbuilt as <- <- <-. split; [exact Emc|].
  destruct iso_level as [supplied|].
  - simpl. simpl in Emc. rewrite Emc. split; reflexivity.
  - exists lo, hi. split; [reflexivity|]. split; [reflexivity|].
    pose proof (min_le_max _ _ _ Emin Emax) as Hle.
    apply middle_band_in_range; [exact Hle|].
    apply default_level_in_middle_band. exact Hle.
Qed.

End IsoLevel.

Section IsoLevelRuns.

Import Resampler Enhanced.
Local Open Scope Q_scope.

(** C6 as worded fails: on a field ranging over [0, 100], whose
    middle 80% is [10, 90], the supplied level 5 is the level used. *)
Lemma supplied_iso_level_escapes_middle_band :
  choose_iso_level 0 100 50 50 (Some 5) = 5 /\
  update_iso_level (fun _ => 50) (fun _ _ => Some [])
                   [[[0; 100]]] 5 = Built 5 [] [] /\
  ~ middle_band 0 100 5.
Proof.
  split; [reflexivity|]. split; [reflexivity|].
  unfold middle_band. intros [H _]. revert H. unfold Qle. simpl. lia.
Qed.

Lemma explicit_iso_level_is_used_as_given_witness :
  let std := fun _ : list Q => 50 in
  let cubes := fun (_ : NdArray.t Q) (_ : Q) => Some [(0, 0, 1 # 2)] in
  let data := [[[0; 100]]] in
  (exists ds, update_iso_level std cubes data 5
              = Built 5 [(0, 0, 1 # 2)] ds) /\
  (exists level vs ds,
      create_density_colored_surface std cubes data None
      = Built level vs ds /\
      in_middle_band 0 100 level).
Proof.
  intros std cubes data.
  pose (ds := interpolate_density_at_vertices data [(0, 0, 1 # 2)]).
  split.
  - exists ds.
    apply (explicit_iso_level_is_used_as_given
             std cubes data (Some 5) 5 [(0, 0, 1 # 2)] ds eq_refl).
  - eexists. eexists. eexists. split; [reflexivity|].
    destruct (explicit_iso_level_is_used_as_given
                std cubes data None _ _ _ eq_refl)
      as (_ & lo & hi & Elo & Ehi & Hband).
    injection Elo as <-. injection Ehi as <-. exact Hband.
Defined.

End IsoLevelRuns.

(** ** Surface build: the degenerate-range guard and the bone filter *)

Section SurfaceBuild.

Import Resampler Mayavi.
Local Open Scope Q_scope.

Variable map_coordinates : NdArray.t Q -> list vertex -> option (list Q).
Variable np_percentile : list Q -> Q -> option Q.
Variable np_median : list Q -> Q.
Variable marching_cubes : NdArray.t Q -> Q -> option (list vertex).

Local Abbreviation update :=
  (update_scene map_coordinates np_percentile np_median marching_cubes).
Local Abbreviation build :=
  (build_3d_view map_coordinates np_percentile np_median marching_cubes).

(** C1.  For a field whose maximum is at most its minimum,
    [update_scene] clears the figure and stops in the no-variation
    state: its trace holds no marching-cubes call.  [build_3d_view]
    on unprocessed data raises the no-variation [ValueError] before
    the widget is touched, and the handling of that error ends in
    [UnboundLocalError], which leaves [build_3d_view]: the caller
    does not fall back.  On processed data the build ends the same
    way with the all-removed error, or reaches [update_scene], which
    stops as above. *)
Theorem flat_field_is_not_extracted_and_breaks_the_build
    (original data : NdArray.t Q) (lo hi : Q)
    (Hmin : Np.min (NdArray.ravel data) = Some lo)
    (Hmax : Np.max (NdArray.ravel data) = Some hi)
    (Hdeg : hi <= lo) :
  update (Some original) data = ([ClearFigure], NoVariation) /\
  update None data = ([ClearFigure], NoVariation) /\
  (forall level,
      ~ In (MarchingCubes level) (fst (update (Some original) data))) /\
  build false original data =
    UnboundLocalError
      "No variation in raw data - cannot create 3D visualization" /\
  (build true original data =
     UnboundLocalError
       "All data was removed by processing - try adjusting threshold/windowing values"
   \/ build true original data = Rendered [ClearFigure] NoVariation).
Proof.
  assert (Hb : Qle_bool hi lo = true) by (apply Qle_bool_iff; exact Hdeg).
  assert (U : forall o, update o data = ([ClearFigure], NoVariation)).
  { intros o. unfold update_scene. now rewrite Hmin, Hmax, Hb. }
  split; [apply U|]. split; [apply U|]. split.
  { intros level. rewrite U. simpl. intros [F | []]. discriminate. }
  split.
  - unfold build_3d_view, build_3d_validity.
    now rewrite Hmin, Hmax, Hb.
  - unfold build_3d_view, build_3d_validity.
    destruct (Np.count_nonzero (NdArray.ravel data) =? 0)%Z;
      [left; reflexivity|right].
    now rewrite U.
Qed.

Lemma ltb_lt (a b : Q) : Np.ltb a b = true <-> a < b.
Proof.
  unfold Np.ltb. rewrite negb_true_iff. split.
  - intros H. apply Qnot_le_lt. intros L. apply Qle_bool_iff in L.
    congruence.
  - intros H. destruct (Qle_bool b a) eqn:E; [|reflexivity].
    apply Qle_bool_iff in E. lra.
Qed.

Lemma count_positive_nonempty (p : Q -> bool) (raw : list Q) :
  inject_Z (Np.size raw) * (3 # 10) < inject_Z (Np.count p raw) ->
  filter p raw <> [].
Proof.
  intros H E. unfold Np.count in H. rewrite E in H. simpl in H.
  assert (0 <= inject_Z (Np.size raw)).
  { change 0 with (inject_Z 0). rewrite <- Zle_Qle. unfold Np.size. lia. }
  change (inject_Z (Np.size (@nil Q))) with 0 in H. lra.
Qed.

(** C4.  When an original field is present, [iso_level > 100] and
    more than 30% of the sampled values exceed 150, the filter
    returns the samples with every value not exceeding 150 replaced
    by the minimum of the values exceeding 150, so the minimum of the
    returned field is the minimum of the qualifying samples; and the
    density mapper returns that field whatever the vertices and the
    original field the samples came from. *)
Theorem bone_filter_floors_at_min_bone
    (iso_level : Q) (raw : list Q)
    (Hiso : 100 < iso_level)
    (Hfrac : inject_Z (Np.size raw) * (3 # 10) <
             inject_Z (Np.count bone_mask raw)) :
  exists min_bone filtered,
    Np.min (filter bone_mask raw) = Some min_bone /\
    150 < min_bone /\
    filtered = map (fun v => if bone_mask v then v else min_bone) raw /\
    band_filter np_percentile true iso_level raw = Some (Some filtered) /\
    (exists m, Np.min filtered = Some m /\ m == min_bone) /\
    (forall original data vertices,
        map_coordinates original
          (map (fun v : vertex =>
                  let '(v0, v1, v2) := v in
                  (clip_coord v2 (NdArray.shape0 original),
                   clip_coord v1 (NdArray.shape1 original),
                   clip_coord v0 (NdArray.shape2 original))) vertices)
        = Some raw ->
        sample_density_at_vertices_for_surface
          map_coordinates np_percentile (Some original) data vertices
          iso_level = Some filtered).
Proof.
  pose proof (count_positive_nonempty bone_mask raw Hfrac) as Hne.
  destruct (min_defined _ Hne) as [min_bone Emin].
  destruct (min_spec _ _ Emin) as [Hin Hall].
  apply filter_In in Hin. destruct Hin as [Hraw Hbone].
  rewrite Forall_forall in Hall.
  set (f := fun v => if bone_mask v then v else min_bone).
  assert (Hfilter : band_filter np_percentile true iso_level raw
                    = Some (Some (map f raw))).
  { unfold band_filter.
    replace (Np.ltb 100 iso_level) with true
      by (symmetry; now apply ltb_lt).
    replace (Np.ltb (inject_Z (Np.size raw) * (3 # 10))
                    (inject_Z (Np.count bone_mask raw))) with true
      by (symmetry; now apply ltb_lt).
    simpl. now rewrite Emin. }
  assert (Hfloor : Forall (fun x => min_bone <= x) (map f raw)).
  { apply Forall_forall. intros x Hx. apply in_map_iff in Hx.
    destruct Hx as (v & <- & Hv). unfold f.
    destruct (bone_mask v) eqn:Ev; [|lra].
    apply Hall. apply filter_In. now split. }
  assert (Hmember : In min_bone (map f raw)).
  { apply in_map_iff. exists min_bone. split; [|exact Hraw].
    unfold f. now rewrite Hbone. }
  exists min_bone, (map f raw).
  split; [exact Emin|]. split; [now apply ltb_lt|].
  split; [reflexivity|]. split; [exact Hfilter|]. split.
  - destruct (min_defined (map f raw)) as [m Em].
    { intros E. rewrite E in Hmember. exact Hmember. }
    exists m. split; [exact Em|].
    exact (min_unique _ _ _ Em Hmember Hfloor).
  - intros original data vertices Hsample.
    unfold sample_density_at_vertices_for_surface.
    rewrite Hsample.
    destruct (Np.min raw) eqn:Eraw.
    + now rewrite Hfilter.
    + destruct raw; [contradiction|discriminate].
Qed.

End SurfaceBuild.

Section SurfaceBuildRuns.

Import Resampler Mayavi.
Local Open Scope Q_scope.

Local Abbreviation no_sampling :=
  (fun (_ : NdArray.t Q) (_ : list vertex) => @None (list Q)).
Local Abbreviation no_percentile := (fun (_ : list Q) (_ : Q) => @None Q).
Local Abbreviation no_median := (fun _ : list Q => 0).
Local Abbreviation empty_mesh :=
  (fun (_ : NdArray.t Q) (_ : Q) => Some (@nil vertex)).

Lemma flat_field_is_not_extracted_and_breaks_the_build_witness :
  let data := [[[5; 5]; [5; 5]]] in
  update_scene no_sampling no_percentile no_median empty_mesh
               (Some data) data = ([ClearFigure], NoVariation) /\
  build_3d_view no_sampling no_percentile no_median empty_mesh
                false data data =
    UnboundLocalError
      "No variation in raw data - cannot create 3D visualization".
Proof.
  intros data.
  destruct (flat_field_is_not_extracted_and_breaks_the_build
              no_sampling no_percentile no_median empty_mesh
              data data 5 5 eq_refl eq_refl)
    as (H1 & _ & _ & H2 & _).
  - unfold Qle. simpl. lia.
  - split; [exact H1 | exact H2].
Defined.

(** Ten samples, four of them above 150, at iso-level 500. *)
Lemma bone_filter_floors_at_min_bone_witness :
  let raw := [20; 180; -50; 400; 90; 1200; 10; 0; 160; 30] in
  band_filter no_percentile true 500 raw
  = Some (Some [160; 180; 160; 400; 160; 1200; 160; 160; 160; 160]) /\
  exists m,
    Np.min [160; 180; 160; 400; 160; 1200; 160; 160; 160; 160] = Some m /\
    m == 160.
Proof.
  intros raw.
  destruct (bone_filter_floors_at_min_bone
              no_sampling no_percentile 500 raw)
    as (min_bone & filtered & Emin & _ & Ef & Eb & Hm & _).
  - unfold Qlt. simpl. lia.
  - unfold Qlt. simpl. lia.
  - injection Emin as <-. subst filtered. split; [exact Eb | exact Hm].
Defined.

End SurfaceBuildRuns.

(** ** Further observations *)

Section Observations.

Import Resampler.
Local Open Scope Q_scope.

(** After clamping, the interpolation weight on an axis is a proper
    fraction: the sampler never extrapolates. *)
Lemma weight_unit_interval (c : Q) (dim : Z) :
  (1 <= dim)%Z -> 0 <= c -> c <= inject_Z (dim - 1) ->
  let lo := bound_index (Py.floor c) dim in
  let hi := bound_index (Py.ceil c) dim in
  0 <= weight c lo hi /\ weight c lo hi <= 1.
Proof.
  intros Hd H0 H1 lo hi.
  assert (Lo : lo = Qfloor c).
  { unfold lo, Py.floor. apply bound_index_fixes.
    pose proof (Qfloor_resp_le _ _ H0) as A.
    pose proof (Qfloor_resp_le _ _ H1) as B.
    rewrite Qfloor_Z in B. change (Qfloor 0) with 0%Z in A. lia. }
  assert (Hi : hi = Qceiling c).
  { unfold hi, Py.ceil. apply bound_index_fixes.
    pose proof (Qceiling_resp_le _ _ H0) as A.
    pose proof (Qceiling_resp_le _ _ H1) as B.
    rewrite Qceiling_Z in B. change (Qceiling 0) with 0%Z in A. lia. }
  pose proof (Qfloor_le c) as Fl. pose proof (Qle_ceiling c) as Ce.
  rewrite <- Lo in Fl. rewrite <- Hi in Ce.
  unfold weight. destruct (Z.eqb_spec hi lo) as [E | N]; [lra|].
  assert (Hlt : inject_Z lo < inject_Z hi).
  { assert (Hle : inject_Z lo <= inject_Z hi) by lra.
    rewrite <- Zle_Qle in Hle. rewrite <- Zlt_Qlt. lia. }
  split.
  - apply Qle_shift_div_l; lra.
  - apply Qle_shift_div_r; lra.
Qed.

(** The density-coloured widget of [enhanced_mayavi_widget.py] has no
    test for a flat field: marching cubes is handed the level 5 on a
    field that is 5 everywhere. *)
Example enhanced_widget_extracts_flat_field :
  exists level,
    Enhanced.create_density_colored_surface
      (fun _ => 0) (fun _ level => if Qeq_bool level 5 then Some [] else None)
      [[[5; 5]; [5; 5]]] None
    = Enhanced.Built level [] [] /\ level == 5.
Proof. eexists. split; reflexivity. Qed.

(** With an original field and a bone-like iso-level but too few
    bone samples, the band filter falls off the end of the function:
    the value returned is Python's [None], not a percentile clip. *)
Example bone_filter_without_enough_bone :
  Mayavi.band_filter (fun _ _ => Some 0) true 500 [20; 180; -50; 90]
  = Some None.
Proof. reflexivity. Qed.

End Observations.

(** ** Navigation, propagation and clearing *)

Section NavigationFacts.

Import ROI Sync Clear Axes.

Lemma navigate_as_steps (s : state) (r : roi3d) :
  roi_rect_3d s = Some r ->
  navigate_views_to_show_roi s =
  scroll_to sagittal (center_of r sagittal)
    (scroll_to coronal (center_of r coronal)
       (scroll_to axial (center_of r axial) s)).
Proof.
  intros E. unfold navigate_views_to_show_roi. rewrite E. reflexivity.
Qed.

Lemma image_set_roi_from_external o rect s :
  image (set_roi_from_external o rect s) = image s.
Proof. destruct o; reflexivity. Qed.

Lemma roi_set_roi_from_external o rect s :
  roi_rect_3d (set_roi_from_external o rect s) = roi_rect_3d s.
Proof. destruct o; reflexivity. Qed.

Lemma scrollbars_set_roi_from_external o rect s :
  scrollbars (set_roi_from_external o rect s) = scrollbars s.
Proof. destruct o; reflexivity. Qed.

Lemma update_view_frame o s :
  image (update_view o s) = image s /\
  roi_rect_3d (update_view o s) = roi_rect_3d s /\
  scrollbars (update_view o s) = scrollbars s.
Proof.
  unfold update_view.
  destruct (roi_intersects_slice _ _ _); [|auto].
  destruct (propagate_roi_to_single_view _ _ _); [|auto].
  rewrite image_set_roi_from_external, roi_set_roi_from_external,
    scrollbars_set_roi_from_external. auto.
Qed.

Lemma scrollbar_with_scrollbar o o' v i :
  scrollbar_value
    (mkState None None false (with_scrollbar o v i) None None None) o' =
  if orientation_eqb o o' then v
  else scrollbar_value (mkState None None false i None None None) o'.
Proof. destruct o, o'; reflexivity. Qed.

(** What a [setValue] leaves behind: the bounded value on its own
    scroll bar, everything else but the overlays as it was. *)
Lemma setValue_frame o v s :
  image (setValue o v s) = image s /\
  roi_rect_3d (setValue o v s) = roi_rect_3d s /\
  forall o', scrollbar_value (setValue o v s) o' =
             if orientation_eqb o o'
             then Z.max 0 (Z.min (scrollbar_maximum s o) v)
             else scrollbar_value s o'.
Proof.
  unfold setValue.
  destruct (Z.eqb_spec (Z.max 0 (Z.min (scrollbar_maximum s o) v))
                       (scrollbar_value s o)) as [E | N].
  - split; [reflexivity|]. split; [reflexivity|].
    intros o'. destruct o, o'; simpl; try reflexivity; exact (eq_sym E).
  - destruct (update_view_frame o
                (set_scrollbars (with_scrollbar o
                   (Z.max 0 (Z.min (scrollbar_maximum s o) v))
                   (scrollbars s)) s)) as (Hi & Hr & Hs).
    split; [rewrite Hi; reflexivity|]. split; [rewrite Hr; reflexivity|].
    intros o'. unfold scrollbar_value at 1. rewrite Hs.
    destruct o, o'; reflexivity.
Qed.

Lemma scroll_to_frame o c s :
  image (scroll_to o c s) = image s /\
  roi_rect_3d (scroll_to o c s) = roi_rect_3d s /\
  (forall o', o' <> o ->
              scrollbar_value (scroll_to o c s) o' = scrollbar_value s o') /\
  (scrollbar_value (scroll_to o c s) o = c \/
   scrollbar_value (scroll_to o c s) o =
     Z.max 0 (Z.min (scrollbar_maximum s o) c)).
Proof.
  unfold scroll_to. destruct (Z.eqb_spec c (scrollbar_value s o)) as [E | N].
  - repeat split; auto.
  - destruct (setValue_frame o c s) as (Hi & Hr & Hv).
    split; [exact Hi|]. split; [exact Hr|]. split.
    + intros o' Hne. rewrite Hv.
      destruct o, o'; simpl; congruence.
    + right. rewrite Hv. destruct o; reflexivity.
Qed.

Lemma scrollbar_maximum_ext s s' o :
  image s' = image s -> scrollbar_maximum s' o = scrollbar_maximum s o.
Proof. intros E. unfold scrollbar_maximum. now rewrite E. Qed.

(** A scroll bar is settled on a centre when asking for that centre
    again would not move it. *)
Lemma scroll_to_settled o c s :
  scrollbar_value s o = c \/
  scrollbar_value s o = Z.max 0 (Z.min (scrollbar_maximum s o) c) ->
  scroll_to o c s = s.
Proof.
  intros H. unfold scroll_to, setValue.
  destruct (Z.eqb_spec c (scrollbar_value s o)) as [E | N]; [reflexivity|].
  destruct H as [H | H]; [congruence|].
  rewrite <- H, Z.eqb_refl. reflexivity.
Qed.

End NavigationFacts.

Section NavigationProperties.

Import ROI Sync Clear Axes.

Lemma center_between (lo hi : Z) :
  lo <= hi -> lo <= Py.floordiv (lo + hi) 2 <= hi.
Proof.
  intros H. unfold Py.floordiv. split.
  - apply Z.div_le_lower_bound; lia.
  - apply Z.div_le_upper_bound; lia.
Qed.

(** X1.  When every axis of the 3D ROI has [0 <= min <= max] and
    [min < dimension], navigation leaves each of the three scroll bars
    on a slice that meets the ROI, and the ROI itself untouched. *)
Theorem navigation_lands_inside_roi
    (s : state) (size : image_size) (r : roi3d)
    (Himage : image s = Some size)
    (Hroi : roi_rect_3d s = Some r)
    (Hbox : forall a, 0 <= fst (pair_of r a) <= snd (pair_of r a) /\
                      fst (pair_of r a) < dim size a) :
  roi_rect_3d (navigate_views_to_show_roi s) = Some r /\
  forall o,
    roi_intersects_slice o (Some r)
      (scrollbar_value (navigate_views_to_show_roi s) o) = true.
Proof.
  rewrite (navigate_as_steps s r Hroi).
  set (s1 := scroll_to axial (center_of r axial) s).
  set (s2 := scroll_to coronal (center_of r coronal) s1).
  set (s3 := scroll_to sagittal (center_of r sagittal) s2).
  destruct (scroll_to_frame axial (center_of r axial) s)
    as (I1 & R1 & F1 & V1). fold s1 in I1, R1, F1, V1.
  destruct (scroll_to_frame coronal (center_of r coronal) s1)
    as (I2 & R2 & F2 & V2). fold s2 in I2, R2, F2, V2.
  destruct (scroll_to_frame sagittal (center_of r sagittal) s2)
    as (I3 & R3 & F3 & V3). fold s3 in I3, R3, F3, V3.
  split; [congruence|].
  pose proof (Hbox X) as (BX & DX). pose proof (Hbox Y) as (BY & DY).
  pose proof (Hbox Z_) as (BZ & DZ). simpl in BX, BY, BZ, DX, DY, DZ.
  pose proof (center_between _ _ (proj2 BX)) as CX.
  pose proof (center_between _ _ (proj2 BY)) as CY.
  pose proof (center_between _ _ (proj2 BZ)) as CZ.
  assert (M1 : scrollbar_maximum s axial = size2 size - 1)
    by (unfold scrollbar_maximum; now rewrite Himage).
  assert (M2 : scrollbar_maximum s1 coronal = size1 size - 1)
    by (unfold scrollbar_maximum; now rewrite I1, Himage).
  assert (M3 : scrollbar_maximum s2 sagittal = size0 size - 1)
    by (unfold scrollbar_maximum; now rewrite I2, I1, Himage).
  intros o.
  destruct o;
    cbn [roi_intersects_slice roi_intersects_axial_slice
         roi_intersects_coronal_slice roi_intersects_sagittal_slice].
  - rewrite (F3 axial) by discriminate. rewrite (F2 axial) by discriminate.
    apply andb_true_iff. rewrite !Z.leb_le.
    unfold center_of in V1. rewrite M1 in V1. destruct V1 as [-> | ->]; lia.
  - rewrite (F3 coronal) by discriminate.
    apply andb_true_iff. rewrite !Z.leb_le.
    unfold center_of in V2. rewrite M2 in V2. destruct V2 as [-> | ->]; lia.
  - apply andb_true_iff. rewrite !Z.leb_le.
    unfold center_of in V3. rewrite M3 in V3. destruct V3 as [-> | ->]; lia.
Qed.

Lemma navigation_lands_inside_roi_witness :
  let s := mkState (Some (mkSize 512 512 300))
                   (Some (mkRoi 64 192 64 192 135 165 axial)) true
                   (mkIdx 10 20 500) None None None in
  scrollbars (navigate_views_to_show_roi s) = mkIdx 150 128 128 /\
  forall o,
    roi_intersects_slice o (Some (mkRoi 64 192 64 192 135 165 axial))
      (scrollbar_value (navigate_views_to_show_roi s) o) = true.
Proof.
  intros s. split; [reflexivity|].
  apply (navigation_lands_inside_roi s (mkSize 512 512 300)
           (mkRoi 64 192 64 192 135 165 axial) eq_refl eq_refl).
  intros a; destruct a; simpl; lia.
Defined.

(** X2.  Navigating a second time changes nothing: scroll bars that
    already show the ROI centre (or the end of their range nearest to
    it) are not set again and no view is redrawn. *)
Theorem navigation_is_idempotent (s : state) :
  navigate_views_to_show_roi (navigate_views_to_show_roi s) =
  navigate_views_to_show_roi s.
Proof.
  destruct (roi_rect_3d s) as [r|] eqn:Hroi.
  2: { unfold navigate_views_to_show_roi. rewrite Hroi. simpl.
       now rewrite Hroi. }
  rewrite (navigate_as_steps s r Hroi).
  set (s1 := scroll_to axial (center_of r axial) s).
  set (s2 := scroll_to coronal (center_of r coronal) s1).
  set (s3 := scroll_to sagittal (center_of r sagittal) s2).
  destruct (scroll_to_frame axial (center_of r axial) s)
    as (I1 & R1 & F1 & V1). fold s1 in I1, R1, F1, V1.
  destruct (scroll_to_frame coronal (center_of r coronal) s1)
    as (I2 & R2 & F2 & V2). fold s2 in I2, R2, F2, V2.
  destruct (scroll_to_frame sagittal (center_of r sagittal) s2)
    as (I3 & R3 & F3 & V3). fold s3 in I3, R3, F3, V3.
  assert (R : roi_rect_3d s3 = Some r) by congruence.
  rewrite (navigate_as_steps s3 r R).
  assert (E1 : scroll_to axial (center_of r axial) s3 = s3).
  { apply scroll_to_settled.
    rewrite (F3 axial) by discriminate. rewrite (F2 axial) by discriminate.
    rewrite (scrollbar_maximum_ext s s3) by congruence. exact V1. }
  rewrite E1.
  assert (E2 : scroll_to coronal (center_of r coronal) s3 = s3).
  { apply scroll_to_settled.
    rewrite (F3 coronal) by discriminate.
    rewrite (scrollbar_maximum_ext s1 s3) by congruence. exact V2. }
  rewrite E2.
  apply scroll_to_settled.
  rewrite (scrollbar_maximum_ext s2 s3) by congruence. exact V3.
Qed.

End NavigationProperties.

Section PropagationProperties.

Import ROI Sync Clear Axes.
Local Open Scope Q_scope.

Lemma pushed_rect_is_wide (image : option image_size) (roi : option roi3d)
    (o : orientation) (rect : QRectF) :
  propagate_roi_to_single_view image roi o = Some rect ->
  1 < width rect /\ 1 < height rect /\
  exists size r, image = Some size /\ roi = Some r /\
                 project size r o = Some rect.
Proof.
  unfold propagate_roi_to_single_view.
  destruct roi as [r|]; [|discriminate].
  destruct image as [size|]; [|discriminate].
  destruct (project size r o) as [p|] eqn:Ep; [|discriminate].
  destruct (wide_enough p) eqn:Ew; [|discriminate].
  intros E. injection E as <-.
  unfold wide_enough in Ew. apply andb_true_iff in Ew.
  destruct Ew as [Ew Eh]. apply negb_true_iff in Ew, Eh.
  split; [|split; [|eauto]].
  - apply Qnot_le_lt. intros L. apply Qle_bool_iff in L. congruence.
  - apply Qnot_le_lt. intros L. apply Qle_bool_iff in L. congruence.
Qed.

(** X3.  In a volume with no zero dimension, propagating from a source
    view never touches that view's overlay, the 3D ROI, the scroll
    bars or the guard flag; each of the two other views receives the
    projection of the ROI when that projection is more than one unit
    wide and high, and keeps its overlay otherwise. *)
Theorem propagation_spares_the_source_view
    (s : state) (source : orientation)
    (Hsize : forall size, image s = Some size ->
                          size0 size <> 0%Z /\ size1 size <> 0%Z /\
                          size2 size <> 0%Z) :
  view_roi (propagate source s) source = view_roi s source /\
  roi_rect_3d (propagate source s) = roi_rect_3d s /\
  scrollbars (propagate source s) = scrollbars s /\
  roi_update_in_progress (propagate source s) = roi_update_in_progress s /\
  (forall o, o <> source ->
     view_roi (propagate source s) o =
     match propagate_roi_to_single_view (image s) (roi_rect_3d s) o with
     | Some rect => Some rect
     | None => view_roi s o
     end) /\
  (forall o rect,
     In (o, rect)
        (propagate_roi_to_views (image s) (roi_rect_3d s) source) ->
     o <> source /\ 1 < width rect /\ 1 < height rect).
Proof.
  clear Hsize.
  unfold propagate, propagate_roi_to_views, push_updates.
  split; [|split; [|split; [|split; [|split]]]].
  - destruct source; simpl;
      repeat match goal with
             | |- context [propagate_roi_to_single_view ?i ?r ?o] =>
                 destruct (propagate_roi_to_single_view i r o)
             end; reflexivity.
  - destruct source; simpl;
      repeat match goal with
             | |- context [propagate_roi_to_single_view ?i ?r ?o] =>
                 destruct (propagate_roi_to_single_view i r o)
             end; reflexivity.
  - destruct source; simpl;
      repeat match goal with
             | |- context [propagate_roi_to_single_view ?i ?r ?o] =>
                 destruct (propagate_roi_to_single_view i r o)
             end; reflexivity.
  - destruct source; simpl;
      repeat match goal with
             | |- context [propagate_roi_to_single_view ?i ?r ?o] =>
                 destruct (propagate_roi_to_single_view i r o)
             end; reflexivity.
  - intros o Hne. destruct source, o; try congruence; simpl;
      repeat match goal with
             | |- context [propagate_roi_to_single_view ?i ?r ?o] =>
                 destruct (propagate_roi_to_single_view i r o)
             end; reflexivity.
  - intros o rect Hin. apply in_flat_map in Hin.
    destruct Hin as (target & Ht & Hin).
    destruct (orientation_eqb source target) eqn:Eo; [contradiction|].
    destruct (propagate_roi_to_single_view (image s) (roi_rect_3d s) target)
      as [p|] eqn:Ep; [|contradiction].
    destruct Hin as [Hin | []]. injection Hin as <- <-.
    destruct (pushed_rect_is_wide _ _ _ _ Ep) as (Hw & Hh & _).
    split; [|split; assumption].
    destruct source, target; simpl in Eo; congruence.
Qed.

Lemma propagation_spares_the_source_view_witness :
  let s := mkState (Some (mkSize 512 512 300))
                   (Some (mkRoi 64 192 64 192 135 165 axial)) true
                   (mkIdx 150 128 128) (Some (mkRect 50 50 100 100))
                   None None in
  view_roi (propagate axial s) axial = Some (mkRect 50 50 100 100) /\
  exists rect, view_roi (propagate axial s) coronal = Some rect /\
               width rect == 100 /\ height rect == 40.
Proof.
  intros s.
  destruct (propagation_spares_the_source_view s axial)
    as (H1 & _ & _ & _ & H2 & _).
  - intros size E. injection E as <-. simpl. repeat split; discriminate.
  - split; [exact H1|]. eexists. split.
    + rewrite (H2 coronal) by discriminate. reflexivity.
    + split; reflexivity.
Defined.

Lemma clear_signal_effect (o : orientation) (fault : stage -> bool)
    (reentrant : list event) (t : state) :
  roi_rect_3d t = None ->
  let t' := handle (RoiChanged (Some null_rect) o fault reentrant) t in
  roi_rect_3d t' = None /\
  (forall o', view_roi t' o' = view_roi t o' \/ view_roi t' o' = None) /\
  roi_update_in_progress t' = roi_update_in_progress t /\
  scrollbars t' = scrollbars t /\ image t' = image t.
Proof.
  intros Hroi. cbn zeta.
  cbn [handle].
  destruct (reentry_has_no_effect
              (fun u => fold_left (fun acc e' => handle e' acc) reentrant u)
              (run_dropped reentrant) fault o t) as [E _].
  rewrite E. clear E.
  unfold on_roi_changed, convert, try_except, bind, gets, modify,
    checkpoint, ret. cbn beta iota.
  destruct (roi_update_in_progress t) eqn:Eflag.
  { repeat split; auto. }
  change (isEmpty null_rect) with true. cbn beta iota.
  destruct (fault AfterGuard); cbn beta iota.
  { simpl. rewrite Hroi. repeat split; auto. }
  destruct (fault AtClear); cbn beta iota.
  { simpl. repeat split; auto. }
  split; [destruct o; reflexivity|].
  split; [intros o'; destruct o, o'; simpl; auto|].
  split; [destruct o; reflexivity|].
  split; destruct o; reflexivity.
Qed.

(** X4.  [clear_roi] always ends with no 3D ROI and no overlay in any
    of the three views, whatever the state it starts from, wherever
    the signal handlers raise and whatever signals arrive meanwhile;
    the guard flag, the scroll bars and the image are as before. *)
Theorem clear_roi_clears_everything
    (faults : orientation -> stage -> bool)
    (reentrant : orientation -> list event) (s : state) :
  roi_rect_3d (clear_roi faults reentrant s) = None /\
  (forall o, view_roi (clear_roi faults reentrant s) o = None) /\
  roi_update_in_progress (clear_roi faults reentrant s) =
    roi_update_in_progress s /\
  scrollbars (clear_roi faults reentrant s) = scrollbars s /\
  image (clear_roi faults reentrant s) = image s.
Proof.
  unfold clear_roi, view_clear_roi.
  set (s0 := set_roi_rect_3d None s).
  set (a1 := set_roi_from_external coronal None s0).
  set (s1 := handle _ a1).
  set (a2 := set_roi_from_external sagittal None s1).
  set (s2 := handle _ a2).
  set (a3 := set_roi_from_external axial None s2).
  set (s3 := handle _ a3).
  assert (R0 : roi_rect_3d a1 = None) by reflexivity.
  destruct (clear_signal_effect coronal (faults coronal)
              (reentrant coronal) a1 R0) as (R1 & V1 & G1 & B1 & I1).
  fold s1 in R1, V1, G1, B1, I1.
  assert (R1' : roi_rect_3d a2 = None) by exact R1.
  destruct (clear_signal_effect sagittal (faults sagittal)
              (reentrant sagittal) a2 R1') as (R2 & V2 & G2 & B2 & I2).
  fold s2 in R2, V2, G2, B2, I2.
  assert (R2' : roi_rect_3d a3 = None) by exact R2.
  destruct (clear_signal_effect axial (faults axial)
              (reentrant axial) a3 R2') as (R3 & V3 & G3 & B3 & I3).
  fold s3 in R3, V3, G3, B3, I3.
  split; [exact R3|]. split.
  - assert (C1 : view_roi s1 coronal = None)
      by (destruct (V1 coronal) as [E | E]; rewrite E; reflexivity).
    assert (C2 : view_roi s2 coronal = None /\ view_roi s2 sagittal = None).
    { split.
      - destruct (V2 coronal) as [E | E]; rewrite E; [|reflexivity].
        exact C1.
      - destruct (V2 sagittal) as [E | E]; rewrite E; reflexivity. }
    destruct C2 as [C2 S2].
    intros o. destruct (V3 o) as [E | E]; rewrite E; [|reflexivity].
    destruct o; [reflexivity | exact C2 | exact S2].
  - split; [|split].
    + rewrite G3. unfold a3. rewrite flag_set_roi_from_external, G2.
      unfold a2. rewrite flag_set_roi_from_external, G1. reflexivity.
    + rewrite B3. unfold a3. rewrite scrollbars_set_roi_from_external, B2.
      unfold a2. rewrite scrollbars_set_roi_from_external, B1. reflexivity.
    + rewrite I3. unfold a3. rewrite image_set_roi_from_external, I2.
      unfold a2. rewrite image_set_roi_from_external, I1. reflexivity.
Qed.

End PropagationProperties.

(** ** Pixel processing *)

#[global] Instance clip_compat :
  Proper (Qeq ==> Qeq ==> Qeq ==> Qeq) Py.clip.
Proof.
  intros a a' Ea b b' Eb c c' Ec. unfold Py.clip. now rewrite Ea, Eb, Ec.
Qed.

Section ProcessingFacts.

Import Processing.
Local Open Scope Q_scope.

Lemma ravel_map3 {A B} (f : A -> B) (a : NdArray.t A) :
  NdArray.ravel (map3 f a) = map f (NdArray.ravel a).
Proof.
  unfold NdArray.ravel, map3. now rewrite !concat_map.
Qed.

Lemma int_proper (p q : Q) : p == q -> Py.int p = Py.int q.
Proof.
  intros E. destruct (Qlt_le_dec p 0) as [Hneg | Hpos].
  - (* truncation of a negative number is minus the floor of its opposite *)
    assert (Hq : q < 0) by lra.
    destruct p as [pn pd], q as [qn qd]. unfold Py.int, Qlt, Qeq in *.
    simpl in *.
    rewrite <- (Z.opp_involutive pn), <- (Z.opp_involutive qn).
    rewrite (Z.quot_opp_l (- pn)), (Z.quot_opp_l (- qn)) by lia. f_equal.
    rewrite !Z.quot_div_nonneg by lia.
    change (Qfloor (- pn # pd) = Qfloor (- qn # qd)).
    apply Qfloor_comp. unfold Qeq. simpl. lia.
  - rewrite !int_floor by lra. now apply Qfloor_comp.
Qed.

Lemma to_uint8_range (x : Q) :
  0 <= x -> x <= 255 ->
  exists n, to_uint8 x = inject_Z n /\ (0 <= n <= 255)%Z.
Proof.
  intros H0 H1. exists (Py.int x). split; [reflexivity|]. split.
  - now apply int_nonneg.
  - apply int_le_Z; assumption.
Qed.

Lemma to_uint8_integer (n : Z) : (0 <= n)%Z -> to_uint8 (inject_Z n) = inject_Z n.
Proof.
  intros H. unfold to_uint8. rewrite int_floor.
  - now rewrite Qfloor_Z.
  - change 0 with (inject_Z 0). rewrite <- Zle_Qle. exact H.
Qed.

Lemma to_uint8_eq (x : Q) (n : Z) :
  (0 <= n)%Z -> x == inject_Z n -> to_uint8 x = inject_Z n.
Proof.
  intros H E. unfold to_uint8. rewrite (int_proper _ _ E).
  now apply to_uint8_integer.
Qed.

Lemma to_uint8_mono (x y : Q) :
  0 <= x -> x <= y -> to_uint8 x <= to_uint8 y.
Proof.
  intros H0 H. unfold to_uint8. rewrite <- Zle_Qle. now apply int_mono.
Qed.

Lemma clip_mono (u v lo hi : Q) :
  u <= v -> Py.clip u lo hi <= Py.clip v lo hi.
Proof.
  intros H. unfold Py.clip.
  apply Q.min_le_compat_r. now apply Q.max_le_compat_r.
Qed.

Lemma clip_low (v lo hi : Q) : lo <= hi -> v <= lo -> Py.clip v lo hi == lo.
Proof.
  intros H Hv. unfold Py.clip.
  rewrite (Q.max_r v lo) by assumption. now apply Q.min_l.
Qed.

Lemma clip_high (v lo hi : Q) : lo <= hi -> hi <= v -> Py.clip v lo hi == hi.
Proof.
  intros H Hv. unfold Py.clip. apply Q.min_r.
  pose proof (Q.le_max_l v lo). lra.
Qed.

(** A window with [max_val <= min_val] is flat. *)
Lemma windowing_value_is_total (min_val max_val : Z) :
  (forall v, exists n, apply_windowing_value min_val max_val v = inject_Z n /\
                       (0 <= n <= 255)%Z) /\
  ((max_val <= min_val)%Z ->
   forall v, apply_windowing_value min_val max_val v = 127).
Proof.
  split.
  - intros v. unfold apply_windowing_value.
    destruct (clip_between
                (if (max_val >? min_val)%Z
                 then (Py.clip v (inject_Z min_val) (inject_Z max_val)
                       - inject_Z min_val)
                      / (inject_Z max_val - inject_Z min_val) * 255
                 else 127) 0 255) as [L U]; [lra|].
    destruct (to_uint8_range _ L U) as (n & E & Hn). eauto.
  - intros Hle v. unfold apply_windowing_value.
    rewrite Z.gtb_ltb.
    replace (min_val <? max_val)%Z with false
      by (symmetry; apply Z.ltb_ge; lia).
    reflexivity.
Qed.

(** X5.  [apply_windowing] always yields integers between 0 and 255.
    With [max_val > min_val] it is monotone, sends every value at or
    below [min_val] to 0 and every value at or above [max_val] to
    255; with [max_val <= min_val] it yields 127 everywhere. *)
Theorem windowing_maps_into_byte_range
    (a : NdArray.t Q) (min_val max_val : Z) :
  Forall (fun x => exists n, x = inject_Z n /\ (0 <= n <= 255)%Z)
         (NdArray.ravel (apply_windowing a min_val max_val)) /\
  ((min_val < max_val)%Z ->
   (forall v, v <= inject_Z min_val ->
              apply_windowing_value min_val max_val v = 0) /\
   (forall v, inject_Z max_val <= v ->
              apply_windowing_value min_val max_val v = 255) /\
   (forall u v, u <= v ->
                apply_windowing_value min_val max_val u <=
                apply_windowing_value min_val max_val v)) /\
  ((max_val <= min_val)%Z ->
   forall v, apply_windowing_value min_val max_val v = 127).
Proof.
  split; [|split].
  - unfold apply_windowing. rewrite ravel_map3. apply Forall_forall.
    intros x Hx. apply in_map_iff in Hx. destruct Hx as (v & <- & _).
    unfold apply_windowing_value.
    destruct (clip_between
                (if (max_val >? min_val)%Z
                 then (Py.clip v (inject_Z min_val) (inject_Z max_val)
                       - inject_Z min_val)
                      / (inject_Z max_val - inject_Z min_val) * 255
                 else 127) 0 255) as [L U]; [lra|].
    exact (to_uint8_range _ L U).
  - intros Hlt.
    assert (Hgt : (max_val >? min_val)%Z = true) by (apply Z.gtb_lt; lia).
    assert (HQ : inject_Z min_val < inject_Z max_val)
      by (rewrite <- Zlt_Qlt; exact Hlt).
    assert (Hd : 0 < inject_Z max_val - inject_Z min_val) by lra.
    assert (Scale : forall w, inject_Z min_val <= w -> w <= inject_Z max_val ->
              0 <= (w - inject_Z min_val)
                   / (inject_Z max_val - inject_Z min_val) * 255 /\
              (w - inject_Z min_val)
              / (inject_Z max_val - inject_Z min_val) * 255 <= 255).
    { intros w Hl Hu. split.
      - apply Qmult_le_0_compat; [|lra].
        apply Qle_shift_div_l; lra.
      - setoid_replace 255 with (1 * 255) at 2 by ring.
        apply Qmult_le_compat_r; [|lra].
        apply Qle_shift_div_r; lra. }
    split; [|split].
    + intros v Hv. unfold apply_windowing_value. rewrite Hgt.
      apply (to_uint8_eq _ 0%Z); [lia|].
      rewrite (clip_low v _ _ (Qlt_le_weak _ _ HQ) Hv).
      setoid_replace ((inject_Z min_val - inject_Z min_val)
                      / (inject_Z max_val - inject_Z min_val) * 255)
        with 0 by (field; lra).
      reflexivity.
    + intros v Hv. unfold apply_windowing_value. rewrite Hgt.
      apply (to_uint8_eq _ 255%Z); [lia|].
      rewrite (clip_high v _ _ (Qlt_le_weak _ _ HQ) Hv).
      setoid_replace ((inject_Z max_val - inject_Z min_val)
                      / (inject_Z max_val - inject_Z min_val) * 255)
        with 255 by (field; lra).
      reflexivity.
    + intros u v Huv. unfold apply_windowing_value. rewrite Hgt.
      pose proof (clip_mono u v (inject_Z min_val) (inject_Z max_val) Huv)
        as Hc.
      apply to_uint8_mono.
      * apply clip_between. lra.
      * apply clip_mono. apply Qmult_le_compat_r; [|lra].
        unfold Qdiv. apply Qmult_le_compat_r; [lra|].
        apply Qinv_le_0_compat. lra.
  - intros Hle v. unfold apply_windowing_value.
    rewrite Z.gtb_ltb.
    replace (min_val <? max_val)%Z with false
      by (symmetry; apply Z.ltb_ge; lia).
    reflexivity.
Qed.

End ProcessingFacts.

Section ProcessingProperties.

Import Processing.
Local Open Scope Q_scope.

Lemma windowing_maps_into_byte_range_witness :
  apply_windowing [[[-2000; 100; 1000; 1900; 5000]]] 100 1900
  = [[[0; 0; 127; 255; 255]]] /\
  apply_windowing [[[-2000; 100; 1000; 1900; 5000]]] 1000 1000
  = [[[127; 127; 127; 127; 127]]].
Proof.
  destruct (windowing_maps_into_byte_range [[[0]]] 100 1900)
    as (_ & H & _).
  destruct (H ltac:(lia)) as (H0 & H255 & _).
  split; [|reflexivity].
  unfold apply_windowing, map3. simpl.
  rewrite (H0 (-2000)) by (unfold Qle; simpl; lia).
  rewrite (H0 100) by (unfold Qle; simpl; lia).
  rewrite (H255 1900) by (unfold Qle; simpl; lia).
  rewrite (H255 5000) by (unfold Qle; simpl; lia).
  reflexivity.
Defined.

(** X6.  For a slider width of at least 1, [get_values] never returns
    an inverted window, and the window spans [2 * (width // 2)] units:
    the width itself when it is even, one less when it is odd.  A
    width of 1 gives [min_val = max_val], and windowing with it turns
    every voxel into 127. *)
Theorem window_of_width_one_is_flat (center width : Z)
    (Hwidth : (1 <= width)%Z) :
  let '(min_val, max_val) := get_values center width in
  (min_val <= max_val)%Z /\
  (max_val - min_val = 2 * (width / 2))%Z /\
  (width - 1 <= max_val - min_val <= width)%Z /\
  ((2 <= width)%Z -> (min_val < max_val)%Z) /\
  (width = 1%Z ->
   forall a, Forall (fun x => x = 127)
                    (NdArray.ravel (apply_windowing a min_val max_val))).
Proof.
  unfold get_values, Py.floordiv.
  pose proof (Z.div_mod width 2 ltac:(lia)) as D.
  pose proof (Z.mod_pos_bound width 2 ltac:(lia)) as M.
  assert (H0 : (0 <= width / 2)%Z) by (apply Z.div_pos; lia).
  split; [lia|]. split; [lia|]. split; [lia|]. split.
  - intros H2.
    assert (1 <= width / 2)%Z by (apply Z.div_le_lower_bound; lia). lia.
  - intros -> a. change (1 / 2)%Z with 0%Z.
    unfold apply_windowing. rewrite ravel_map3. apply Forall_forall.
    intros x Hx. apply in_map_iff in Hx. destruct Hx as (v & <- & _).
    destruct (windowing_value_is_total (center - 0) (center + 0)) as [_ F].
    apply F. lia.
Qed.

End ProcessingProperties.

Section ProcessingMore.

Import Processing.
Local Open Scope Q_scope.

Lemma window_of_width_one_is_flat_witness :
  (fst (get_values 40 1) = snd (get_values 40 1)) /\
  Forall (fun x => x = 127)
         (NdArray.ravel (apply_windowing [[[-1000; 40; 3000]]] 40 40)).
Proof.
  pose proof (window_of_width_one_is_flat 40 1 ltac:(lia)) as H.
  simpl in H. destruct H as (_ & _ & _ & _ & H).
  split; [reflexivity|]. exact (H eq_refl [[[-1000; 40; 3000]]]).
Defined.

Lemma Qmax_choice (a b : Q) : Qmax a b = a \/ Qmax a b = b.
Proof.
  unfold Qmax, GenericMinMax.gmax. destruct (a ?= b); auto.
Qed.

Lemma fold_max_spec (t : list Q) (v : Q) :
  let m := fold_left Qmax t v in
  In m (v :: t) /\ Forall (fun x => x <= m) (v :: t).
Proof.
  revert v. induction t as [|a t IH]; intros v; simpl.
  - split; [auto|]. constructor; [lra|constructor].
  - destruct (IH (Qmax v a)) as [Hin Hall]. simpl in Hin, Hall.
    inversion Hall as [|? ? Hhd Htl]; subst. split.
    + destruct Hin as [Hin | Hin]; [|now right; right].
      rewrite <- Hin.
      destruct (Qmax_choice v a) as [E | E]; rewrite E;
        [now left | now right; left].
    + pose proof (Q.le_max_l v a). pose proof (Q.le_max_r v a).
      constructor; [lra|]. constructor; [lra|]. exact Htl.
Qed.

Lemma max_spec (l : list Q) (m : Q) :
  Np.max l = Some m -> In m l /\ Forall (fun x => x <= m) l.
Proof.
  destruct l as [|v t]; simpl; [discriminate|].
  intros E. injection E as <-. apply fold_max_spec.
Qed.

Lemma in_concat_map_map {A B} (f : A -> B) (rows : list (list A)) (y : B) :
  In y (concat (map (map f) rows)) <-> exists x, In x (concat rows) /\ y = f x.
Proof.
  rewrite <- concat_map, in_map_iff. split.
  - intros (x & E & H). eauto.
  - intros (x & H & E). eauto.
Qed.

Lemma int_inject (n : Z) : Py.int (inject_Z n) = n.
Proof. unfold Py.int. simpl. apply Z.quot_1_r. Qed.

Lemma to_uint8_proper (p q : Q) : p == q -> to_uint8 p = to_uint8 q.
Proof. intros E. unfold to_uint8. now rewrite (int_proper _ _ E). Qed.

(** A result that the element type can hold is stored as it is. *)
Lemma wrap_fits (e : element) (v : Q) : holds e v -> wrap e v == v.
Proof.
  destruct e as [bits [|]|largest]; simpl.
  - intros (n & E & Hn). rewrite (int_proper _ _ E), int_inject, E.
    assert (Hb : (1 <= bits)%Z).
    { destruct (Z_lt_le_dec bits 1) as [L|]; [|assumption].
      assert (2 ^ (bits - 1) = 0)%Z by (apply Z.pow_neg_r; lia). lia. }
    assert (Hp : (2 ^ bits = 2 * 2 ^ (bits - 1))%Z).
    { replace bits with (Z.succ (bits - 1)) at 1 by lia.
      apply Z.pow_succ_r. lia. }
    rewrite Hp, Z.mod_small by lia.
    apply inject_Z_injective. lia.
  - intros (n & E & Hn). rewrite (int_proper _ _ E), int_inject, E.
    now rewrite Z.mod_small.
  - reflexivity.
Qed.

(** Between the darkest and the brightest pixel of a slice whose range
    fits its element type, every difference to the darkest fits. *)
Lemma difference_fits (e : element) (lo hi v : Q) :
  holds e lo -> holds e v -> holds e (hi - lo) ->
  lo <= v -> v <= hi -> holds e (v - lo).
Proof.
  destruct e as [bits [|]|largest]; simpl.
  - intros (nl & El & Hl) (nv & Ev & Hv) (nr & Er & Hr) L U.
    exists (nv - nl)%Z. split.
    + rewrite Ev, El. unfold Zminus.
      rewrite inject_Z_plus, inject_Z_opp. ring.
    + assert (A : inject_Z nl <= inject_Z nv) by lra.
      assert (B : inject_Z nv - inject_Z nl <= inject_Z nr) by lra.
      rewrite <- Zle_Qle in A.
      assert (B' : inject_Z (nv - nl) <= inject_Z nr).
      { unfold Zminus. rewrite inject_Z_plus, inject_Z_opp. lra. }
      rewrite <- Zle_Qle in B'. lia.
  - intros (nl & El & Hl) (nv & Ev & Hv) (nr & Er & Hr) L U.
    exists (nv - nl)%Z. split.
    + rewrite Ev, El. unfold Zminus.
      rewrite inject_Z_plus, inject_Z_opp. ring.
    + assert (A : inject_Z nl <= inject_Z nv) by lra.
      rewrite <- Zle_Qle in A. lia.
  - intros _ _ [Hr1 Hr2] L U. split; lra.
Qed.

(** X7.  On a non-empty slice whose pixels and whose range, maximum
    minus minimum, are values of its element type,
    [normalize_slice_safe] returns 128 everywhere when all pixels are
    equal (no division by zero); otherwise it maps every pixel, in
    place, through one function of its value which yields integers
    between 0 and 255, sends the pixels holding the minimum to 0 and
    those holding the maximum to 255, and is monotone. *)
Theorem normalized_slice_spans_byte_range
    (e : element) (slice_data : list (list Q)) (lo hi : Q)
    (Hmin : Np.min (concat slice_data) = Some lo)
    (Hmax : Np.max (concat slice_data) = Some hi)
    (Hdata : Forall (holds e) (concat slice_data))
    (Hfit : holds e (hi - lo)) :
  (hi == lo ->
   normalize_slice_safe e slice_data
   = map (map (fun _ => 128)) slice_data) /\
  (~ hi == lo ->
   exists f,
     normalize_slice_safe e slice_data = map (map f) slice_data /\
     (forall v, In v (concat slice_data) ->
                byte (f v) /\
                (v == lo -> f v = 0) /\
                (v == hi -> f v = 255)) /\
     (forall u v, In u (concat slice_data) -> In v (concat slice_data) ->
                  u <= v -> f u <= f v) /\
     In 0 (concat (normalize_slice_safe e slice_data)) /\
     In 255 (concat (normalize_slice_safe e slice_data))).
Proof.
  destruct (min_spec _ _ Hmin) as [Ilo Alo].
  destruct (max_spec _ _ Hmax) as [Ihi Ahi].
  rewrite Forall_forall in Alo, Ahi, Hdata.
  unfold normalize_slice_safe. rewrite Hmin, Hmax. split.
  - intros E. apply Qeq_bool_iff in E. now rewrite E.
  - intros N. destruct (Qeq_bool hi lo) eqn:E.
    { apply Qeq_bool_iff in E. contradiction. }
    assert (Hlt : lo < hi).
    { pose proof (Alo hi Ihi). apply Qle_lteq in H.
      destruct H as [H | H]; [exact H|]. symmetry in H. contradiction. }
    set (f := fun v => to_uint8 (wrap e (v - lo) / wrap e (hi - lo) * 255)).
    assert (Ef : forall v, In v (concat slice_data) ->
                 f v = to_uint8 ((v - lo) / (hi - lo) * 255)).
    { intros v Hv. unfold f. apply to_uint8_proper.
      rewrite (wrap_fits e (hi - lo) Hfit).
      rewrite (wrap_fits e (v - lo)); [reflexivity|].
      apply (difference_fits e lo hi v); auto. }
    assert (Hpos : forall v, In v (concat slice_data) ->
                   0 <= (v - lo) / (hi - lo) * 255).
    { intros v Hv. pose proof (Alo v Hv).
      apply Qmult_le_0_compat; [|lra]. apply Qle_shift_div_l; lra. }
    assert (Hlo : f lo = 0).
    { rewrite (Ef lo Ilo). apply (to_uint8_eq _ 0%Z); [lia|]. field. lra. }
    assert (Hhi : f hi = 255).
    { rewrite (Ef hi Ihi). apply (to_uint8_eq _ 255%Z); [lia|]. field. lra. }
    exists f. split; [reflexivity|]. split; [|split; [|split]].
    + intros v Hv. pose proof (Alo v Hv). pose proof (Ahi v Hv).
      rewrite (Ef v Hv). split; [|split].
      * apply to_uint8_range; [apply Hpos; exact Hv|].
        setoid_replace 255 with (1 * 255) at 2 by ring.
        apply Qmult_le_compat_r; [|lra]. apply Qle_shift_div_r; lra.
      * intros Ev. apply (to_uint8_eq _ 0%Z); [lia|]. rewrite Ev. field. lra.
      * intros Ev. apply (to_uint8_eq _ 255%Z); [lia|]. rewrite Ev.
        field. lra.
    + intros u v Hu Hv Huv. rewrite (Ef u Hu), (Ef v Hv).
      apply to_uint8_mono; [apply Hpos; exact Hu|].
      apply Qmult_le_compat_r; [|lra].
      unfold Qdiv. apply Qmult_le_compat_r; [lra|].
      apply Qlt_le_weak, Qinv_lt_0_compat. lra.
    + apply in_concat_map_map. exists lo. split; [exact Ilo|].
      symmetry. exact Hlo.
    + apply in_concat_map_map. exists hi. split; [exact Ihi|].
      symmetry. exact Hhi.
Qed.

Lemma normalized_slice_spans_byte_range_witness :
  normalize_slice_safe (integer 16 true) [[7; 7]; [7; 7]]
  = [[128; 128]; [128; 128]] /\
  In 0 (concat (normalize_slice_safe (integer 16 true)
                  [[-1000; 0]; [500; 3000]])) /\
  In 255 (concat (normalize_slice_safe (integer 16 true)
                    [[-1000; 0]; [500; 3000]])).
Proof.
  assert (Hint : forall n : Z, (-32768 <= n < 32768)%Z ->
                               holds (integer 16 true) (inject_Z n)).
  { intros n Hn. exists n. split; [reflexivity|].
    change (2 ^ (16 - 1))%Z with 32768%Z. exact Hn. }
  split.
  - apply (normalized_slice_spans_byte_range (integer 16 true)
             [[7; 7]; [7; 7]] 7 7 eq_refl eq_refl).
    + repeat constructor; apply (Hint 7%Z); lia.
    + apply (Hint 0%Z). lia.
    + reflexivity.
  - destruct (normalized_slice_spans_byte_range (integer 16 true)
                [[-1000; 0]; [500; 3000]] (-1000) 3000 eq_refl eq_refl)
      as (_ & H).
    + repeat constructor;
        [apply (Hint (-1000)%Z) | apply (Hint 0%Z) | apply (Hint 500%Z)
        |apply (Hint 3000%Z)]; lia.
    + apply (Hint 4000%Z). lia.
    + destruct H as (f & _ & _ & _ & H0 & H255).
      * intros E. revert E. unfold Qeq. simpl. lia.
      * split; [exact H0 | exact H255].
Defined.

Lemma contrast_factor_zero : contrast_factor 0 == 1.
Proof. reflexivity. Qed.

(** X8.  For a contrast between 0 and 100, [adjust_contrast] yields
    integers between 0 and 255.  At contrast 0 it leaves an 8-bit
    value held in a wide element type unchanged; on a [uint8] array,
    where [slice - 128] wraps around, it leaves the values from 128
    up unchanged and turns every value below 128 into 255. *)
Theorem contrast_zero_saturates_dark_bytes
    (contrast_value : Z) (Hc : (0 <= contrast_value <= 100)%Z) :
  (forall dt v, exists n,
      adjust_contrast_value dt contrast_value v = inject_Z n /\
      (0 <= n <= 255)%Z) /\
  (forall n, (0 <= n <= 255)%Z ->
             adjust_contrast_value wide 0 (inject_Z n) = inject_Z n) /\
  (forall n, (128 <= n <= 255)%Z ->
             adjust_contrast_value uint8 0 (inject_Z n) = inject_Z n) /\
  (forall n, (0 <= n < 128)%Z ->
             adjust_contrast_value uint8 0 (inject_Z n) = 255).
Proof.
  split; [|split; [|split]].
  - intros dt v. unfold adjust_contrast_value.
    destruct (clip_between
                (128 + contrast_factor contrast_value * minus_128 dt v)
                0 255) as [L U]; [lra|].
    destruct (to_uint8_range _ L U) as (n & E & Hn). eauto.
  - intros n Hn. unfold adjust_contrast_value, minus_128.
    apply to_uint8_eq; [lia|].
    assert (E : 128 + contrast_factor 0 * (inject_Z n - 128) == inject_Z n)
      by (rewrite contrast_factor_zero; ring).
    rewrite E. rewrite clip_fixes; [reflexivity| |].
    + change 0 with (inject_Z 0). rewrite <- Zle_Qle. lia.
    + change 255 with (inject_Z 255). rewrite <- Zle_Qle. lia.
  - intros n Hn. unfold adjust_contrast_value, minus_128.
    apply to_uint8_eq; [lia|].
    assert (Ei : Py.int (inject_Z n) = n).
    { rewrite int_floor, Qfloor_Z; [reflexivity|].
      change 0 with (inject_Z 0). rewrite <- Zle_Qle. lia. }
    rewrite Ei.
    assert (Em : ((n - 128) mod 256 = n - 128)%Z)
      by (apply Z.mod_small; lia).
    rewrite Em.
    assert (E : 128 + contrast_factor 0 * inject_Z (n - 128) == inject_Z n).
    { rewrite contrast_factor_zero. unfold Zminus.
      rewrite inject_Z_plus, inject_Z_opp. ring. }
    rewrite E. rewrite clip_fixes; [reflexivity| |].
    + change 0 with (inject_Z 0). rewrite <- Zle_Qle. lia.
    + change 255 with (inject_Z 255). rewrite <- Zle_Qle. lia.
  - intros n Hn. unfold adjust_contrast_value, minus_128.
    apply (to_uint8_eq _ 255%Z); [lia|].
    assert (Ei : Py.int (inject_Z n) = n).
    { rewrite int_floor, Qfloor_Z; [reflexivity|].
      change 0 with (inject_Z 0). rewrite <- Zle_Qle. lia. }
    rewrite Ei.
    assert (Em : ((n - 128) mod 256 = n + 128)%Z).
    { replace (n - 128)%Z with (n + 128 + (-1) * 256)%Z by lia.
      rewrite Z.mod_add by lia. apply Z.mod_small. lia. }
    rewrite Em.
    assert (E : 128 + contrast_factor 0 * inject_Z (n + 128)
                == inject_Z (n + 256)).
    { rewrite contrast_factor_zero. rewrite !inject_Z_plus. ring. }
    rewrite E. apply (clip_high _ 0 255); [lra|].
    change 255 with (inject_Z 255). rewrite <- Zle_Qle. lia.
Qed.

Lemma contrast_zero_saturates_dark_bytes_witness :
  adjust_contrast_value uint8 0 (inject_Z 100) = 255 /\
  adjust_contrast_value wide 0 (inject_Z 100) = inject_Z 100 /\
  adjust_contrast uint8 [[[0; 100; 127; 128; 200]]] 0
  = [[[255; 255; 255; 128; 200]]].
Proof.
  destruct (contrast_zero_saturates_dark_bytes 0 ltac:(lia))
    as (_ & Hw & _ & Hd).
  split; [apply Hd; lia|]. split; [apply Hw; lia|]. reflexivity.
Defined.

End ProcessingMore.

(** ** Masking and subsampling *)

Section BuildFacts.

Import ROI Build.

Lemma stride_from_nth {A} (f : nat) (l : list A) :
  (1 <= f)%nat ->
  forall k i, nth_error (stride_from f k l) i = nth_error l (k + i * f).
Proof.
  intros Hf. induction l as [|x rest IH]; intros k i; simpl.
  - now rewrite !nth_error_nil.
  - destruct k as [|k].
    + destruct i as [|i]; simpl; [reflexivity|].
      rewrite IH. replace (f + i * f)%nat with (S (f - 1 + i * f)) by lia.
      reflexivity.
    + rewrite IH. reflexivity.
Qed.

Lemma stride_In {A} (f k : nat) (l : list A) (x : A) :
  In x (stride_from f k l) -> In x l.
Proof.
  revert k. induction l as [|y rest IH]; intros k; simpl; [auto|].
  destruct k as [|k].
  - intros [E | H]; [auto|]. right. exact (IH _ H).
  - intros H. right. exact (IH _ H).
Qed.

(** [l[::f][i]] is [l[i * f]]. *)
Lemma index_stride {A} (f : Z) (l : list A) (i : Z) :
  1 <= f -> 0 <= i -> Py.index (stride f l) i = Py.index l (i * f).
Proof.
  intros Hf Hi. unfold Py.index, stride.
  replace (i <? 0) with false by (symmetry; apply Z.ltb_ge; lia).
  replace (i * f <? 0) with false by (symmetry; apply Z.ltb_ge; nia).
  rewrite stride_from_nth by lia. f_equal.
  rewrite Z2Nat.inj_mul by lia. reflexivity.
Qed.

(** The length [n'] of [l[::f]] is the least with [len <= n' * f]. *)
Lemma stride_length_le {A} (f : Z) (l : list A) (n : Z) :
  1 <= f -> 0 <= n ->
  (Z.of_nat (length (stride f l)) <= n <-> Z.of_nat (length l) <= n * f).
Proof.
  intros Hf Hn.
  pose proof (index_stride f l n Hf Hn) as E. unfold Py.index in E.
  replace (n <? 0) with false in E by (symmetry; apply Z.ltb_ge; lia).
  replace (n * f <? 0) with false in E by (symmetry; apply Z.ltb_ge; nia).
  split; intros H.
  - assert (N : nth_error (stride f l) (Z.to_nat n) = None)
      by (apply nth_error_None; lia).
    rewrite E in N. apply nth_error_None in N. lia.
  - assert (N : nth_error l (Z.to_nat (n * f)) = None)
      by (apply nth_error_None; lia).
    rewrite <- E in N. apply nth_error_None in N. lia.
Qed.

Lemma factor_positive (d : Z) : 1 <= downsample_factor d.
Proof. unfold downsample_factor. lia. Qed.

(** A subsampled axis has at most 511 entries. *)
Lemma stride_length_bound {A} (l : list A) :
  Z.of_nat (length (stride (downsample_factor (Z.of_nat (length l))) l))
  <= 511.
Proof.
  apply stride_length_le; [apply factor_positive | lia |].
  unfold downsample_factor, Py.floordiv, max_dim.
  set (n := Z.of_nat (length l)).
  pose proof (Z.div_mod n 256 ltac:(lia)) as D.
  pose proof (Z.mod_pos_bound n 256 ltac:(lia)) as M.
  assert (0 <= n / 256) by (apply Z.div_pos; lia). lia.
Qed.

Lemma index_map {A B} (f : A -> B) (l : list A) (i : Z) :
  Py.index (map f l) i = option_map f (Py.index l i).
Proof.
  unfold Py.index. destruct (i <? 0); [reflexivity|].
  apply nth_error_map.
Qed.

Lemma index_map2 {A B C} (f : A -> B -> C) (l : list A) (m : list B)
    (i : Z) :
  Py.index (map2 f l m) i =
  match Py.index l i, Py.index m i with
  | Some a, Some b => Some (f a b)
  | _, _ => None
  end.
Proof.
  unfold Py.index, map2. destruct (i <? 0); [reflexivity|].
  rewrite nth_error_map. generalize (Z.to_nat i). clear i.
  revert m. induction l as [|a l IH]; intros m n.
  - simpl. now destruct n.
  - destruct m as [|b m]; simpl.
    + destruct n; simpl; [reflexivity|]. now destruct (nth_error l n).
    + destruct n; simpl; [reflexivity|]. apply IH.
Qed.

Lemma get_multiply (a : NdArray.t Q) (m : NdArray.t bool) (z y x : Z) :
  NdArray.get (multiply a m) z y x =
  match NdArray.get a z y x, NdArray.get m z y x with
  | Some v, Some b => Some (times_mask v b)
  | _, _ => None
  end.
Proof.
  unfold NdArray.get, multiply. rewrite index_map2.
  destruct (Py.index a z) as [pa|]; [|reflexivity].
  destruct (Py.index m z) as [pm|].
  2: { destruct (Py.index pa y) as [ra|]; [|reflexivity].
       now destruct (Py.index ra x). }
  rewrite index_map2.
  destruct (Py.index pa y) as [ra|]; [|reflexivity].
  destruct (Py.index pm y) as [rm|].
  2: { now destruct (Py.index ra x). }
  apply index_map2.
Qed.

Lemma get_subsample {A} (a : NdArray.t A) (s0 s1 s2 i j k : Z) :
  0 <= i -> 0 <= j -> 0 <= k ->
  NdArray.get (subsample s0 s1 s2 a) i j k =
  if Z.max s0 (Z.max s1 s2) >? max_dim
  then NdArray.get a (i * downsample_factor s0) (j * downsample_factor s1)
                   (k * downsample_factor s2)
  else NdArray.get a i j k.
Proof.
  intros Hi Hj Hk. unfold subsample.
  destruct (Z.max s0 (Z.max s1 s2) >? max_dim); [|reflexivity].
  unfold NdArray.get. rewrite index_map.
  rewrite index_stride by (auto using factor_positive).
  destruct (Py.index a (i * downsample_factor s0)) as [plane|];
    [|reflexivity].
  simpl. rewrite index_map.
  rewrite index_stride by (auto using factor_positive).
  destruct (Py.index plane (j * downsample_factor s1)) as [row|];
    [|reflexivity].
  simpl. apply index_stride; auto using factor_positive.
Qed.

Lemma In_ravel {A} (a : NdArray.t A) (v : A) :
  In v (NdArray.ravel a) <->
  exists plane row, In plane a /\ In row plane /\ In v row.
Proof.
  unfold NdArray.ravel. rewrite in_concat. split.
  - intros (row & Hrow & Hv). apply in_concat in Hrow.
    destruct Hrow as (plane & Hp & Hr). eauto.
  - intros (plane & row & Hp & Hr & Hv). exists row. split; [|exact Hv].
    apply in_concat. eauto.
Qed.

Lemma get_In {A} (a : NdArray.t A) (z y x : Z) (v : A) :
  NdArray.get a z y x = Some v -> In v (NdArray.ravel a).
Proof.
  unfold NdArray.get.
  destruct (Py.index a z) as [plane|] eqn:Ep; [|discriminate].
  destruct (Py.index plane y) as [row|] eqn:Er; [|discriminate].
  intros Ev. apply In_ravel. exists plane, row.
  split; [|split]; eapply index_In; eassumption.
Qed.

(** Subsampling only drops entries. *)
Lemma subsample_In {A} (a : NdArray.t A) (s0 s1 s2 : Z) (v : A) :
  In v (NdArray.ravel (subsample s0 s1 s2 a)) -> In v (NdArray.ravel a).
Proof.
  unfold subsample.
  destruct (Z.max s0 (Z.max s1 s2) >? max_dim); [|auto].
  rewrite !In_ravel. intros (plane & row & Hp & Hr & Hv).
  apply in_map_iff in Hp. destruct Hp as (plane0 & <- & Hp0).
  apply in_map_iff in Hr. destruct Hr as (row0 & <- & Hr0).
  exists plane0, row0. unfold stride in *.
  split; [|split]; eapply stride_In; eassumption.
Qed.

Lemma In_map2 {A B C} (f : A -> B -> C) (l : list A) (m : list B) (c : C) :
  In c (map2 f l m) -> exists a b, In a l /\ In b m /\ c = f a b.
Proof.
  unfold map2. intros H. apply in_map_iff in H.
  destruct H as ([a b] & <- & Hin).
  exists a, b. split; [|split; [|reflexivity]].
  - eapply in_combine_l; eauto.
  - eapply in_combine_r; eauto.
Qed.

Lemma In_multiply (a : NdArray.t Q) (m : NdArray.t bool) (c : Q) :
  In c (NdArray.ravel (multiply a m)) ->
  exists v b, In v (NdArray.ravel a) /\ In b (NdArray.ravel m) /\
              c = times_mask v b.
Proof.
  rewrite In_ravel. intros (plane & row & Hp & Hr & Hc).
  unfold multiply in Hp. apply In_map2 in Hp.
  destruct Hp as (pa & pm & Hpa & Hpm & ->).
  apply In_map2 in Hr. destruct Hr as (ra & rm & Hra & Hrm & ->).
  apply In_map2 in Hc. destruct Hc as (v & b & Hv & Hb & ->).
  exists v, b. split; [|split; [|reflexivity]]; apply In_ravel; eauto.
Qed.

Lemma In_range (n i : Z) : In i (Py.range n) <-> 0 <= i < n.
Proof.
  unfold Py.range. rewrite in_map_iff. split.
  - intros (k & <- & Hk). apply in_seq in Hk. lia.
  - intros H. exists (Z.to_nat i). split; [lia|]. apply in_seq. lia.
Qed.

Lemma In_init {A} (f : Z -> Z -> Z -> A) (s0 s1 s2 : Z) (v : A) :
  In v (NdArray.ravel (NdArray.init s0 s1 s2 f)) ->
  exists z y x, 0 <= z < s0 /\ 0 <= y < s1 /\ 0 <= x < s2 /\ v = f z y x.
Proof.
  rewrite In_ravel. intros (plane & row & Hp & Hr & Hv).
  unfold NdArray.init in Hp. apply in_map_iff in Hp.
  destruct Hp as (z & <- & Hz). apply in_map_iff in Hr.
  destruct Hr as (y & <- & Hy). apply in_map_iff in Hv.
  destruct Hv as (x & <- & Hx).
  exists z, y, x. rewrite In_range in Hz, Hy, Hx. auto.
Qed.

(** A rectangular array with no zero dimension holds a voxel. *)
Lemma nonempty_size (data : NdArray.t Q) (s0 s1 s2 : Z) :
  NdArray.rectangular data s0 s1 s2 ->
  1 <= s0 -> 1 <= s1 -> 1 <= s2 ->
  (Np.size (NdArray.ravel data) =? 0) = false.
Proof.
  intros R P0 P1 P2.
  destruct (get_in_range data s0 s1 s2 0 0 0 R) as [v Hv]; try lia.
  apply get_In in Hv. apply Z.eqb_neq. unfold Np.size.
  destruct (NdArray.ravel data); [contradiction | simpl; lia].
Qed.

End BuildFacts.

(** ** The volume handed to the 3D widget *)

Section BuildShape.

Import ROI Axes Build.

Lemma stride_length {A} (f : Z) (l : list A) :
  1 <= f ->
  Z.of_nat (length (stride f l)) = strided_length (Z.of_nat (length l)) f.
Proof.
  intros Hf. unfold strided_length.
  set (len := Z.of_nat (length l)).
  set (L := Z.of_nat (length (stride f l))).
  assert (Hn : 0 <= (len + f - 1) / f) by (apply Z.div_pos; lia).
  assert (Hup : L <= (len + f - 1) / f).
  { apply stride_length_le; [exact Hf | exact Hn |]. fold len.
    pose proof (Z.div_mod (len + f - 1) f ltac:(lia)) as D.
    pose proof (Z.mod_pos_bound (len + f - 1) f ltac:(lia)) as M. lia. }
  assert (Hlow : len <= L * f).
  { apply (stride_length_le f l L); [exact Hf | lia | lia]. }
  assert ((len + f - 1) / f < L + 1); [|lia].
  apply Z.div_lt_upper_bound; nia.
Qed.

Lemma stride_Forall {A} (P : A -> Prop) (f : Z) (l : list A) :
  Forall P l -> Forall P (stride f l).
Proof.
  rewrite !Forall_forall. intros H x Hx. apply H.
  exact (stride_In _ _ _ _ Hx).
Qed.

Lemma strided_length_bound (n : Z) :
  0 <= n -> strided_length n (downsample_factor n) <= 511.
Proof.
  intros Hn. unfold strided_length, downsample_factor, Py.floordiv, max_dim.
  pose proof (Z.div_mod n 256 ltac:(lia)) as D.
  pose proof (Z.mod_pos_bound n 256 ltac:(lia)) as M.
  assert (0 <= n / 256) by (apply Z.div_pos; lia).
  set (f := Z.max 1 (n / 256)).
  assert (Hf : 1 <= f) by (unfold f; lia).
  assert ((n + f - 1) / f < 512); [|lia].
  apply Z.div_lt_upper_bound; [lia|]. unfold f in *. lia.
Qed.

(** X9.  Subsampling of a volume of shape [(s0, s1, s2)]: with no
    dimension above 256 the volume is kept as it is; otherwise axis
    [i] is read with the step [f_i = max(1, s_i // 256)], so the
    result has [ceil(s_i / f_i)] entries on it, entry [(i, j, k)] is
    entry [(i * f0, j * f1, k * f2)] of the volume, an axis shorter
    than 512 keeps all its entries and no axis keeps more than 511. *)
Theorem subsample_reads_every_fth_voxel {A} (a : NdArray.t A)
    (s0 s1 s2 : Z) (Hshape : NdArray.rectangular a s0 s1 s2) :
  let f0 := downsample_factor s0 in
  let f1 := downsample_factor s1 in
  let f2 := downsample_factor s2 in
  let d := subsample s0 s1 s2 a in
  (Z.max s0 (Z.max s1 s2) <= max_dim -> d = a) /\
  (max_dim < Z.max s0 (Z.max s1 s2) ->
   NdArray.rectangular d (strided_length s0 f0) (strided_length s1 f1)
                       (strided_length s2 f2) /\
   forall i j k, 0 <= i -> 0 <= j -> 0 <= k ->
     NdArray.get d i j k = NdArray.get a (i * f0) (j * f1) (k * f2)) /\
  (forall s, 0 <= s ->
     strided_length s (downsample_factor s) <= 511 /\
     (s < 512 -> downsample_factor s = 1 /\ strided_length s 1 = s)).
Proof.
  cbv zeta. split; [|split].
  - intros Hle. unfold subsample.
    replace (Z.max s0 (Z.max s1 s2) >? max_dim) with false; [reflexivity|].
    symmetry. rewrite Z.gtb_ltb. apply Z.ltb_ge. exact Hle.
  - intros Hgt. split.
    + unfold subsample.
      replace (Z.max s0 (Z.max s1 s2) >? max_dim) with true
        by (symmetry; rewrite Z.gtb_ltb; apply Z.ltb_lt; exact Hgt).
      destruct Hshape as [H0 Hall]. split.
      * rewrite length_map, stride_length by apply factor_positive.
        now rewrite H0.
      * apply Forall_map. apply stride_Forall.
        apply Forall_forall. intros plane Hp.
        rewrite Forall_forall in Hall. destruct (Hall _ Hp) as [H1 Hrows].
        split.
        -- rewrite length_map, stride_length by apply factor_positive.
           now rewrite H1.
        -- apply Forall_map. apply stride_Forall.
           apply Forall_forall. intros row Hr.
           rewrite Forall_forall in Hrows.
           rewrite stride_length by apply factor_positive.
           now rewrite (Hrows _ Hr).
    + intros i j k Hi Hj Hk. rewrite get_subsample by assumption.
      replace (Z.max s0 (Z.max s1 s2) >? max_dim) with true
        by (symmetry; rewrite Z.gtb_ltb; apply Z.ltb_lt; exact Hgt).
      reflexivity.
  - intros s Hs. split; [now apply strided_length_bound|].
    intros Hlt. assert (E : downsample_factor s = 1).
    { unfold downsample_factor, Py.floordiv, max_dim.
      assert (s / 256 < 2) by (apply Z.div_lt_upper_bound; lia). lia. }
    split; [exact E|]. unfold strided_length.
    replace (s + 1 - 1) with s by lia. apply Z.div_1_r.
Qed.

Lemma subsample_reads_every_fth_voxel_witness :
  let a := NdArray.init 2 1 600 (fun z y x => z + x) in
  NdArray.rectangular (subsample 2 1 600 a) 2 1 300 /\
  NdArray.get (subsample 2 1 600 a) 1 0 7 = Some 15.
Proof.
  assert (Hshape : NdArray.rectangular
                     (NdArray.init 2 1 600 (fun z y x => z + x)) 2 1 600).
  { split; [reflexivity|]. repeat constructor. }
  destruct (subsample_reads_every_fth_voxel _ 2 1 600 Hshape)
    as (_ & H & _).
  destruct (H ltac:(vm_compute; reflexivity)) as [Hr Hg].
  split; [exact Hr|]. rewrite Hg by lia. vm_compute. reflexivity.
Defined.

(** X10.  The ROI mask applied to a volume: inside the array, a voxel
    of the half-open box keeps its value and every other voxel
    becomes 0. *)
Theorem masked_volume_is_zero_outside_the_box
    (a : NdArray.t Q) (r : roi3d) (s0 s1 s2 z y x : Z) (v : Q)
    (Hshape : NdArray.rectangular a s0 s1 s2)
    (Hmax : 0 <= x_max r /\ 0 <= y_max r /\ 0 <= z_max r)
    (Hz : 0 <= z < s0) (Hy : 0 <= y < s1) (Hx : 0 <= x < s2)
    (Hv : NdArray.get a z y x = Some v) :
  NdArray.get (apply_roi_mask (Some r) a) z y x =
  Some (if ((z_min r <=? z) && (z <? z_max r)) &&
           ((y_min r <=? y) && (y <? y_max r)) &&
           ((x_min r <=? x) && (x <? x_max r))
        then v else 0%Q).
Proof.
  destruct Hmax as (Mx & My & Mz).
  destruct (rectangular_shape a s0 s1 s2 Hshape ltac:(lia) ltac:(lia))
    as (E0 & E1 & E2).
  unfold apply_roi_mask. rewrite E0, E1, E2. cbn [get_roi_mask].
  rewrite get_multiply, Hv, get_init.
  replace ((0 <=? z) && (z <? s0)) with true
    by (symmetry; apply andb_true_iff; rewrite Z.leb_le, Z.ltb_lt; lia).
  replace ((0 <=? y) && (y <? s1)) with true
    by (symmetry; apply andb_true_iff; rewrite Z.leb_le, Z.ltb_lt; lia).
  replace ((0 <=? x) && (x <? s2)) with true
    by (symmetry; apply andb_true_iff; rewrite Z.leb_le, Z.ltb_lt; lia).
  cbn [andb]. rewrite !in_slice_half_open by assumption.
  reflexivity.
Qed.

Lemma masked_volume_is_zero_outside_the_box_witness :
  let a := [[[1%Q; 2%Q; 3%Q]; [4%Q; 5%Q; 6%Q]]] in
  let r := mkRoi 1 3 0 1 0 1 axial in
  NdArray.get (apply_roi_mask (Some r) a) 0 0 2 = Some 3%Q /\
  NdArray.get (apply_roi_mask (Some r) a) 0 1 2 = Some 0%Q.
Proof.
  assert (Hshape : NdArray.rectangular
                     [[[1%Q; 2%Q; 3%Q]; [4%Q; 5%Q; 6%Q]]] 1 2 3).
  { split; [reflexivity|]. repeat constructor. }
  split.
  - apply (masked_volume_is_zero_outside_the_box
             _ (mkRoi 1 3 0 1 0 1 axial) 1 2 3 0 0 2 3%Q Hshape);
      cbn; try lia; reflexivity.
  - apply (masked_volume_is_zero_outside_the_box
             _ (mkRoi 1 3 0 1 0 1 axial) 1 2 3 0 1 2 6%Q Hshape);
      cbn; try lia; reflexivity.
Defined.

End BuildShape.

(** ** Volumes that cannot be rendered *)

Section BuildOutcome.

Import ROI Axes Build.

Variable map_coordinates :
  NdArray.t Q -> list Resampler.vertex -> option (list Q).
Variable np_percentile : list Q -> Q -> option Q.
Variable np_median : list Q -> Q.
Variable marching_cubes :
  NdArray.t Q -> Q -> option (list Resampler.vertex).

Local Abbreviation build_from :=
  (build_3d_from map_coordinates np_percentile np_median marching_cubes).
Local Abbreviation validity := Mayavi.build_3d_validity.

Lemma count_nonzero_of_zeros (l : list Q) :
  (forall v, In v l -> (v == 0)%Q) -> Np.count_nonzero l = 0.
Proof.
  intros H. unfold Np.count_nonzero, Np.size.
  replace (filter (fun v => negb (Qeq_bool v 0)) l) with (@nil Q);
    [reflexivity|].
  symmetry. induction l as [|a l IH]; [reflexivity|]. simpl.
  assert (E : Qeq_bool a 0 = true)
    by (apply Qeq_bool_iff, H; now left).
  rewrite E. simpl. apply IH. intros v Hv. apply H. now right.
Qed.

(** A volume of zeros does not pass the validity check. *)
Lemma zero_volume_is_invalid (flag : bool) (d : NdArray.t Q) :
  (forall v, In v (NdArray.ravel d) -> (v == 0)%Q) ->
  exists message,
    validity flag d = inl message /\
    (flag = true -> message = removed_message).
Proof.
  intros H. unfold Mayavi.build_3d_validity. destruct flag.
  - rewrite (count_nonzero_of_zeros _ H). simpl. eauto.
  - destruct (Np.min (NdArray.ravel d)) as [lo|] eqn:Elo.
    2: { eexists. split; [reflexivity | discriminate]. }
    destruct (Np.max (NdArray.ravel d)) as [hi|] eqn:Ehi.
    2: { eexists. split; [reflexivity | discriminate]. }
    destruct (min_spec _ _ Elo) as [Ilo _].
    destruct (max_spec _ _ Ehi) as [Ihi _].
    assert (E : Qle_bool hi lo = true).
    { apply Qle_bool_iff. rewrite (H _ Ilo), (H _ Ihi). apply Qle_refl. }
    rewrite E. eexists. split; [reflexivity | discriminate].
Qed.

Lemma build_3d_from_unfold (flag : bool) (roi : option roi3d)
    (original processed : NdArray.t Q) :
  (Np.size (NdArray.ravel original) =? 0) = false ->
  exists original',
    build_from flag roi original processed =
    let masked := apply_roi_mask roi processed in
    Mayavi.build_3d_view map_coordinates np_percentile np_median
      marching_cubes flag original'
      (subsample (NdArray.shape0 masked) (NdArray.shape1 masked)
                 (NdArray.shape2 masked) masked).
Proof.
  intros Hne. unfold build_3d_from, apply_roi_mask. rewrite Hne.
  destruct roi as [r|].
  - cbn [get_roi_mask]. eexists. reflexivity.
  - cbn [get_roi_mask]. eexists. reflexivity.
Qed.

(** On a masked volume of zeros the validity check raises, and the
    build ends in [UnboundLocalError]. *)
Lemma zero_volume_fails (flag : bool) (roi : option roi3d)
    (original processed : NdArray.t Q) :
  (Np.size (NdArray.ravel original) =? 0) = false ->
  (forall v, In v (NdArray.ravel (apply_roi_mask roi processed)) ->
             (v == 0)%Q) ->
  exists message,
    build_from flag roi original processed
    = Mayavi.UnboundLocalError message /\
    (flag = true -> message = removed_message).
Proof.
  intros Hne H.
  destruct (build_3d_from_unfold flag roi original processed Hne)
    as [o' ->].
  cbv zeta. unfold Mayavi.build_3d_view.
  set (masked := apply_roi_mask roi processed) in *.
  destruct (zero_volume_is_invalid flag
              (subsample (NdArray.shape0 masked) (NdArray.shape1 masked)
                         (NdArray.shape2 masked) masked))
    as (message & E & Hm).
  { intros v Hv. apply H. exact (subsample_In _ _ _ _ _ Hv). }
  rewrite E. eauto.
Qed.

(** A slice whose stop bound does not exceed its start is empty. *)
Lemma in_slice_empty (len lo hi i : Z) :
  0 <= len -> 0 <= hi <= lo ->
  in_slice len (Z.max 0 lo) (Z.min len hi) i = false.
Proof.
  intros Hlen H. unfold in_slice, Py.slice_bound.
  replace (Z.max 0 lo <? 0) with false by (symmetry; apply Z.ltb_ge; lia).
  replace (Z.min len hi <? 0) with false
    by (symmetry; apply Z.ltb_ge; lia).
  apply andb_false_iff. rewrite Z.leb_gt, Z.ltb_ge. lia.
Qed.

Lemma empty_axis_masks_everything (r : roi3d) (a : axis)
    (processed : NdArray.t Q) :
  (let '(lo, hi) := pair_of r a in 0 <= hi <= lo) ->
  forall v, In v (NdArray.ravel (apply_roi_mask (Some r) processed)) ->
            (v == 0)%Q.
Proof.
  intros Hempty v Hv. unfold apply_roi_mask in Hv.
  cbn [get_roi_mask] in Hv. apply In_multiply in Hv.
  destruct Hv as (w & b & _ & Hb & ->). apply In_init in Hb.
  destruct Hb as (z & y & x & _ & _ & _ & ->).
  assert (P0 : 0 <= NdArray.shape0 processed)
    by (unfold NdArray.shape0; lia).
  assert (P1 : 0 <= NdArray.shape1 processed)
    by (unfold NdArray.shape1; destruct processed; simpl; lia).
  assert (P2 : 0 <= NdArray.shape2 processed).
  { unfold NdArray.shape2. destruct processed as [|[|row p] t]; simpl; lia. }
  destruct a; cbn [pair_of] in Hempty.
  - rewrite (in_slice_empty _ (x_min r) (x_max r)) by assumption.
    rewrite andb_false_r. reflexivity.
  - rewrite (in_slice_empty _ (y_min r) (y_max r)) by assumption.
    rewrite andb_false_r. reflexivity.
  - rewrite (in_slice_empty _ (z_min r) (z_max r)) by assumption.
    reflexivity.
Qed.

(** X11.  With a ROI whose max bound on some axis does not exceed its
    min bound, the mask removes every voxel, so the validity check of
    the 3D build of a non-empty volume raises [ValueError] whatever
    the data and whether or not a processing step is applied (with a
    processing step, the one about data removed by processing); its
    handling ends in [UnboundLocalError], which leaves
    [build_3d_view]. *)
Theorem roi_empty_on_an_axis_fails_the_build
    (r : roi3d) (a : axis) (flag : bool)
    (original processed : NdArray.t Q) (s0 s1 s2 : Z)
    (Hempty : let '(lo, hi) := pair_of r a in 0 <= hi <= lo)
    (Hdims : 1 <= s0 /\ 1 <= s1 /\ 1 <= s2)
    (Horiginal : NdArray.rectangular original s0 s1 s2)
    (Hprocessed : NdArray.rectangular processed s0 s1 s2) :
  (forall v, In v (NdArray.ravel (apply_roi_mask (Some r) processed)) ->
             (v == 0)%Q) /\
  exists message,
    build_from flag (Some r) original processed
    = Mayavi.UnboundLocalError message /\
    (flag = true -> message = removed_message).
Proof.
  pose proof (empty_axis_masks_everything r a processed Hempty) as Hzero.
  split; [exact Hzero|]. apply zero_volume_fails; [|exact Hzero].
  destruct Hdims as (P0 & P1 & P2).
  exact (nonempty_size original s0 s1 s2 Horiginal P0 P1 P2).
Qed.

(** X12.  In a volume with fewer than 20 slices on the axis hidden by
    the view, the first ROI drawn has equal min and max bounds on that
    axis (the current slice index), so in the 3D build that follows
    the validity check raises and the build ends in
    [UnboundLocalError]. *)
Theorem first_roi_in_thin_volume_fails_the_build
    (size : image_size) (idx : slice_indices) (rect : QRectF)
    (o : orientation) (flag : bool)
    (original processed : NdArray.t Q)
    (Hthin : dim size (hidden o) < 20)
    (Hidx : 0 <= slice_index idx o < dim size (hidden o))
    (Hdims : 1 <= size0 size /\ 1 <= size1 size /\ 1 <= size2 size)
    (Horiginal : NdArray.rectangular original (size2 size) (size1 size)
                                     (size0 size))
    (Hprocessed : NdArray.rectangular processed (size2 size) (size1 size)
                                      (size0 size)) :
  exists r,
    convert_roi_to_3d_preserving_dimensions (Some size) None idx rect o
    = Some r /\
    pair_of r (hidden o) = (slice_index idx o, slice_index idx o) /\
    exists message,
      build_from flag (Some r) original processed
      = Mayavi.UnboundLocalError message /\
      (flag = true -> message = removed_message).
Proof.
  assert (Hband : forall d c, d < 20 -> 0 <= c < d ->
                    band_min d c = c /\ band_max d c = c).
  { intros d c Hd Hc. unfold band_min, band_max, thickness, Py.floordiv.
    assert (E : Z.max 1 (d / 10) = 1).
    { assert (d / 10 < 2) by (apply Z.div_lt_upper_bound; lia). lia. }
    rewrite E. change (1 / 2) with 0. lia. }
  assert (Hpair : exists r,
             convert_roi_to_3d_preserving_dimensions
               (Some size) None idx rect o = Some r /\
             pair_of r (hidden o) = (slice_index idx o, slice_index idx o)).
  { destruct o; cbn in Hthin, Hidx |- *;
      destruct (Hband _ _ Hthin Hidx) as [-> ->];
      eexists; split; reflexivity. }
  destruct Hpair as (r & Er & Ep). exists r. split; [exact Er|].
  split; [exact Ep|]. apply zero_volume_fails.
  - destruct Hdims as (P0 & P1 & P2).
    exact (nonempty_size original _ _ _ Horiginal P2 P1 P0).
  - apply (empty_axis_masks_everything r (hidden o)).
    rewrite Ep. lia.
Qed.

End BuildOutcome.

(** ** Instances of the build failures *)

Section BuildWitnesses.

Import ROI Axes Processing Build.
Local Open Scope Q_scope.

Lemma roi_empty_on_an_axis_fails_the_build_witness :
  build_3d_from (fun _ _ => None) (fun _ _ => None) (fun _ => 0)
                (fun _ _ => None) true
                (Some (mkRoi 2 2 0 1 0 1 axial)) [[[5]]] [[[5]]]
  = Mayavi.UnboundLocalError removed_message.
Proof.
  assert (Hshape : NdArray.rectangular [[[5]]] 1 1 1).
  { split; [reflexivity|]. repeat constructor. }
  destruct (roi_empty_on_an_axis_fails_the_build
              (fun _ _ => None) (fun _ _ => None) (fun _ => 0)
              (fun _ _ => None) (mkRoi 2 2 0 1 0 1 axial) X true
              [[[5]]] [[[5]]] 1 1 1 ltac:(cbn; lia) ltac:(lia)
              Hshape Hshape) as (_ & message & E & Hm).
  rewrite E, (Hm eq_refl). reflexivity.
Defined.

Lemma first_roi_in_thin_volume_fails_the_build_witness :
  let size := mkSize 4 4 10 in
  let volume := NdArray.init 10 4 4 (fun _ _ _ => 1) in
  exists r,
    convert_roi_to_3d_preserving_dimensions
      (Some size) None (mkIdx 3 0 0) (mkRect 0 0 100 100) axial = Some r /\
    (z_min r, z_max r) = (3%Z, 3%Z) /\
    build_3d_from (fun _ _ => None) (fun _ _ => None) (fun _ => 0)
                  (fun _ _ => None) false (Some r) volume volume
    <> Mayavi.Rendered [Mayavi.ClearFigure] Mayavi.NoVariation.
Proof.
  assert (Hshape : NdArray.rectangular
                     (NdArray.init 10 4 4 (fun _ _ _ => 1)) 10 4 4).
  { split; [reflexivity|]. repeat constructor. }
  destruct (first_roi_in_thin_volume_fails_the_build
              (fun _ _ => None) (fun _ _ => None) (fun _ => 0)
              (fun _ _ => None) (mkSize 4 4 10) (mkIdx 3 0 0)
              (mkRect 0 0 100 100) axial false _ _
              ltac:(cbn; lia) ltac:(cbn; lia) ltac:(cbn; lia)
              Hshape Hshape)
    as (r & Er & Ep & message & E & _).
  exists r. split; [exact Er|]. split; [exact Ep|].
  cbv zeta. rewrite E. discriminate.
Defined.

End BuildWitnesses.

(** ** The processing pipeline in front of the 3D build *)

Section PipelineOutcome.

Import ROI Axes Processing Build.
Local Open Scope Q_scope.

Variable map_coordinates :
  NdArray.t Q -> list Resampler.vertex -> option (list Q).
Variable np_percentile : list Q -> Q -> option Q.
Variable np_median : list Q -> Q.
Variable marching_cubes :
  NdArray.t Q -> Q -> option (list Resampler.vertex).

Local Abbreviation build :=
  (build_3d_view map_coordinates np_percentile np_median marching_cubes).

Lemma contrast_value_is_byte (dt : dtype) (contrast_value : Z) (v : Q) :
  byte (adjust_contrast_value dt contrast_value v).
Proof.
  unfold adjust_contrast_value.
  destruct (clip_between
              (128 + contrast_factor contrast_value * minus_128 dt v) 0 255)
    as [L U]; [lra|].
  exact (to_uint8_range _ L U).
Qed.

Lemma windowing_value_is_byte (min_val max_val : Z) (v : Q) :
  byte (apply_windowing_value min_val max_val v).
Proof. apply (proj1 (windowing_value_is_total min_val max_val)). Qed.

Lemma threshold_value_is_byte (threshold_value : Z) (v : Q) :
  byte v -> byte (apply_threshold_value threshold_value v).
Proof.
  intros H. unfold apply_threshold_value.
  destruct (Np.ltb (inject_Z threshold_value) v); [exact H|].
  exists 0%Z. split; [reflexivity | lia].
Qed.

Lemma threshold_above_byte (threshold_value : Z) (v : Q) :
  (255 <= threshold_value)%Z -> byte v ->
  apply_threshold_value threshold_value v = 0.
Proof.
  intros Ht (n & -> & Hn). unfold apply_threshold_value, Np.ltb.
  replace (Qle_bool (inject_Z n) (inject_Z threshold_value)) with true;
    [reflexivity|].
  symmetry. apply Qle_bool_iff. rewrite <- Zle_Qle. lia.
Qed.

Lemma get_map3 {A B} (f : A -> B) (a : NdArray.t A) (z y x : Z) :
  NdArray.get (map3 f a) z y x = option_map f (NdArray.get a z y x).
Proof.
  unfold NdArray.get, map3. rewrite index_map.
  destruct (Py.index a z) as [plane|]; [|reflexivity]. simpl.
  rewrite index_map.
  destruct (Py.index plane y) as [row|]; [|reflexivity]. simpl.
  apply index_map.
Qed.

Lemma mask_keeps_zeros (roi : option roi3d) (p : NdArray.t Q) :
  (forall v, In v (NdArray.ravel p) -> v == 0) ->
  forall v, In v (NdArray.ravel (apply_roi_mask roi p)) -> v == 0.
Proof.
  intros H v. unfold apply_roi_mask. destruct roi as [r|]; [|apply H].
  cbn [get_roi_mask]. intros Hv. apply In_multiply in Hv.
  destruct Hv as (w & b & Hw & _ & ->). unfold times_mask.
  destruct b; [now apply H | reflexivity].
Qed.

Lemma filter_nonempty {A} (p : A -> bool) (l : list A) (x : A) :
  In x l -> p x = true -> filter p l <> [].
Proof.
  intros Hin Hp E. assert (H : In x (filter p l))
    by (apply filter_In; auto).
  rewrite E in H. exact H.
Qed.

(** A non-empty volume holding one non-zero value everywhere passes
    the check made on processed data and shows nothing. *)
Lemma flat_volume_outcome (original d : NdArray.t Q) (c x : Q) :
  ~ c == 0 -> In x (NdArray.ravel d) ->
  (forall v, In v (NdArray.ravel d) -> v = c) ->
  Mayavi.build_3d_view map_coordinates np_percentile np_median
    marching_cubes true original d
  = Mayavi.Rendered [Mayavi.ClearFigure] Mayavi.NoVariation.
Proof.
  intros Hc Hx Hall. unfold Mayavi.build_3d_view, Mayavi.build_3d_validity.
  assert (Hcount : (Np.count_nonzero (NdArray.ravel d) =? 0)%Z = false).
  { apply Z.eqb_neq. unfold Np.count_nonzero, Np.size.
    assert (N : filter (fun v => negb (Qeq_bool v 0)) (NdArray.ravel d)
                <> []).
    { apply (filter_nonempty _ _ x Hx). rewrite (Hall _ Hx).
      apply negb_true_iff. destruct (Qeq_bool c 0) eqn:E; [|reflexivity].
      apply Qeq_bool_iff in E. contradiction. }
    destruct (filter _ (NdArray.ravel d)); [contradiction | simpl; lia]. }
  rewrite Hcount. unfold Mayavi.update_scene.
  destruct (Np.min (NdArray.ravel d)) as [lo|] eqn:Elo.
  2: { destruct (NdArray.ravel d); [contradiction | discriminate]. }
  destruct (Np.max (NdArray.ravel d)) as [hi|] eqn:Ehi.
  2: { destruct (NdArray.ravel d); [contradiction | discriminate]. }
  destruct (min_spec _ _ Elo) as [Ilo _].
  destruct (max_spec _ _ Ehi) as [Ihi _].
  rewrite (Hall _ Ilo), (Hall _ Ihi).
  replace (Qle_bool c c) with true
    by (symmetry; apply Qle_bool_iff; apply Qle_refl).
  reflexivity.
Qed.

(** X13.  With windowing applied, every value that [apply_processing]
    returns is an integer between 0 and 255, whatever the input
    values, the threshold and the contrast setting. *)
Theorem windowed_pipeline_yields_bytes
    (st : settings) (dt : dtype) (a : NdArray.t Q)
    (Hwindowing : windowing_applied st = true)
    (Hcontrast : (0 <= contrast_slider st <= 100)%Z) :
  Forall byte (NdArray.ravel (apply_processing st dt a)).
Proof.
  unfold apply_processing. rewrite Hwindowing.
  destruct (get_values (window_center st) (window_width st))
    as [min_val max_val].
  apply Forall_forall. intros v.
  destruct (threshold_applied st), (contrast_applied st);
    unfold adjust_contrast, apply_threshold, apply_windowing;
    rewrite ?ravel_map3, ?in_map_iff.
  - intros (w & <- & _). apply contrast_value_is_byte.
  - intros (w & <- & Hw). apply in_map_iff in Hw.
    destruct Hw as (u & <- & _).
    apply threshold_value_is_byte, windowing_value_is_byte.
  - intros (w & <- & _). apply contrast_value_is_byte.
  - intros (w & <- & _). apply windowing_value_is_byte.
Qed.

(** X14.  With windowing applied, a threshold of 255 or more and no
    contrast step, [apply_processing] returns zeros only; in the 3D
    build of a non-empty volume the validity check then raises the
    [ValueError] about data removed by processing, with or without a
    ROI, and its handling ends in [UnboundLocalError], which leaves
    [build_3d_view]. *)
Theorem full_threshold_after_windowing_removes_everything
    (st : settings) (dt : dtype) (roi : option roi3d) (a : NdArray.t Q)
    (s0 s1 s2 : Z)
    (Hwindowing : windowing_applied st = true)
    (Hthreshold : threshold_applied st = true)
    (Hslider : (255 <= threshold_slider st)%Z)
    (Hcontrast : contrast_applied st = false)
    (Hdims : (1 <= s0 /\ 1 <= s1 /\ 1 <= s2)%Z)
    (Hshape : NdArray.rectangular a s0 s1 s2) :
  Forall (fun v => v = 0) (NdArray.ravel (apply_processing st dt a)) /\
  build st dt roi a = Mayavi.UnboundLocalError removed_message.
Proof.
  assert (Hzero : forall v, In v (NdArray.ravel (apply_processing st dt a))
                            -> v = 0).
  { unfold apply_processing.
    rewrite Hwindowing, Hthreshold, Hcontrast.
    destruct (get_values (window_center st) (window_width st))
      as [min_val max_val].
    unfold apply_threshold, apply_windowing. rewrite !ravel_map3.
    intros v Hv. apply in_map_iff in Hv. destruct Hv as (w & <- & Hw).
    apply in_map_iff in Hw. destruct Hw as (u & <- & _).
    apply threshold_above_byte; [exact Hslider|].
    apply windowing_value_is_byte. }
  split; [apply Forall_forall; exact Hzero|].
  unfold build_3d_view, any_processing_applied.
  rewrite Hwindowing, Hthreshold. cbn [orb].
  destruct Hdims as (P0 & P1 & P2).
  destruct (zero_volume_fails map_coordinates np_percentile np_median
              marching_cubes true roi a (apply_processing st dt a))
    as (message & E & Hm).
  { exact (nonempty_size a s0 s1 s2 Hshape P0 P1 P2). }
  { apply mask_keeps_zeros. intros v Hv. rewrite (Hzero _ Hv). reflexivity. }
  rewrite E, (Hm eq_refl). reflexivity.
Qed.

(** X15.  With windowing applied at width 1 and no other step, every
    processed voxel is 127; without a ROI the 3D build of a non-empty
    volume passes the validity check and then shows nothing, the
    widget finding no variation in the data. *)
Theorem flat_window_builds_no_surface
    (st : settings) (dt : dtype) (a : NdArray.t Q) (s0 s1 s2 : Z)
    (Hwindowing : windowing_applied st = true)
    (Hwidth : window_width st = 1%Z)
    (Hthreshold : threshold_applied st = false)
    (Hcontrast : contrast_applied st = false)
    (Hdims : (1 <= s0 /\ 1 <= s1 /\ 1 <= s2)%Z)
    (Hshape : NdArray.rectangular a s0 s1 s2) :
  Forall (fun v => v = 127) (NdArray.ravel (apply_processing st dt a)) /\
  build st dt None a
  = Mayavi.Rendered [Mayavi.ClearFigure] Mayavi.NoVariation.
Proof.
  assert (Eproc : apply_processing st dt a =
                  map3 (fun _ => 127) a).
  { unfold apply_processing.
    rewrite Hwindowing, Hthreshold, Hcontrast, Hwidth.
    unfold get_values, Py.floordiv. change (1 / 2)%Z with 0%Z.
    unfold apply_windowing, map3.
    apply map_ext. intros plane. apply map_ext. intros row.
    apply map_ext. intros v.
    apply (proj2 (windowing_value_is_total _ _)). lia. }
  assert (Hall : forall v, In v (NdArray.ravel (apply_processing st dt a))
                           -> v = 127).
  { rewrite Eproc, ravel_map3. intros v Hv. apply in_map_iff in Hv.
    destruct Hv as (u & <- & _). reflexivity. }
  split; [apply Forall_forall; exact Hall|].
  unfold build_3d_view, any_processing_applied.
  rewrite Hwindowing, Hthreshold. cbn [orb].
  destruct Hdims as (P0 & P1 & P2).
  unfold build_3d_from.
  rewrite (nonempty_size a s0 s1 s2 Hshape P0 P1 P2).
  set (p := apply_processing st dt a) in *.
  destruct (get_in_range a s0 s1 s2 0 0 0 Hshape) as [u Hu]; try lia.
  assert (Hget : NdArray.get p 0 0 0 = Some 127).
  { rewrite Eproc, get_map3, Hu. reflexivity. }
  apply (flat_volume_outcome _ _ 127 127).
  - intros E. discriminate E.
  - apply (get_In _ 0 0 0). rewrite get_subsample by lia.
    destruct (_ >? max_dim)%Z; exact Hget.
  - intros v Hv. apply Hall. exact (subsample_In _ _ _ _ _ Hv).
Qed.

End PipelineOutcome.

(** ** Instances of the pipeline outcomes *)

Section PipelineWitnesses.

Import ROI Processing Build.
Local Open Scope Q_scope.

Lemma windowed_pipeline_yields_bytes_witness :
  Forall byte
    (NdArray.ravel
       (apply_processing (mkSettings true 40 400 true 128 true 50) wide
                         [[[-1000; 40; 2000]]])).
Proof.
  apply windowed_pipeline_yields_bytes; [reflexivity | cbn; lia].
Defined.

Lemma full_threshold_after_windowing_removes_everything_witness :
  build_3d_view (fun _ _ => None) (fun _ _ => None) (fun _ => 0)
                (fun _ _ => None)
                (mkSettings true 40 400 true 255 false 0) wide None
                [[[100; 300]]]
  = Mayavi.UnboundLocalError removed_message.
Proof.
  assert (Hshape : NdArray.rectangular [[[100; 300]]] 1 1 2).
  { split; [reflexivity|]. repeat constructor. }
  apply (full_threshold_after_windowing_removes_everything
           (fun _ _ => None) (fun _ _ => None) (fun _ => 0)
           (fun _ _ => None) (mkSettings true 40 400 true 255 false 0)
           wide None [[[100; 300]]] 1 1 2);
    try reflexivity; try exact Hshape; cbn; lia.
Defined.

Lemma flat_window_builds_no_surface_witness :
  build_3d_view (fun _ _ => None) (fun _ _ => None) (fun _ => 0)
                (fun _ _ => None)
                (mkSettings true 40 1 false 128 false 0) wide None
                [[[100; 300]]]
  = Mayavi.Rendered [Mayavi.ClearFigure] Mayavi.NoVariation.
Proof.
  assert (Hshape : NdArray.rectangular [[[100; 300]]] 1 1 2).
  { split; [reflexivity|]. repeat constructor. }
  apply (flat_window_builds_no_surface
           (fun _ _ => None) (fun _ _ => None) (fun _ => 0)
           (fun _ _ => None) (mkSettings true 40 1 false 128 false 0)
           wide [[[100; 300]]] 1 1 2);
    try reflexivity; try exact Hshape; cbn; lia.
Defined.

End PipelineWitnesses.

(** ** The windowing tool *)

Section WindowingFacts.

Import Windowing.
Local Open Scope string_scope.

(** What holds of the tool at any time. *)
Local Abbreviation invariant t :=
  ((min_hu <= center t <= max_hu /\ 1 <= width t <= 4000) /\
   combo_text t = current_preset t /\
   (forall c w, current_preset t <> "Custom" ->
                lookup (current_preset t) window_presets = Some (c, w) ->
                center t = c /\ width t = w)).

Lemma bounded_range (lo hi v : Z) :
  lo <= hi -> lo <= bounded lo hi v <= hi.
Proof. unfold bounded. lia. Qed.

Lemma preset_in_range (name : string) (c w : Z) :
  lookup name window_presets = Some (c, w) ->
  bounded min_hu max_hu c = c /\ bounded 1 4000 w = w.
Proof.
  unfold window_presets, lookup.
  repeat match goal with
         | |- context [String.eqb ?k name] => destruct (String.eqb k name)
         end;
    intros E; try discriminate; injection E as <- <-; split; reflexivity.
Qed.

Lemma slider_changed_invariant (t : tool) :
  (min_hu <= center t <= max_hu /\ 1 <= width t <= 4000) ->
  (String.eqb (current_preset t) "Custom" = true ->
   combo_text t = current_preset t) ->
  invariant (slider_changed t).
Proof.
  intros Hrange Hcombo. unfold slider_changed.
  destruct (String.eqb (current_preset t) "Custom") eqn:E.
  - split; [exact Hrange|]. split; [now apply Hcombo|].
    intros c w Hne. apply String.eqb_eq in E. contradiction.
  - cbn. split; [exact Hrange|]. split; [reflexivity|].
    intros c w Hne. contradiction.
Qed.

Lemma step_invariant (a : action) (t : tool) :
  invariant t -> invariant (step a t).
Proof.
  intros (Hrange & Hcombo & Hpreset).
  assert (Hc : forall v, invariant (set_center v t)).
  { intros v. unfold set_center.
    destruct (bounded min_hu max_hu v =? center t)%Z;
      [exact (conj Hrange (conj Hcombo Hpreset))|].
    apply slider_changed_invariant; cbn.
    - split; [apply bounded_range; unfold min_hu, max_hu; lia | tauto].
    - intros _. exact Hcombo. }
  assert (Hw : forall v, invariant (set_width v t)).
  { intros v. unfold set_width.
    destruct (bounded 1 4000 v =? width t)%Z;
      [exact (conj Hrange (conj Hcombo Hpreset))|].
    apply slider_changed_invariant; cbn.
    - split; [tauto | apply bounded_range; lia].
    - intros _. exact Hcombo. }
  destruct a as [name| v | v | | | | ]; cbn [step]; auto.
  unfold on_preset_changed.
  destruct (String.eqb name "Custom") eqn:E.
  - cbn. apply String.eqb_eq in E. subst name.
    split; [exact Hrange|]. split; [reflexivity|].
    intros c w Hne. contradiction.
  - unfold apply_preset. cbn [current_preset combo_text center width].
    destruct (lookup name window_presets) as [[c w]|] eqn:El.
    + destruct (preset_in_range _ _ _ El) as [Ec Ew]. cbn.
      rewrite Ec, Ew. split.
      * pose proof (bounded_range min_hu max_hu c) as Bc.
        pose proof (bounded_range 1 4000 w) as Bw.
        rewrite Ec in Bc. rewrite Ew in Bw.
        unfold min_hu, max_hu in *. lia.
      * split; [reflexivity|]. intros c' w' _ E'.
        injection E' as <- <-. auto.
    + cbn. split; [exact Hrange|]. split; [reflexivity|].
      intros c w _ E'. discriminate.
Qed.

(** X16.  The windowing tool after any sequence of user actions
    (preset selections, slider moves, clicks on the +/- labels): the
    centre lies within [-1024, 3071] and the width within [1, 4000];
    the combo box shows the current preset; while a preset other than
    Custom is current the sliders hold exactly that preset's centre
    and width; and the window returned by [get_values] is never
    inverted. *)
Theorem windowing_tool_invariants (actions : list action) :
  let t := run actions in
  (min_hu <= center t <= max_hu /\ 1 <= width t <= 4000) /\
  combo_text t = current_preset t /\
  (forall c w, current_preset t <> "Custom" ->
               lookup (current_preset t) window_presets = Some (c, w) ->
               get_center_width t = (c, w)) /\
  fst (get_values t) <= snd (get_values t).
Proof.
  cbv zeta. unfold run.
  assert (H0 : invariant initial).
  { split; [cbv; repeat split; discriminate|].
    split; [reflexivity|]. intros c w _ E. cbv in E.
    injection E as <- <-. split; reflexivity. }
  revert H0. generalize initial.
  induction actions as [|a actions IH]; intros t Ht; simpl.
  - destruct Ht as (Hrange & Hcombo & Hpreset).
    split; [exact Hrange|]. split; [exact Hcombo|]. split.
    + intros c w Hne El. unfold get_center_width.
      destruct (Hpreset c w Hne El) as [-> ->]. reflexivity.
    + unfold get_values, Processing.get_values, Py.floordiv. simpl.
      assert (0 <= width t / 2) by (apply Z.div_pos; lia). lia.
  - apply IH. now apply step_invariant.
Qed.

End WindowingFacts.

(** ** Interpolated densities *)

Section InterpolationRange.

Import Resampler Enhanced.
Local Open Scope Q_scope.

Variable np_std : list Q -> Q.
Variable marching_cubes : NdArray.t Q -> Q -> option (list vertex).

Lemma lerp_between (m M a b w : Q) :
  m <= a <= M -> m <= b <= M -> 0 <= w <= 1 ->
  m <= lerp a b w <= M.
Proof.
  intros [La Ua] [Lb Ub] [L U]. unfold lerp.
  assert (A1 : 0 <= (a - m) * (1 - w)) by (apply Qmult_le_0_compat; lra).
  assert (A2 : 0 <= (b - m) * w) by (apply Qmult_le_0_compat; lra).
  assert (A3 : 0 <= (M - a) * (1 - w)) by (apply Qmult_le_0_compat; lra).
  assert (A4 : 0 <= (M - b) * w) by (apply Qmult_le_0_compat; lra).
  split; lra.
Qed.

Lemma clamped_weight (c : Q) (dim : Z) :
  (1 <= dim)%Z ->
  let c' := clip_coord c dim in
  0 <= weight c' (bound_index (Py.floor c') dim)
                 (bound_index (Py.ceil c') dim) <= 1.
Proof.
  intros Hd c'. pose proof (top_index_nonneg dim Hd) as T.
  destruct (clip_between c 0 (inject_Z (dim - 1)) T) as [L U].
  apply weight_unit_interval; assumption.
Qed.

Lemma sample_between (data : NdArray.t Q) (s0 s1 s2 : Z) (v : vertex)
    (m M d : Q) :
  NdArray.rectangular data s0 s1 s2 ->
  (1 <= s0)%Z -> (1 <= s1)%Z -> (1 <= s2)%Z ->
  (forall x, In x (NdArray.ravel data) -> m <= x <= M) ->
  sample data v = Some d -> m <= d <= M.
Proof.
  intros R P0 P1 P2 Hall. destruct v as [[z y] x]. unfold sample.
  destruct (rectangular_shape data s0 s1 s2 R P0 P1) as (-> & -> & ->).
  pose proof (clamped_weight z s0 P0) as Wz.
  pose proof (clamped_weight y s1 P1) as Wy.
  pose proof (clamped_weight x s2 P2) as Wx.
  cbv zeta in Wz, Wy, Wx.
  repeat match goal with
         | |- context [match NdArray.get data ?a ?b ?c with _ => _ end] =>
             let E := fresh "E" in
             destruct (NdArray.get data a b c) eqn:E;
             [apply get_In, Hall in E | discriminate]
         end.
  intros D. injection D as <-.
  repeat apply lerp_between; assumption.
Qed.

Lemma sample_many_between (data : NdArray.t Q) (s0 s1 s2 : Z) (m M : Q) :
  NdArray.rectangular data s0 s1 s2 ->
  (1 <= s0)%Z -> (1 <= s1)%Z -> (1 <= s2)%Z ->
  (forall x, In x (NdArray.ravel data) -> m <= x <= M) ->
  forall vs, exists ds,
    sample_many data vs = Some ds /\ length ds = length vs /\
    Forall (fun d => m <= d <= M) ds.
Proof.
  intros R P0 P1 P2 Hall vs. induction vs as [|v vs IH]; simpl.
  - exists []. auto.
  - destruct (sample_defined data s0 s1 s2 v R P0 P1 P2) as [d Ed].
    destruct IH as (ds & -> & Hlen & Hds). rewrite Ed.
    exists (d :: ds). split; [reflexivity|]. split; [simpl; congruence|].
    constructor; [|exact Hds].
    exact (sample_between data s0 s1 s2 v m M d R P0 P1 P2 Hall Ed).
Qed.

Lemma blend_rounding_nonneg (lo hi : Q) : 0 <= blend_rounding lo hi.
Proof.
  unfold blend_rounding, Qdiv.
  apply Qmult_le_0_compat.
  - pose proof (Qabs_nonneg lo). pose proof (Qabs_nonneg hi). lra.
  - apply Qlt_le_weak, Qinv_lt_0_compat. reflexivity.
Qed.

Lemma between_in_range (lo hi d : Q) : lo <= d <= hi -> in_range lo hi d.
Proof.
  intros [L U]. pose proof (blend_rounding_nonneg lo hi).
  unfold in_range. split; lra.
Qed.

(** X17.  For a non-empty field, the densities that
    [interpolate_density_at_vertices] returns are one per vertex and,
    up to the rounding of the blends, never leave the range of the
    data, wherever the vertices lie; so every surface that
    [create_density_colored_surface] builds carries one density per
    vertex, each between the minimum and the maximum of the field up
    to that rounding. *)
Theorem interpolated_densities_stay_in_data_range
    (data : NdArray.t Q) (s0 s1 s2 : Z) (data_min data_max : Q)
    (R : NdArray.rectangular data s0 s1 s2)
    (P0 : (1 <= s0)%Z) (P1 : (1 <= s1)%Z) (P2 : (1 <= s2)%Z)
    (Hmin : Np.min (NdArray.ravel data) = Some data_min)
    (Hmax : Np.max (NdArray.ravel data) = Some data_max) :
  (forall vertices,
      let ds := interpolate_density_at_vertices data vertices in
      length ds = length vertices /\
      Forall (in_range data_min data_max) ds) /\
  (forall iso_level level vertices ds,
      create_density_colored_surface np_std marching_cubes data iso_level
      = Built level vertices ds ->
      marching_cubes data level = Some vertices /\
      length ds = length vertices /\
      Forall (in_range data_min data_max) ds).
Proof.
  assert (Hall : forall x, In x (NdArray.ravel data) ->
                           data_min <= x <= data_max).
  { intros x Hx. destruct (min_spec _ _ Hmin) as [_ Lo].
    destruct (max_spec _ _ Hmax) as [_ Hi].
    rewrite Forall_forall in Lo, Hi. split; [apply Lo | apply Hi]; exact Hx. }
  assert (Hint : forall vertices,
             length (interpolate_density_at_vertices data vertices)
             = length vertices /\
             Forall (in_range data_min data_max)
                    (interpolate_density_at_vertices data vertices)).
  { intros vs. unfold interpolate_density_at_vertices.
    destruct (sample_many_between data s0 s1 s2 data_min data_max
                R P0 P1 P2 Hall vs) as (ds & -> & Hlen & Hds).
    split; [assumption|].
    eapply Forall_impl; [|exact Hds].
    intros d Hd. apply between_in_range. exact Hd. }
  split; [exact Hint|].
  intros iso_level level vertices ds.
  unfold create_density_colored_surface. rewrite Hmin, Hmax.
  destruct (marching_cubes data _) as [vs|] eqn:Emc; [|discriminate].
  intros E. injection E as <- <- <-.
  split; [exact Emc|]. apply Hint.
Qed.

End InterpolationRange.

Section InterpolationInstance.

Import Resampler Enhanced.
Local Open Scope Q_scope.

Lemma interpolated_densities_stay_in_data_range_witness :
  Forall (in_range 10 30)
         (interpolate_density_at_vertices
            [[[10; 30]]] [(0, 0, 1 # 2); (5, -3, 7)]).
Proof.
  assert (R : NdArray.rectangular [[[10; 30]]] 1 1 2).
  { split; [reflexivity|]. repeat constructor. }
  destruct (interpolated_densities_stay_in_data_range
              (fun _ => 0) (fun _ _ => None) [[[10; 30]]] 1 1 2 10 30 R
              ltac:(lia) ltac:(lia) ltac:(lia) eq_refl eq_refl)
    as [H _].
  exact (proj2 (H [(0, 0, 1 # 2); (5, -3, 7)])).
Defined.

End InterpolationInstance.

(** ** The scene of the Mayavi widget *)

Section SceneFacts.

Import Resampler Mayavi.
Local Open Scope Q_scope.

Variable map_coordinates : NdArray.t Q -> list vertex -> option (list Q).
Variable np_percentile : list Q -> Q -> option Q.
Variable np_median : list Q -> Q.
Variable marching_cubes : NdArray.t Q -> Q -> option (list vertex).

Local Abbreviation sample_for_surface :=
  (sample_density_at_vertices_for_surface map_coordinates np_percentile).
Local Abbreviation scene_of :=
  (update_scene map_coordinates np_percentile np_median marching_cubes).

Lemma linspace_between (a b : Q) (n : Z) :
  a <= b -> Forall (fun d => a <= d <= b) (Np.linspace a b n).
Proof.
  intros Hab. unfold Np.linspace.
  destruct (Z.eqb_spec n 1) as [-> | Hn].
  - constructor; [lra | constructor].
  - apply Forall_forall. intros d Hd. apply in_map_iff in Hd.
    destruct Hd as (i & <- & Hi). apply In_range in Hi.
    assert (Hpos : 0 < inject_Z (n - 1)).
    { change 0 with (inject_Z 0). rewrite <- Zlt_Qlt. lia. }
    set (s := (b - a) / inject_Z (n - 1)).
    assert (Hs : 0 <= s) by (apply div_nonneg; lra).
    assert (Hi0 : 0 <= inject_Z i).
    { change 0 with (inject_Z 0). rewrite <- Zle_Qle. lia. }
    assert (Hi1 : inject_Z i <= inject_Z (n - 1))
      by (rewrite <- Zle_Qle; lia).
    assert (Htop : inject_Z (n - 1) * s == b - a)
      by (unfold s; field; lra).
    pose proof (Qmult_le_0_compat _ _ Hi0 Hs) as L.
    pose proof (Qmult_le_compat_r _ _ s Hi1 Hs) as U.
    split; lra.
Qed.

Lemma fallback_in_band (iso_level : Q) (n : Z) :
  Forall (fun d =>
            (100 < iso_level -> 200 <= d <= 1000) /\
            (0 < iso_level -> iso_level <= 100 -> 0 <= d <= 200) /\
            (iso_level <= 0 -> -500 <= d <= 0))
         (fallback_values iso_level n).
Proof.
  unfold fallback_values.
  destruct (Np.ltb 100 iso_level) eqn:E1;
    [|destruct (Np.ltb 0 iso_level) eqn:E2].
  - apply ltb_lt in E1.
    eapply Forall_impl; [|apply (linspace_between 200 1000); lra].
    intros d Hd. cbv beta in Hd. repeat split; intros; lra.
  - apply ltb_lt in E2.
    assert (N1 : ~ 100 < iso_level)
      by (intros H; apply ltb_lt in H; congruence).
    eapply Forall_impl; [|apply (linspace_between 0 200); lra].
    intros d Hd. cbv beta in Hd. repeat split; intros; lra.
  - assert (N1 : ~ 100 < iso_level)
      by (intros H; apply ltb_lt in H; congruence).
    assert (N2 : ~ 0 < iso_level)
      by (intros H; apply ltb_lt in H; congruence).
    eapply Forall_impl; [|apply (linspace_between (-500) 0); lra].
    intros d Hd. cbv beta in Hd. repeat split; intros; lra.
Qed.

Lemma band_filter_in_band (iso_level : Q) (raw ds : list Q) :
  band_filter np_percentile true iso_level raw = Some (Some ds) ->
  Forall (fun d =>
            (100 < iso_level -> 150 < d) /\
            (0 < iso_level -> iso_level <= 100 -> -100 <= d <= 300) /\
            (iso_level <= 0 -> -1000 <= d <= 100)) ds.
Proof.
  unfold band_filter. cbn [andb].
  destruct (Np.ltb 100 iso_level) eqn:E1.
  { apply ltb_lt in E1.
    destruct (Np.ltb _ (inject_Z (Np.count bone_mask raw)));
      [|discriminate].
    destruct (Np.min (filter bone_mask raw)) as [min_bone|] eqn:Em;
      [|discriminate].
    intros E. injection E as <-.
    destruct (min_spec _ _ Em) as [Hin _]. apply filter_In in Hin.
    destruct Hin as [_ Hb]. apply ltb_lt in Hb.
    apply Forall_forall. intros d Hd. apply in_map_iff in Hd.
    destruct Hd as (v & <- & _).
    destruct (bone_mask v) eqn:Ev.
    - apply ltb_lt in Ev. repeat split; intros; lra.
    - repeat split; intros; lra. }
  assert (N1 : ~ 100 < iso_level)
    by (intros H; apply ltb_lt in H; congruence).
  destruct (Np.ltb 0 iso_level && Qle_bool iso_level 100) eqn:E2.
  { apply andb_true_iff in E2. destruct E2 as [E2 E3].
    apply ltb_lt in E2. apply Qle_bool_iff in E3.
    destruct (Np.ltb _ (inject_Z (Np.count soft_tissue_mask raw)));
      [|discriminate].
    intros E. injection E as <-.
    apply Forall_forall. intros d Hd. apply in_map_iff in Hd.
    destruct Hd as (v & <- & _).
    destruct (clip_between v (-100) 300) as [L U]; [lra|].
    repeat split; intros; lra. }
  destruct (Qle_bool iso_level 0) eqn:E3.
  { apply Qle_bool_iff in E3. intros E. injection E as <-.
    apply Forall_forall. intros d Hd. apply in_map_iff in Hd.
    destruct Hd as (v & <- & _).
    destruct (clip_between v (-1000) 100) as [L U]; [lra|].
    repeat split; intros; lra. }
  (* no case left: the three tests cover every level *)
  exfalso. assert (N3 : ~ iso_level <= 0)
    by (intros H; apply Qle_bool_iff in H; congruence).
  apply andb_false_iff in E2. destruct E2 as [E2 | E2].
  - apply N3. apply Qnot_lt_le. intros H. apply ltb_lt in H. congruence.
  - apply N1. apply Qnot_le_lt. intros H. apply Qle_bool_iff in H.
    congruence.
Qed.

(** X18.  With an original field, the densities that
    [sample_density_at_vertices_for_surface] returns depend on the
    iso-level only through its tissue band, whatever the interpolation
    returned and also when it failed: above 100 no density is below
    150, from 0 (excluded) to 100 it lies in [-100, 300], and at 0 or
    below it lies in [-1000, 100].  The bounds are whole numbers, so
    the closing conversion to [float32] keeps them. *)
Theorem surface_densities_stay_in_tissue_band
    (original data : NdArray.t Q) (vertices : list vertex)
    (iso_level : Q) (ds : list Q)
    (Hsample : sample_for_surface (Some original) data vertices iso_level
               = Some ds) :
  (100 < iso_level -> Forall (fun d => 150 <= d) ds) /\
  (0 < iso_level -> iso_level <= 100 ->
   Forall (fun d => -100 <= d <= 300) ds) /\
  (iso_level <= 0 -> Forall (fun d => -1000 <= d <= 100) ds).
Proof.
  assert (H : Forall (fun d =>
            (100 < iso_level -> 150 < d) /\
            (0 < iso_level -> iso_level <= 100 -> -100 <= d <= 300) /\
            (iso_level <= 0 -> -1000 <= d <= 100)) ds).
  { unfold sample_density_at_vertices_for_surface in Hsample.
    assert (Hfall : Forall (fun d =>
              (100 < iso_level -> 150 < d) /\
              (0 < iso_level -> iso_level <= 100 -> -100 <= d <= 300) /\
              (iso_level <= 0 -> -1000 <= d <= 100))
              (fallback_values iso_level (Np.size vertices))).
    { eapply Forall_impl; [|apply fallback_in_band].
      intros d (B1 & B2 & B3). cbv beta.
      split; [|split]; intros.
      - assert (200 <= d <= 1000) by auto. lra.
      - assert (0 <= d <= 200) by auto. lra.
      - assert (-500 <= d <= 0) by auto. lra. }
    destruct (map_coordinates original _) as [raw|].
    2: { injection Hsample as <-. exact Hfall. }
    destruct (Np.min raw).
    2: { injection Hsample as <-. exact Hfall. }
    destruct (band_filter np_percentile true iso_level raw)
      as [[filtered|]|] eqn:Eb.
    - injection Hsample as <-. exact (band_filter_in_band _ _ _ Eb).
    - discriminate.
    - injection Hsample as <-. exact Hfall. }
  rewrite Forall_forall in H.
  split; [|split]; intros; apply Forall_forall; intros d Hd;
    destruct (H d Hd) as (B1 & B2 & B3); auto.
  apply Qlt_le_weak. auto.
Qed.

(** X19.  Every level that [update_scene] hands to marching cubes
    lies at or above the minimum of the data, whatever the median is;
    it lies at or below the maximum as soon as the data spans 0.001;
    and the data then has variation. *)
Theorem marching_cubes_level_is_clamped
    (original : option (NdArray.t Q)) (data : NdArray.t Q) (level : Q)
    (Hcall : In (MarchingCubes level) (fst (scene_of original data))) :
  exists data_min data_max,
    Np.min (NdArray.ravel data) = Some data_min /\
    Np.max (NdArray.ravel data) = Some data_max /\
    data_min < data_max /\
    data_min <= level /\
    (data_min + (1 # 1000) <= data_max -> level <= data_max).
Proof.
  unfold update_scene in Hcall.
  destruct (Np.min (NdArray.ravel data)) as [lo|] eqn:Elo.
  2: { simpl in Hcall. destruct Hcall as [H | []]. discriminate. }
  destruct (Np.max (NdArray.ravel data)) as [hi|] eqn:Ehi.
  2: { simpl in Hcall. destruct Hcall as [H | []]. discriminate. }
  destruct (Qle_bool hi lo) eqn:Ele.
  { simpl in Hcall. destruct Hcall as [H | []]. discriminate. }
  assert (Hlt : lo < hi).
  { apply Qnot_le_lt. intros H. apply Qle_bool_iff in H. congruence. }
  set (l := scene_iso_level np_median (NdArray.ravel data) lo hi) in *.
  assert (El : level = l).
  { destruct (marching_cubes data l) as [vs|].
    - destruct (sample_density_at_vertices_for_surface _ _ _ _ _ _)
        as [[|d ds]|]; simpl in Hcall;
        destruct Hcall as [H | [H | H]]; try discriminate;
        try (injection H as <-; reflexivity);
        try (destruct H as [H | []]; discriminate);
        try contradiction.
    - simpl in Hcall.
      destruct Hcall as [H | [H | [H | []]]]; try discriminate.
      injection H as <-. reflexivity. }
  exists lo, hi. split; [reflexivity|]. split; [reflexivity|].
  split; [exact Hlt|]. rewrite El. unfold l, scene_iso_level. cbv zeta.
  split.
  - apply Qle_trans with (lo + (1 # 1000)); [lra | apply Q.le_max_l].
  - intros Hspan. apply Q.max_lub; [lra|].
    eapply Qle_trans; [apply Q.le_min_r | lra].
Qed.

End SceneFacts.

Section SceneInstances.

Import Resampler Mayavi.
Local Open Scope Q_scope.

Lemma surface_densities_stay_in_tissue_band_witness :
  Forall (fun d => 150 <= d) [400; 160; 160] /\
  Forall (fun d => 150 <= d)
         (fallback_values 500 (Np.size [(0, 0, 0); (0, 0, 0); (0, 0, 0)])).
Proof.
  split.
  - apply (surface_densities_stay_in_tissue_band
             (fun _ _ => Some [400; 20; 160]) (fun _ _ => None)
             [[[0]]] [[[0]]] [(0, 0, 0); (0, 0, 0); (0, 0, 0)] 500);
      [reflexivity | reflexivity].
  - apply (surface_densities_stay_in_tissue_band
             (fun _ _ => None) (fun _ _ => None)
             [[[0]]] [[[0]]] [(0, 0, 0); (0, 0, 0); (0, 0, 0)] 500);
      [reflexivity | reflexivity].
Defined.

Lemma marching_cubes_level_is_clamped_witness :
  let level := scene_iso_level (fun _ => 0) [0; 0; 0; 1000] 0 1000 in
  exists data_min data_max,
    Np.min [0; 0; 0; 1000] = Some data_min /\
    Np.max [0; 0; 0; 1000] = Some data_max /\
    data_min < data_max /\
    data_min <= level /\
    (data_min + (1 # 1000) <= data_max -> level <= data_max).
Proof.
  apply (marching_cubes_level_is_clamped
           (fun _ _ => None) (fun _ _ => None) (fun _ => 0)
           (fun _ _ => None) None [[[0; 0]; [0; 1000]]]).
  right. left. reflexivity.
Defined.

End SceneInstances.

(** ** Resizing the ROI rectangle *)

Section ResizeFacts.

Import ROI Viewer.
Local Open Scope Q_scope.

Lemma ltb_ge (a b : Q) : Np.ltb a b = false -> b <= a.
Proof.
  unfold Np.ltb. intros H. apply negb_false_iff in H.
  now apply Qle_bool_iff.
Qed.

Ltac reduce_rect :=
  unfold setTop, setBottom, setLeft, setRight, top, bottom, left, right
    in *;
  cbn [fst snd x y width height] in *.

Ltac split_resize :=
  repeat (reduce_rect;
          match goal with
          | |- context [if contains ?a ?b then _ else _] =>
              destruct (contains a b)
          | |- context [if Np.ltb ?a ?b then _ else _] =>
              let E := fresh "E" in
              destruct (Np.ltb a b) eqn:E;
              [apply ltb_lt in E | apply ltb_ge in E]
          end);
  reduce_rect.

(** X20.  Whatever handle is dragged and wherever on the scene the
    mouse goes, [perform_resize] leaves a rectangle that is 5 wide
    and 5 high at least, up to the rounding of the double arithmetic;
    and a drag by a handle that moves no horizontal edge of a
    rectangle at least 5 high keeps its top and height, as a drag
    that moves no vertical edge of one at least 5 wide keeps its left
    and width. *)
Theorem resize_keeps_minimum_size
    (resize_direction : string) (mouse_press_pos pos : Q * Q)
    (mouse_press_rect : QRectF)
    (Hscene : on_scene mouse_press_pos pos mouse_press_rect) :
  let new_rect :=
    fst (perform_resize resize_direction mouse_press_pos mouse_press_rect
                        pos) in
  (5 - resize_rounding <= width new_rect /\
   5 - resize_rounding <= height new_rect) /\
  (contains "n" resize_direction = false ->
   contains "s" resize_direction = false ->
   5 <= height mouse_press_rect ->
   y new_rect = y mouse_press_rect /\
   height new_rect = height mouse_press_rect) /\
  (contains "w" resize_direction = false ->
   contains "e" resize_direction = false ->
   5 <= width mouse_press_rect ->
   x new_rect = x mouse_press_rect /\
   width new_rect = width mouse_press_rect).
Proof.
  clear Hscene. destruct mouse_press_rect as [x0 y0 w0 h0].
  destruct mouse_press_pos as [mx my]. destruct pos as [px py].
  cbv zeta. unfold perform_resize, min_size, resize_rounding.
  split; [|split].
  - split_resize; split; lra.
  - intros Hn Hs Hh. rewrite Hn, Hs. reduce_rect.
    split_resize; try lra; split; reflexivity.
  - intros Hw He Hwd. rewrite Hw, He. reduce_rect.
    split_resize; try lra; split; reflexivity.
Qed.

Ltac eval_contains :=
  repeat match goal with
         | |- context [contains ?a ?b] =>
             let v := eval vm_compute in (contains a b) in
             match v with
             | true => change (contains a b) with true
             | false => change (contains a b) with false
             end
         end.

(** The handle that [perform_resize] leaves, from the width and the
    height of the rectangle after the edges have moved. *)
Lemma perform_resize_direction (d : string) (mx my px py x0 y0 w0 h0 : Q) :
  snd (perform_resize d (mx, my) (mkRect x0 y0 w0 h0) (px, py)) =
  let moved_width :=
    w0 + (if contains "e" d then px - mx else 0)
       - (if contains "w" d then px - mx else 0) in
  let moved_height :=
    h0 + (if contains "s" d then py - my else 0)
       - (if contains "n" d then py - my else 0) in
  let d1 := if Np.ltb moved_width 0 then flip_horizontal d else d in
  if Np.ltb moved_height 0 then flip_vertical d1 else d1.
Proof.
  unfold perform_resize. cbv zeta.
  destruct (contains "n" d), (contains "s" d), (contains "w" d),
           (contains "e" d); reduce_rect;
    repeat match goal with
           | |- context [if Np.ltb ?a 0 then _ else _] =>
               let E := fresh "E" in
               destruct (Np.ltb a 0) eqn:E;
               [apply ltb_lt in E | apply ltb_ge in E]; reduce_rect
           end;
    try reflexivity; exfalso; lra.
Qed.

Lemma resize_directions (p : Q * Q) (rect : QRectF) (d : string) :
  get_resize_direction p rect = Some d ->
  In d ["nw"; "ne"; "sw"; "se"; "n"; "s"; "w"; "e"]%string.
Proof.
  unfold get_resize_direction. cbv zeta.
  destruct (Qle_bool (fst p) resize_margin),
           (Qle_bool (width rect - resize_margin) (fst p)),
           (Qle_bool (snd p) resize_margin),
           (Qle_bool (height rect - resize_margin) (snd p));
    cbn [andb]; intros E; try discriminate; injection E as <-;
    cbn; tauto.
Qed.

(** X21.  The handle after [perform_resize], for a handle that
    [get_resize_direction] returns and a drag on the scene.  A west
    handle stays a west handle wherever it is dragged, also past the
    east edge, and an east handle dragged past the west edge becomes
    a west handle: a handle that is dragged past the opposite
    vertical edge is never an east handle afterwards.  A north handle
    dragged below the bottom edge becomes a south handle and a south
    handle dragged above the top edge a north handle; short of the
    opposite edge an east, north or south handle stays what it is.
    Past and short of an edge are meant by more than the rounding of
    the double arithmetic. *)
Theorem west_handle_never_turns_east
    (p : Q * Q) (rect : QRectF) (d : string)
    (mouse_press_pos pos : Q * Q) (mouse_press_rect : QRectF)
    (Hd : get_resize_direction p rect = Some d)
    (Hscene : on_scene mouse_press_pos pos mouse_press_rect) :
  let diff_x := fst pos - fst mouse_press_pos in
  let diff_y := snd pos - snd mouse_press_pos in
  let d' := snd (perform_resize d mouse_press_pos mouse_press_rect pos) in
  (contains "w" d = true ->
   contains "w" d' = true /\ contains "e" d' = false) /\
  (contains "e" d = true ->
   (width mouse_press_rect + diff_x <= - resize_rounding ->
    contains "w" d' = true /\ contains "e" d' = false) /\
   (resize_rounding <= width mouse_press_rect + diff_x ->
    contains "e" d' = true /\ contains "w" d' = false)) /\
  (contains "n" d = true ->
   (height mouse_press_rect - diff_y <= - resize_rounding ->
    contains "s" d' = true /\ contains "n" d' = false) /\
   (resize_rounding <= height mouse_press_rect - diff_y ->
    contains "n" d' = true /\ contains "s" d' = false)) /\
  (contains "s" d = true ->
   (height mouse_press_rect + diff_y <= - resize_rounding ->
    contains "n" d' = true /\ contains "s" d' = false) /\
   (resize_rounding <= height mouse_press_rect + diff_y ->
    contains "s" d' = true /\ contains "n" d' = false)).
Proof.
  pose proof (resize_directions p rect d Hd) as Hin. clear Hd Hscene.
  destruct mouse_press_rect as [x0 y0 w0 h0].
  destruct mouse_press_pos as [mx my]. destruct pos as [px py].
  unfold resize_rounding.
  cbv zeta. rewrite perform_resize_direction. cbv zeta.
  cbn [fst snd width height In] in *.
  repeat (destruct Hin as [<- | Hin]; [|]); [..|contradiction];
    (split; [|split; [|split]]);
    intros Hc; try discriminate Hc; clear Hc;
    eval_contains; cbv iota;
    repeat match goal with
           | |- context [if Np.ltb ?a 0 then _ else _] =>
               let E := fresh "E" in
               destruct (Np.ltb a 0) eqn:E;
               [apply ltb_lt in E | apply ltb_ge in E]
           end;
    eval_contains;
    repeat match goal with
           | |- _ /\ _ => split
           | |- _ <-> _ => split
           | |- _ -> _ => intro
           end;
    try lra; try reflexivity; try discriminate.
Qed.

End ResizeFacts.

Section ResizeInstances.

Import ROI Viewer.
Local Open Scope Q_scope.

Lemma resize_keeps_minimum_size_witness :
  let new_rect :=
    fst (perform_resize "e" (100, 50) (mkRect 0 0 100 80) (105, 300)) in
  y new_rect = 0 /\ height new_rect = 80.
Proof.
  destruct (resize_keeps_minimum_size "e" (100, 50) (105, 300)
              (mkRect 0 0 100 80)) as (_ & H & _).
  - unfold on_scene, pixel, Qle; simpl; lia.
  - exact (H eq_refl eq_refl ltac:(cbn; lra)).
Defined.

Lemma west_handle_never_turns_east_witness :
  let d' := snd (perform_resize "w" (0, 50) (mkRect 0 0 100 80)
                                (150, 50)) in
  contains "w" d' = true /\ contains "e" d' = false.
Proof.
  destruct (west_handle_never_turns_east (0, 50) (mkRect 0 0 100 80) "w"
              (0, 50) (150, 50) (mkRect 0 0 100 80) eq_refl) as (H & _).
  - unfold on_scene, pixel, Qle; simpl; lia.
  - exact (H eq_refl).
Defined.

End ResizeInstances.

(** ** Picking and density statistics *)

Section PickingFacts.

Import Picking.
Local Open Scope Q_scope.

Variable np_std : list Q -> Q.
Variable np_median : list Q -> Q.

Lemma round_integer (n : Z) : round (inject_Z n) = n.
Proof.
  unfold round. rewrite Qfloor_Z.
  replace (Np.ltb (inject_Z n - inject_Z n) (1 # 2)) with true;
    [reflexivity|].
  symmetry. apply ltb_lt. lra.
Qed.

Lemma picked_index_inside (c : Q) (dim : Z) :
  (1 <= dim)%Z -> (0 <= picked_index c dim < dim)%Z.
Proof.
  intros Hd. unfold picked_index.
  destruct (clip_between (inject_Z (round c)) 0 (inject_Z (dim - 1)))
    as [L U]; [now apply top_index_nonneg|].
  pose proof (int_nonneg _ L). pose proof (int_le_Z _ _ L U). lia.
Qed.

Lemma picked_index_lattice (i dim : Z) :
  (0 <= i < dim)%Z -> picked_index (inject_Z i) dim = i.
Proof.
  intros Hi. unfold picked_index. rewrite round_integer.
  rewrite clip_fixes.
  - rewrite int_floor; [apply Qfloor_Z|].
    change 0 with (inject_Z 0). rewrite <- Zle_Qle. lia.
  - change 0 with (inject_Z 0). rewrite <- Zle_Qle. lia.
  - rewrite <- Zle_Qle. lia.
Qed.

(** X22.  On a non-empty volume a pick always reads a voxel: the
    three indices are rounded and clamped into the array, so no pick
    position makes the lookup fail; the value comes from the original
    field when there is one; and a pick at the whole-number position
    [(i, j, k)] inside the volume reads the voxel [[k, j, i]]. *)
Theorem pick_always_reads_a_voxel
    (original : option (NdArray.t Q)) (data : NdArray.t Q)
    (s0 s1 s2 : Z)
    (Hdata : NdArray.rectangular data s0 s1 s2)
    (Horiginal : forall o, original = Some o ->
                           NdArray.rectangular o s0 s1 s2)
    (P0 : (1 <= s0)%Z) (P1 : (1 <= s1)%Z) (P2 : (1 <= s2)%Z) :
  let source := match original with Some o => o | None => data end in
  (forall picked_point, exists v,
      on_pick original data picked_point = Some v /\
      In v (NdArray.ravel source)) /\
  (forall i j k,
      (0 <= i < s2)%Z -> (0 <= j < s1)%Z -> (0 <= k < s0)%Z ->
      on_pick original data (inject_Z i, inject_Z j, inject_Z k)
      = NdArray.get source k j i).
Proof.
  cbv zeta.
  destruct (rectangular_shape data s0 s1 s2 Hdata P0 P1) as (E0 & E1 & E2).
  assert (Hsource : NdArray.rectangular
                      match original with Some o => o | None => data end
                      s0 s1 s2).
  { destruct original as [o|]; [now apply Horiginal | exact Hdata]. }
  split.
  - intros [[p0 p1] p2]. unfold on_pick.
    rewrite (nonempty_size data s0 s1 s2 Hdata P0 P1 P2), E0, E1, E2.
    destruct (get_in_range _ s0 s1 s2 (picked_index p2 s0)
                (picked_index p1 s1) (picked_index p0 s2) Hsource)
      as [v Hv]; try (now apply picked_index_inside).
    exists v. split; [|exact (get_In _ _ _ _ _ Hv)].
    destruct original; exact Hv.
  - intros i j k Hi Hj Hk. unfold on_pick.
    rewrite (nonempty_size data s0 s1 s2 Hdata P0 P1 P2), E0, E1, E2.
    rewrite !picked_index_lattice by assumption.
    destruct original; reflexivity.
Qed.

(** X23.  [get_density_statistics] returns nothing exactly when no
    voxel is positive; otherwise its minimum and maximum are voxel
    values, the minimum is positive and not above the maximum, and
    they bound every positive voxel: voxels at or below 0 (air in HU
    data as well as masked voxels) do not enter the statistics. *)
Theorem density_statistics_cover_positive_voxels (data : NdArray.t Q) :
  let flat := NdArray.ravel data in
  (get_density_statistics np_std np_median data = None <->
   forall v, In v flat -> v <= 0) /\
  (forall st,
      get_density_statistics np_std np_median data = Some st ->
      0 < stat_min st /\
      stat_min st <= stat_max st /\
      In (stat_min st) flat /\ In (stat_max st) flat /\
      forall v, In v flat -> 0 < v -> stat_min st <= v <= stat_max st).
Proof.
  cbv zeta. unfold get_density_statistics.
  set (flat := NdArray.ravel data).
  set (nz := filter (fun v => Np.ltb 0 v) flat).
  assert (Hnz : forall v, In v nz <-> In v flat /\ 0 < v).
  { intros v. unfold nz. rewrite filter_In, ltb_lt. tauto. }
  assert (Hempty : nz = [] <-> forall v, In v flat -> v <= 0).
  { split.
    - intros E v Hv. apply Qnot_lt_le. intros Hp.
      assert (In v nz) by (apply Hnz; auto). rewrite E in H. exact H.
    - intros H. destruct nz as [|v t] eqn:E; [reflexivity|].
      assert (Hv : In v (v :: t)) by now left.
      apply Hnz in Hv. destruct Hv as [Hin Hp].
      pose proof (H v Hin). lra. }
  assert (Hsize : (0 <? Np.size nz)%Z = false <-> nz = []).
  { unfold Np.size. rewrite Z.ltb_ge. split.
    - intros H. destruct nz; [reflexivity | simpl in H; lia].
    - intros ->. simpl. lia. }
  split.
  - split.
    + intros H. apply Hempty.
      destruct (0 <? Np.size flat)%Z eqn:Ef.
      * destruct (0 <? Np.size nz)%Z eqn:En; [|now apply Hsize].
        destruct nz as [|v t]; [reflexivity|]. simpl in H. discriminate.
      * unfold Np.size in Ef. apply Z.ltb_ge in Ef.
        assert (Eflat : flat = [])
          by (destruct flat; [reflexivity | simpl in Ef; lia]).
        unfold nz. rewrite Eflat. reflexivity.
    + intros H. apply Hempty in H.
      destruct (0 <? Np.size flat)%Z; [|reflexivity].
      apply Hsize in H. rewrite H. reflexivity.
  - intros st.
    destruct (0 <? Np.size flat)%Z; [|discriminate].
    destruct (0 <? Np.size nz)%Z eqn:En; [|discriminate].
    destruct (Np.min nz) as [lo|] eqn:Elo; [|discriminate].
    destruct (Np.max nz) as [hi|] eqn:Ehi; [|discriminate].
    intros E. injection E as <-. cbn [stat_min stat_max stat_mean].
    destruct (min_spec _ _ Elo) as [Ilo Alo].
    destruct (max_spec _ _ Ehi) as [Ihi Ahi].
    rewrite Forall_forall in Alo, Ahi.
    assert (Hne : nz <> []).
    { intros E. rewrite E in Elo. discriminate. }
    split; [apply (Hnz lo); exact Ilo|].
    split; [apply Ahi; exact Ilo|].
    split; [apply (Hnz lo); exact Ilo|].
    split; [apply (Hnz hi); exact Ihi|].
    intros v Hv Hp. assert (Hin : In v nz) by (apply Hnz; auto).
    split; [apply Alo | apply Ahi]; exact Hin.
Qed.

End PickingFacts.

Section PickingInstances.

Import Picking.
Local Open Scope Q_scope.

Lemma pick_always_reads_a_voxel_witness :
  on_pick None [[[1; 2; 3]; [4; 5; 6]]] (2, 1, 0) = Some 6 /\
  exists v, on_pick None [[[1; 2; 3]; [4; 5; 6]]] (40, -7, 5 # 2) = Some v.
Proof.
  assert (R : NdArray.rectangular [[[1; 2; 3]; [4; 5; 6]]] 1 2 3).
  { split; [reflexivity|]. repeat constructor. }
  destruct (pick_always_reads_a_voxel None [[[1; 2; 3]; [4; 5; 6]]] 1 2 3 R
              ltac:(discriminate) ltac:(lia) ltac:(lia) ltac:(lia))
    as [Hany Hlattice].
  split.
  - exact (Hlattice 2%Z 1%Z 0%Z ltac:(lia) ltac:(lia) ltac:(lia)).
  - destruct (Hany (40, -7, 5 # 2)) as (v & Hv & _). eauto.
Defined.

Lemma density_statistics_cover_positive_voxels_witness :
  get_density_statistics (fun _ => 0) (fun _ => 0) [[[-1000; 0; -5]]]
  = None.
Proof.
  apply (density_statistics_cover_positive_voxels
           (fun _ => 0) (fun _ => 0) [[[-1000; 0; -5]]]).
  intros v [<- | [<- | [<- | []]]]; lra.
Defined.

End PickingInstances.
